(** * Alkosto chat front end: intent heuristic, retry client, session storage
      and store

    A shallow embedding of the client logic of the repository, with the
    properties its specification states about it and further properties read
    off the code:

    - [MessageProtocol]: [src/lib/messageProtocol.ts], the keyword heuristic
      that classifies a message, extracts entities and updates the
      conversation context;
    - [ChatService]: [src/lib/chatService.ts], the request wrapper that
      classifies failures and retries with exponential backoff;
    - [Api]: [src/lib/api.ts], the session id and the chat history kept in
      [localStorage];
    - [Health], [AlkostoAPI]: the health probes of both classes and the
      request of [src/lib/api.ts], which does not retry;
    - [MessageProtocolService]: the history the service of
      [src/lib/messageProtocol.ts] keeps of a conversation, and the request
      it formats from it;
    - [RegExp]: the regular expressions of the code, matched by backtracking
      as the language defines it;
    - [ChatStore]: [src/lib/chatStore.ts], the actions of the store and the
      helpers that read a budget, a category and missing criteria from an
      answer.

    Conventions of the embedding.

    - A JavaScript string is a [string]: a sequence of 8-bit code units, read
      as the code units U+0000..U+00FF of a JavaScript string (ASCII and
      Latin-1).  On that range [toLowerCase] is exactly the mapping of
      ECMAScript; code units above U+00FF are outside the model.  The texts
      that the code writes for the user are spelled in UTF-8; where the store
      reads one of them again it looks for digits, commas and words of ASCII
      letters, which occur in the same places in either spelling.
    - An integer-valued JavaScript number is a [Js.number]: an exact integer,
      NaN or an infinity.  The integer is the value of the double as long as
      it is below 2^53 in magnitude; negative zero is not distinguished from
      zero.  The confidence scores, which are decimal fractions, are binary64
      floats ([PrimFloat.float]), as in the running program.
    - [undefined] and absent properties are [None].
    - What a request throws is an [Error], or a value that [analyzeError]
      can print ([ChatService.Thrown]); [fetch] and [response.json()] reject
      with errors only.
    - Time is a clock in milliseconds.  The transport says how long each
      attempt takes; a timer waits its delay when the delay is within the
      32-bit range of a timer, and nothing for certain otherwise
      ([ChatService.delay]). *)

From Stdlib Require Import String Ascii List ZArith NArith Bool Lia.
From Stdlib Require Import PrimFloat FloatClass SpecFloat FloatOps Uint63.
From Stdlib Require Import DecimalString DecimalPos DecimalZ.
From Equations Require Import Equations.
Import ListNotations.

Set Warnings "-inexact-float,-register-all".

Local Open Scope string_scope.
Local Open Scope bool_scope.

(* ===================================================================== *)
(** * The JavaScript primitives the code relies on *)
(* ===================================================================== *)

Module Js.

(** ** Numbers *)

Inductive number :=
| Int (z : Z)
| NaN
| Infinity
| NegInfinity.

(** [ToBoolean] on a number: zero and NaN are falsy. *)
Definition truthy (n : number) : bool :=
  match n with
  | Int z => negb (z =? 0)%Z
  | NaN => false
  | Infinity | NegInfinity => true
  end.

(** [a || b] on numbers. *)
Definition or_else (a b : number) : number := if truthy a then a else b.

(** [a + b]. *)
Definition add (a b : number) : number :=
  match a, b with
  | NaN, _ | _, NaN => NaN
  | Int x, Int y => Int (x + y)
  | Infinity, NegInfinity | NegInfinity, Infinity => NaN
  | Infinity, _ | _, Infinity => Infinity
  | NegInfinity, _ | _, NegInfinity => NegInfinity
  end.

(** [a <= b]; every comparison with NaN is false. *)
Definition leb (a b : number) : bool :=
  match a, b with
  | NaN, _ | _, NaN => false
  | NegInfinity, _ => true
  | _, Infinity => true
  | Int x, Int y => (x <=? y)%Z
  | Infinity, _ => false
  | Int _, NegInfinity => false
  end.

(** [a < b]. *)
Definition ltb (a b : number) : bool :=
  match a, b with
  | NaN, _ | _, NaN => false
  | Infinity, _ => false
  | _, NegInfinity => false
  | Int x, Int y => (x <? y)%Z
  | NegInfinity, _ => true
  | Int _, Infinity => true
  end.

(** [a > b] and [a >= b]. *)
Definition gtb (a b : number) : bool := ltb b a.
Definition geb (a b : number) : bool := leb b a.

(** [a === b] on numbers: NaN is different from itself. *)
Definition strict_eq (a b : number) : bool :=
  match a, b with
  | Int x, Int y => (x =? y)%Z
  | Infinity, Infinity | NegInfinity, NegInfinity => true
  | _, _ => false
  end.

Definition min2 (a b : number) : number :=
  match a, b with
  | NaN, _ | _, NaN => NaN
  | _, _ => if leb a b then a else b
  end.

Definition max2 (a b : number) : number :=
  match a, b with
  | NaN, _ | _, NaN => NaN
  | _, _ => if leb a b then b else a
  end.

(** [Math.min(...l)] and [Math.max(...l)]; of no argument they are
    [Infinity] and [-Infinity]. *)
Definition Math_min (l : list number) : number := fold_right min2 Infinity l.
Definition Math_max (l : list number) : number := fold_right max2 NegInfinity l.

(** ** Code units *)

Definition code (c : ascii) : N := N_of_ascii c.

Definition is_digit (c : ascii) : bool := ((48 <=? code c) && (code c <=? 57))%N.

(** Value of a digit in radix 16 (also used, below 10, for radix 10). *)
Definition hex_value (c : ascii) : option Z :=
  let n := code c in
  if ((48 <=? n) && (n <=? 57))%N then Some (Z.of_N n - 48)%Z
  else if ((97 <=? n) && (n <=? 102))%N then Some (Z.of_N n - 87)%Z
  else if ((65 <=? n) && (n <=? 70))%N then Some (Z.of_N n - 55)%Z
  else None.

Definition radix_value (radix : Z) (c : ascii) : option Z :=
  match hex_value c with
  | Some v => if (v <? radix)%Z then Some v else None
  | None => None
  end.

(** White space and line terminators below U+0100: TAB, LF, VT, FF, CR, SP
    and NBSP. *)
Definition is_white_space (c : ascii) : bool :=
  let n := code c in
  (((9 <=? n) && (n <=? 13)) || (n =? 32) || (n =? 160))%N.

(** [String.prototype.toLowerCase] on one code unit: A-Z, and the Latin-1
    capitals U+00C0..U+00DE other than the multiplication sign U+00D7. *)
Definition lower_unit (c : ascii) : ascii :=
  let n := code c in
  if (((65 <=? n) && (n <=? 90)) ||
      ((192 <=? n) && (n <=? 222) && negb (n =? 215)))%N
  then ascii_of_N (n + 32)
  else c.

Fixpoint toLowerCase (s : string) : string :=
  match s with
  | EmptyString => EmptyString
  | String c s' => String (lower_unit c) (toLowerCase s')
  end.

(** ** Searching *)

(** [s.includes(w)]. *)
Fixpoint includes (s w : string) : bool :=
  String.prefix w s ||
  match s with
  | EmptyString => false
  | String _ s' => includes s' w
  end.

Fixpoint drop (n : nat) (s : string) : string :=
  match n, s with
  | S n', String _ s' => drop n' s'
  | _, _ => s
  end.

(** The text before and the text after the first occurrence of [sep]. *)
Fixpoint split_first (sep s : string) : option (string * string) :=
  if String.prefix sep s then Some (EmptyString, drop (String.length sep) s)
  else match s with
       | EmptyString => None
       | String c s' =>
           match split_first sep s' with
           | Some (before, after) => Some (String c before, after)
           | None => None
           end
       end.

Fixpoint split_fuel (fuel : nat) (sep s : string) : list string :=
  match fuel with
  | O => [s]
  | S fuel' =>
      match split_first sep s with
      | Some (before, after) => before :: split_fuel fuel' sep after
      | None => [s]
      end
  end.

(** [s.split(sep)] for a separator that is not empty: every occurrence
    consumes at least one code unit, so [length s] rounds are enough. *)
Definition split (s sep : string) : list string :=
  split_fuel (String.length s) sep s.

(** [l.join(sep)] on strings. *)
Fixpoint join (sep : string) (l : list string) : string :=
  match l with
  | [] => EmptyString
  | [x] => x
  | x :: rest => x ++ sep ++ join sep rest
  end.

(** ** [parseInt] without a radix argument

    The integer that [parseInt] reads.  The number the program gets is the
    double nearest to it: the same integer as long as it is below 2^53 in
    magnitude, as every integer of at most 15 decimal digits is. *)

Fixpoint trim_start (s : string) : string :=
  match s with
  | String c s' => if is_white_space c then trim_start s' else s
  | EmptyString => s
  end.

(** Value of the longest prefix of digits of the radix, [None] when that
    prefix is empty. [acc] is the value read so far. *)
Fixpoint digits_value (radix : Z) (acc : option Z) (s : string) : option Z :=
  match s with
  | String c s' =>
      match radix_value radix c with
      | Some v =>
          digits_value radix
            (Some (match acc with Some a => a * radix + v | None => v end)%Z) s'
      | None => acc
      end
  | EmptyString => acc
  end.

Definition parseInt (input : string) : number :=
  let s := trim_start input in
  let '(sign, s) :=
    match s with
    | String "-" s' => ((-1)%Z, s')
    | String "+" s' => (1%Z, s')
    | _ => (1%Z, s)
    end in
  let '(radix, s) :=
    match s with
    | String "0" (String "x" s') => (16%Z, s')
    | String "0" (String "X" s') => (16%Z, s')
    | _ => (10%Z, s)
    end in
  match digits_value radix None s with
  | Some v => Int (sign * v)
  | None => NaN
  end.

(** Decimal text of an integer, as a template literal prints it. *)
Definition string_of_Z (z : Z) : string := NilZero.string_of_int (Z.to_int z).

(** ** Tests on the code units of a text *)

(** Some code unit passes the test, as [/[...]/.test(s)] with a class. *)
Fixpoint some_unit (p : ascii -> bool) (s : string) : bool :=
  match s with
  | EmptyString => false
  | String c s' => p c || some_unit p s'
  end.

(** Every code unit passes the test. *)
Fixpoint every_unit (p : ascii -> bool) (s : string) : bool :=
  match s with
  | EmptyString => true
  | String c s' => p c && every_unit p s'
  end.

(** The text before the first occurrence of the separator, all of the text
    when there is none: the first of the pieces of [split]. *)
Definition first_piece (sep s : string) : string :=
  match split_first sep s with Some (before, _) => before | None => s end.

End Js.

(* ===================================================================== *)
(** * src/lib/messageProtocol.ts *)
(* ===================================================================== *)

Module MessageProtocol.
Import Js.

(** ** Data model *)

(** The string literal unions of the interfaces, one constructor a literal. *)
Module Primary.
Inductive t := search | compare | question | purchase | support.
Definition eqb (a b : t) : bool :=
  match a, b with
  | search, search | compare, compare | question, question
  | purchase, purchase | support, support => true
  | _, _ => false
  end.
End Primary.

Module Phase.
Inductive t := discovery | narrowing | comparison | decision.
End Phase.

(** [determineAgentAction] also returns ['comparison'], a literal the
    interface does not list. *)
Module AgentAction.
Inductive t := search | question | recommendation | clarification | comparison.
End AgentAction.

Module Satisfaction.
Inductive t := high | medium | low.
End Satisfaction.

Module Progress.
Inductive t := purchase | research | comparison.
End Progress.

Module Behavior.
Inductive t := budget_conscious | premium_seeker | feature_focused.
End Behavior.

Record PriceRange := {
  min : option number;
  max : option number
}.

Record Entities := {
  products : option (list string);
  brands : option (list string);
  features : option (list string);
  priceRange : option PriceRange;
  category : option string
}.

Record UserIntent := {
  primary : Primary.t;
  secondary : option (list string);
  confidence : float;
  entities : Entities
}.

(** A value of the [Record<string, any>] of search criteria. *)
Inductive CriteriaValue :=
| CUndefined
| CNumber (n : number)
| CString (s : string)
| CStrings (l : list string).

(** The criteria object, its properties in insertion order. *)
Definition Criteria := list (string * CriteriaValue).

Record BudgetRange := {
  budget_min : number;
  budget_max : number
}.

Record UserProfile := {
  preferredBrands : option (list string);
  budgetRange : option BudgetRange;
  previousPurchases : option (list string);
  shoppingBehavior : option Behavior.t
}.

Record CurrentSearch := {
  search_category : option string;
  criteria : Criteria;
  phase : Phase.t;
  missingInfo : list string
}.

Record ConversationState := {
  turnCount : number;
  lastAgentAction : AgentAction.t;
  userSatisfaction : option Satisfaction.t;
  progressTowards : Progress.t
}.

Record ProductsContext := {
  lastSearchResults : number;
  viewedProducts : list string;
  comparedProducts : list string;
  addedToCart : list string
}.

Record ConversationContext := {
  userProfile : option UserProfile;
  currentSearch : option CurrentSearch;
  conversationState : ConversationState;
  productsContext : option ProductsContext
}.

(** ** Helpers of the service, in the order the class uses them *)

Definition truthy_string (s : string) : bool :=
  negb (String.eqb s EmptyString).

(** [!x] for an optional string, and [!l?.length] for an optional list. *)
Definition absent_string (o : option string) : bool :=
  match o with Some s => negb (truthy_string s) | None => true end.

Definition no_length {A} (o : option (list A)) : bool :=
  match o with Some (_ :: _) => false | _ => true end.

Definition determineAgentAction (intent : UserIntent) : AgentAction.t :=
  match primary intent with
  | Primary.search => AgentAction.search
  | Primary.compare => AgentAction.comparison
  | Primary.question => AgentAction.clarification
  | _ => AgentAction.recommendation
  end.

Definition determineProgress (intent : UserIntent) (input : string) : Progress.t :=
  if Primary.eqb (primary intent) Primary.purchase || includes input "comprar"
  then Progress.purchase
  else if Primary.eqb (primary intent) Primary.compare then Progress.comparison
  else Progress.research.

Definition assessSatisfaction (input : string) : option Satisfaction.t :=
  let positive := ["bien"; "perfecto"; "excelente"; "gracias"; "bueno"] in
  let negative := ["no"; "mal"; "problema"; "error"; "confund"] in
  let text := toLowerCase input in
  if existsb (fun word => includes text word) positive then Some Satisfaction.high
  else if existsb (fun word => includes text word) negative then Some Satisfaction.low
  else Some Satisfaction.medium.

Definition determineSearchPhase (turnCount : number) : Phase.t :=
  if leb turnCount (Int 2) then Phase.discovery
  else if leb turnCount (Int 4) then Phase.narrowing
  else if leb turnCount (Int 6) then Phase.comparison
  else Phase.decision.

Definition of_optional_number (o : option number) : CriteriaValue :=
  match o with Some n => CNumber n | None => CUndefined end.

Definition extractCriteria (input : string) (intent : UserIntent) : Criteria :=
  let from_price :=
    match priceRange (entities intent) with
    | Some range =>
        [("presupuesto_max", of_optional_number (max range));
         ("presupuesto_min", of_optional_number (min range))]
    | None => []
    end in
  let from_brands :=
    match brands (entities intent) with
    | Some (b :: bs) => [("marcas_preferidas", CStrings (b :: bs))]
    | _ => []
    end in
  let text := toLowerCase input in
  let usage :=
    if includes text "trabajo" || includes text "oficina"
    then [("uso_principal", CString "trabajo")]
    else if includes text "gaming" || includes text "juego"
    then [("uso_principal", CString "gaming")]
    else if includes text "estudio" || includes text "universidad"
    then [("uso_principal", CString "estudio")]
    else [] in
  (from_price ++ from_brands ++ usage)%list.

Definition identifyMissingInfo (intent : UserIntent) : list string :=
  ((if absent_string (category (entities intent)) then ["categoria"] else []) ++
   (match priceRange (entities intent) with None => ["presupuesto"] | Some _ => [] end) ++
   (if Primary.eqb (primary intent) Primary.search && no_length (features (entities intent))
    then ["uso_principal"] else []))%list.

(** ** The price pattern

    The regular expression of [analyzeUserIntent], with the flag [g], is one
    capture group holding [\d{1,3}] followed by the group [(?:[.,]\d{3})]
    under a star.  Nothing follows the starred group, so the greedy choices
    are never undone: one to three digits, then as many groups of a separator
    and three digits as there are. *)

(** At most [n] leading digits, and the rest. *)
Fixpoint take_digits (n : nat) (s : string) : string * string :=
  match n, s with
  | S n', String c s' =>
      if is_digit c
      then let '(d, r) := take_digits n' s' in (String c d, r)
      else (EmptyString, s)
  | _, _ => (EmptyString, s)
  end.

Definition is_separator (c : ascii) : bool :=
  Ascii.eqb c "." || Ascii.eqb c ",".

(** One round of [(?:[.,]\d{3})]. *)
Definition thousands_group (s : string) : option (string * string) :=
  match s with
  | String c s' =>
      if is_separator c then
        let '(d, r) := take_digits 3 s' in
        if Nat.eqb (String.length d) 3 then Some (String c d, r) else None
      else None
  | EmptyString => None
  end.

(** The starred group: every round consumes four code units. *)
Fixpoint thousands_groups (fuel : nat) (s : string) : string * string :=
  match fuel with
  | O => (EmptyString, s)
  | S fuel' =>
      match thousands_group s with
      | Some (g, r) => let '(gs, r') := thousands_groups fuel' r in (g ++ gs, r')
      | None => (EmptyString, s)
      end
  end.

(** The pattern anchored at the head of [s]: the match and what follows. *)
Definition price_at (s : string) : option (string * string) :=
  let '(d, r) := take_digits 3 s in
  match d with
  | EmptyString => None
  | _ =>
      let '(gs, r') := thousands_groups (String.length r) r in
      Some (d ++ gs, r')
  end.

(** All matches from left to right; the search resumes after a match, or one
    code unit further when there is none at the head. *)
Fixpoint price_matches (fuel : nat) (s : string) : list string :=
  match fuel with
  | O => []
  | S fuel' =>
      match price_at s with
      | Some (m, r) => m :: price_matches fuel' r
      | None =>
          match s with
          | EmptyString => []
          | String _ s' => price_matches fuel' s'
          end
      end
  end.

(** [text.match] with the price pattern: [null] when nothing matches. *)
Definition match_price_pattern (text : string) : option (list string) :=
  match price_matches (S (String.length text)) text with
  | [] => None
  | l => Some l
  end.

(** [p.replace(/[.,]/g, '')]. *)
Fixpoint strip_separators (p : string) : string :=
  match p with
  | EmptyString => EmptyString
  | String c p' =>
      if is_separator c then strip_separators p' else String c (strip_separators p')
  end.

(** ** analyzeUserIntent *)

Definition analyzeUserIntent (input : string) : UserIntent :=
  let text := toLowerCase input in
  let '(primary, confidence) :=
    if includes text "compar" || includes text "diferencia" || includes text "vs"
    then (Primary.compare, 0.9%float)
    else if includes text "comprar" || includes text "precio" || includes text "carrito"
    then (Primary.purchase, 0.85%float)
    else if includes text "?" || includes text "como" || includes text "que es"
    then (Primary.question, 0.8%float)
    else if includes text "busco" || includes text "necesito" || includes text "quiero"
    then (Primary.search, 0.9%float)
    else (Primary.search, 0.7%float) in
  let categories :=
    ["televisor"; "celular"; "laptop"; "gaming"; "audio"; "electrodomestico"] in
  let brands := ["samsung"; "lg"; "sony"; "apple"; "lenovo"; "hp"; "dell"] in
  let priceMatch := match_price_pattern text in
  {| primary := primary;
     secondary := None;
     confidence := confidence;
     entities :=
       {| products := None;
          brands := Some (filter (fun brand => includes text brand) brands);
          features := None;
          priceRange :=
            match priceMatch with
            | Some matches =>
                let prices := map (fun p => parseInt (strip_separators p)) matches in
                Some {| min := Some (Math_min prices); max := Some (Math_max prices) |}
            | None => None
            end;
          category := find (fun cat => includes text cat) categories |} |}.

(** ** updateConversationContext *)

Definition previous_turnCount (previousContext : option ConversationContext) : number :=
  match previousContext with
  | Some c => or_else (turnCount (conversationState c)) (Int 0)
  | None => Int 0
  end.

(** The context the method returns; the service also keeps it as its
    [currentContext]. *)
Definition updateConversationContext (userInput : string) (intent : UserIntent)
    (previousContext : option ConversationContext) : ConversationContext :=
  let state :=
    {| turnCount := add (previous_turnCount previousContext) (Int 1);
       lastAgentAction := determineAgentAction intent;
       progressTowards := determineProgress intent userInput;
       userSatisfaction := assessSatisfaction userInput |} in
  {| userProfile :=
       match previousContext with Some c => userProfile c | None => None end;
     currentSearch :=
       if Primary.eqb (primary intent) Primary.search
       then Some {| search_category := category (entities intent);
                    criteria := extractCriteria userInput intent;
                    phase := determineSearchPhase (turnCount state);
                    missingInfo := identifyMissingInfo intent |}
       else match previousContext with Some c => currentSearch c | None => None end;
     conversationState := state;
     productsContext :=
       match previousContext with Some c => productsContext c | None => None end |}.

(** ** generateAgentInstructions *)

Definition generateAgentInstructions (context : ConversationContext)
    (intent : UserIntent) : list string :=
  ((match currentSearch context with
   | Some cs =>
       if Primary.eqb (primary intent) Primary.search &&
          negb (Nat.eqb (List.length (missingInfo cs)) 0)
       then [("ASK_FOR: " ++ join ", " (missingInfo cs))%string]
       else []
   | None => []
   end) ++
  (if gtb (turnCount (conversationState context)) (Int 5) &&
      negb (match productsContext context with
            | Some pc => truthy (lastSearchResults pc)
            | None => false
            end)
   then ["SUGGEST_ALTERNATIVE_APPROACH"] else []) ++
  (if PrimFloat.ltb (confidence intent) 0.6%float
   then ["CLARIFY_USER_INTENT"] else []))%list.

(** ** The heuristic as the service runs it

    [createStructuredMessage] analyses the input and folds the intent into
    the context it was given. *)
Definition heuristic (userInput : string)
    (previousContext : option ConversationContext) : UserIntent * ConversationContext :=
  let intent := analyzeUserIntent userInput in
  (intent, updateConversationContext userInput intent previousContext).

(** A chain of invocations: every call is given the context the call before
    it produced. *)
Fixpoint chain (inputs : list string) (previousContext : option ConversationContext)
  : option ConversationContext :=
  match inputs with
  | [] => previousContext
  | input :: rest => chain rest (Some (snd (heuristic input previousContext)))
  end.

(** The turn count a context carries, 0 for no context. *)
Definition turns (context : option ConversationContext) : number :=
  match context with
  | Some c => turnCount (conversationState c)
  | None => Int 0
  end.

(** A code unit that can occur in a match of the price pattern. *)
Definition price_unit (c : ascii) : bool := is_digit c || is_separator c.

End MessageProtocol.

(* ===================================================================== *)
(** * Dates and JSON, as far as the chat history needs them *)
(* ===================================================================== *)

Module JsDate.
Import Js.
Local Open Scope Z_scope.

(** A [Date] object: its time value in milliseconds since the epoch, or the
    invalid date (time value NaN). *)
Inductive t :=
| Invalid
| Instant (ms : Z).

Definition msPerDay : Z := 86400000.
Definition maxTime : Z := 8640000000000000.

Definition in_range (ms : Z) : bool := (- maxTime <=? ms) && (ms <=? maxTime).

Definition TimeClip (ms : Z) : t := if in_range ms then Instant ms else Invalid.

(** ** The proleptic Gregorian calendar

    Days are counted from 1970-01-01.  Inside an era of 400 years the years
    start on 1 March, so the leap day is the last day of a year, of a cycle
    of four years and of the era. *)

Definition civil_from_days (z : Z) : Z * Z * Z :=
  let z := z + 719468 in
  let era := z / 146097 in
  let doe := z mod 146097 in
  let c := Z.min (doe / 36524) 3 in
  let doc := doe - c * 36524 in
  let q := doc / 1461 in
  let doq := doc - q * 1461 in
  let a := Z.min (doq / 365) 3 in
  let doy := doq - a * 365 in
  let yoe := c * 100 + q * 4 + a in
  let mp := (5 * doy + 2) / 153 in
  let d := doy - (153 * mp + 2) / 5 + 1 in
  let m := if mp <? 10 then mp + 3 else mp - 9 in
  (yoe + era * 400 + (if m <=? 2 then 1 else 0), m, d).

Definition days_from_civil (y m d : Z) : Z :=
  let y := if m <=? 2 then y - 1 else y in
  let era := y / 400 in
  let yoe := y mod 400 in
  let mp := (m + 9) mod 12 in
  let doy := (153 * mp + 2) / 5 + d - 1 in
  let doe := yoe * 365 + yoe / 4 - yoe / 100 + doy in
  era * 146097 + doe - 719468.

(** ** The text of [toISOString] *)

Definition digit (v : Z) : ascii := ascii_of_N (48 + Z.to_N v).

(** [v] in [n] decimal digits, zero padded. *)
Fixpoint pad (n : nat) (v : Z) : string :=
  match n with
  | O => EmptyString
  | S n' => (pad n' (v / 10) ++ String (digit (v mod 10)) EmptyString)%string
  end.

Definition year_text (y : Z) : string :=
  if (0 <=? y) && (y <=? 9999) then pad 4 y
  else ((if (y <? 0)%Z then "-" else "+") ++ pad 6 (Z.abs y))%string.

Definition toISOString (ms : Z) : string :=
  let '(y, m, d) := civil_from_days (ms / msPerDay) in
  let tod := ms mod msPerDay in
  (year_text y ++ "-" ++ pad 2 m ++ "-" ++ pad 2 d ++ "T" ++
   pad 2 (tod / 3600000) ++ ":" ++ pad 2 (tod / 60000 mod 60) ++ ":" ++
   pad 2 (tod / 1000 mod 60) ++ "." ++ pad 3 (tod mod 1000) ++ "Z")%string.

(** ** Reading that text back *)

(** Exactly [n] digits: their value on top of [acc], and the rest. *)
Fixpoint read_digits (n : nat) (acc : Z) (s : string) : option (Z * string) :=
  match n with
  | O => Some (acc, s)
  | S n' =>
      match s with
      | String c s' =>
          if is_digit c then read_digits n' (acc * 10 + (Z.of_N (code c) - 48)) s'
          else None
      | EmptyString => None
      end
  end.

Definition read_char (c : ascii) (s : string) : option string :=
  match s with
  | String c' s' => if Ascii.eqb c c' then Some s' else None
  | EmptyString => None
  end.

Definition read_year (s : string) : option (Z * string) :=
  match s with
  | String "+" s' => read_digits 6 0 s'
  | String "-" s' =>
      match read_digits 6 0 s' with
      | Some (y, r) => Some (- y, r)
      | None => None
      end
  | _ => read_digits 4 0 s
  end.

Definition bind {A B} (o : option A) (f : A -> option B) : option B :=
  match o with Some a => f a | None => None end.

(** The time value a text of the shape [YYYY-MM-DDTHH:mm:ss.sssZ] (or with a
    signed year of six digits) denotes, field by field. *)
Definition read_fields (s : string) : option Z :=
  bind (read_year s) (fun '(y, s) =>
  bind (read_char "-" s) (fun s =>
  bind (read_digits 2 0 s) (fun '(m, s) =>
  bind (read_char "-" s) (fun s =>
  bind (read_digits 2 0 s) (fun '(d, s) =>
  bind (read_char "T" s) (fun s =>
  bind (read_digits 2 0 s) (fun '(h, s) =>
  bind (read_char ":" s) (fun s =>
  bind (read_digits 2 0 s) (fun '(mi, s) =>
  bind (read_char ":" s) (fun s =>
  bind (read_digits 2 0 s) (fun '(sec, s) =>
  bind (read_char "." s) (fun s =>
  bind (read_digits 3 0 s) (fun '(milli, s) =>
  bind (read_char "Z" s) (fun s =>
  match s with
  | EmptyString =>
      Some (days_from_civil y m d * msPerDay
            + h * 3600000 + mi * 60000 + sec * 1000 + milli)
  | _ => None
  end)))))))))))))).

(** [Date.parse]: a text that is exactly what [toISOString] writes for an
    instant in range denotes that instant.  What an engine makes of any other
    text (shortened ISO forms, out-of-range fields, the legacy formats) is left
    to [other]. *)
Definition parse (other : string -> t) (s : string) : t :=
  match read_fields s with
  | Some ms =>
      if in_range ms && String.eqb (toISOString ms) s then Instant ms else other s
  | None => other s
  end.

End JsDate.

Module Json.
Import Js.

(** A JSON text, by the value it denotes.  The text that [JSON.stringify]
    writes and the value that [JSON.parse] reads from it are not told
    apart. *)
Inductive json :=
| JNull
| JBool (b : bool)
| JNumber (f : float)
| JString (s : string)
| JArray (items : list json)
| JObject (members : list (string * json)).

(** The values that reach [JSON.stringify] and come out of [JSON.parse] and
    the [Date] constructor.  An object is its own enumerable properties in
    order. *)
Inductive JsValue :=
| Undefined
| Null
| Bool (b : bool)
| Number (f : float)
| Str (s : string)
| DateObject (d : JsDate.t)
| Array (items : list JsValue)
| Object (props : list (string * JsValue)).

(** A number in JSON: NaN and the infinities are written [null], and
    negative zero is written [0]. *)
Definition number_to_json (f : float) : json :=
  match PrimFloat.classify f with
  | FloatClass.NaN | PInf | NInf => JNull
  | NZero => JNumber 0%float
  | _ => JNumber f
  end.

(** [Date.prototype.toJSON]. *)
Definition date_to_json (d : JsDate.t) : json :=
  match d with
  | JsDate.Instant ms => JString (JsDate.toISOString ms)
  | JsDate.Invalid => JNull
  end.

(** [JSON.stringify]: [None] is [undefined], which an object leaves out and
    an array writes as [null]. *)
Fixpoint stringify (v : JsValue) : option json :=
  match v with
  | Undefined => None
  | Null => Some JNull
  | Bool b => Some (JBool b)
  | Number f => Some (number_to_json f)
  | Str s => Some (JString s)
  | DateObject d => Some (date_to_json d)
  | Array items =>
      Some (JArray (map (fun x => match stringify x with
                                  | Some j => j
                                  | None => JNull
                                  end) items))
  | Object props =>
      Some (JObject (flat_map (fun kx => match stringify (snd kx) with
                                         | Some j => [(fst kx, j)]
                                         | None => []
                                         end) props))
  end.

(** [JSON.parse] on the text of a JSON value. *)
Fixpoint parse (j : json) : JsValue :=
  match j with
  | JNull => Null
  | JBool b => Bool b
  | JNumber f => Number f
  | JString s => Str s
  | JArray items => Array (map parse items)
  | JObject members => Object (map (fun kj => (fst kj, parse (snd kj))) members)
  end.

(** ** Property access *)

Fixpoint lookup (k : string) (props : list (string * JsValue)) : option JsValue :=
  match props with
  | [] => None
  | (k', v) :: rest => if String.eqb k k' then Some v else lookup k rest
  end.

(** [v.k] for a name [k] that is neither an index nor a member of a built-in
    prototype ([sessionId], [messages], [timestamp]): [None] is the
    [TypeError] of reading a property of [null] or [undefined]. *)
Definition get (v : JsValue) (k : string) : option JsValue :=
  match v with
  | Undefined | Null => None
  | Object props =>
      Some (match lookup k props with Some x => x | None => Undefined end)
  | _ => Some Undefined
  end.

(** [{...o, k: v}] on the properties of [o]: an existing property keeps its
    place, a new one goes last. *)
Fixpoint assign (k : string) (v : JsValue) (props : list (string * JsValue))
  : list (string * JsValue) :=
  match props with
  | [] => [(k, v)]
  | (k', v') :: rest =>
      if String.eqb k k' then (k, v) :: rest else (k', v') :: assign k v rest
  end.

Fixpoint indexed {A} (i : nat) (l : list A) : list (string * A) :=
  match l with
  | [] => []
  | x :: rest => (string_of_Z (Z.of_nat i), x) :: indexed (S i) rest
  end.

Fixpoint code_units (s : string) : list JsValue :=
  match s with
  | EmptyString => []
  | String c s' => Str (String c EmptyString) :: code_units s'
  end.

(** The own enumerable properties [{...v}] copies. *)
Definition spread (v : JsValue) : list (string * JsValue) :=
  match v with
  | Object props => props
  | Array items => indexed 0 items
  | Str s => indexed 0 (code_units s)
  | _ => []
  end.

(** ** The [Date] constructor of one argument *)

(** A finite number cut to an integer, as [TimeClip] does. *)
Definition truncate (f : float) : option Z :=
  match Prim2SF f with
  | S754_zero _ => Some 0%Z
  | S754_finite sign m e =>
      let magnitude :=
        if (0 <=? e)%Z then (Z.pos m * 2 ^ e)%Z else (Z.pos m / 2 ^ (- e))%Z in
      Some (if sign then (- magnitude)%Z else magnitude)
  | _ => None
  end.

(** [new Date(v)].  What an engine makes of a text that [toISOString] does not
    write, and of an array or an object, is left to [other]. *)
Definition new_Date (other : JsValue -> JsDate.t) (v : JsValue) : JsDate.t :=
  match v with
  | Undefined => JsDate.Invalid
  | Null => JsDate.Instant 0
  | Bool b => JsDate.Instant (if b then 1 else 0)
  | Number f =>
      match truncate f with
      | Some ms => JsDate.TimeClip ms
      | None => JsDate.Invalid
      end
  | Str s => JsDate.parse (fun s => other (Str s)) s
  | DateObject d => d
  | Array _ | Object _ => other v
  end.

End Json.

(* ===================================================================== *)
(** * src/lib/api.ts *)
(* ===================================================================== *)

Module Api.
Import Js Json.

(** ** Interfaces *)

Module Confidence.
Inductive t := HIGH | MEDIUM | LOW.
Definition text (c : t) : string :=
  match c with HIGH => "HIGH" | MEDIUM => "MEDIUM" | LOW => "LOW" end.
End Confidence.

Module Sender.
Inductive t := user | assistant | system.
Definition text (s : t) : string :=
  match s with user => "user" | assistant => "assistant" | system => "system" end.
End Sender.

(** An optional property: present when the field is set. *)
Definition optional {A} (k : string) (f : A -> JsValue) (o : option A)
  : list (string * JsValue) :=
  match o with Some a => [(k, f a)] | None => [] end.

Module BackendProduct.
Record t := {
  id : string;
  title : string;
  price : string;
  type : string;
  brand : option string;
  features : option string;
  image : option string;
  rating : option float;
  availability : option bool
}.

(** The object a product is at run time. *)
Definition to_js (p : t) : JsValue :=
  Object ([("id", Str (id p)); ("title", Str (title p));
           ("price", Str (price p)); ("type", Str (type p))]
          ++ optional "brand" Str (brand p)
          ++ optional "features" Str (features p)
          ++ optional "image" Str (image p)
          ++ optional "rating" Number (rating p)
          ++ optional "availability" Bool (availability p))%list.
End BackendProduct.

Module Message.
Record t := {
  id : string;
  text : string;
  sender : Sender.t;
  timestamp : JsDate.t;
  confidence : option Confidence.t;
  responseTime : option float;
  suggestions : option (list string);
  isError : option bool;
  products : option (list BackendProduct.t)
}.

(** The object a message is at run time: the properties that are set, in
    the order of the interface. *)
Definition to_js (m : t) : JsValue :=
  Object ([("id", Str (id m)); ("text", Str (text m));
           ("sender", Str (Sender.text (sender m)));
           ("timestamp", DateObject (timestamp m))]
          ++ optional "confidence" (fun c => Str (Confidence.text c)) (confidence m)
          ++ optional "responseTime" Number (responseTime m)
          ++ optional "suggestions" (fun l => Array (map Str l)) (suggestions m)
          ++ optional "isError" Bool (isError m)
          ++ optional "products" (fun l => Array (map BackendProduct.to_js l))
               (products m))%list.
End Message.

(** ** What JSON keeps

    A number that JSON writes as itself: finite and not negative zero, which
    JSON writes as [0]. *)
Definition exact (f : float) : bool :=
  match PrimFloat.classify f with
  | FloatClass.NaN | PInf | NInf | NZero => false
  | _ => true
  end.

Definition storable_product (p : BackendProduct.t) : bool :=
  match BackendProduct.rating p with Some f => exact f | None => true end.

(** A message that JSON keeps: its timestamp is a valid date, and its
    numbers, the response time and the ratings of its products, are finite
    and not negative zero. *)
Definition storable (m : Message.t) : bool :=
  match Message.timestamp m with
  | JsDate.Instant ms => JsDate.in_range ms
  | JsDate.Invalid => false
  end
  && match Message.responseTime m with Some f => exact f | None => true end
  && match Message.products m with
     | Some l => forallb storable_product l
     | None => true
     end.

(** ** The browser, as the class sees it

    [window] tells whether the code runs in a browser.  Of [localStorage] the
    class touches two keys: [SESSION_KEY], whose text it reads as it is, and
    [CHAT_HISTORY_KEY], whose text it only hands to [JSON.parse]; the second
    item is therefore kept as what [JSON.parse] makes of it, [None] for a text
    it rejects. *)

Definition SESSION_KEY : string := "alkosto-session-id".
Definition CHAT_HISTORY_KEY : string := "alkosto-chat-history".

Inductive StorageAccess :=
| ReadWrite        (** every operation succeeds *)
| QuotaExceeded    (** [setItem] throws, reading and removing work *)
| Blocked.         (** every access to [localStorage] throws *)

Record Browser := {
  window : bool;
  storage : StorageAccess;
  sessionItem : option string;
  historyItem : option (option json)
}.

(** What a call draws from the clock and from [Math.random]: [Date.now()],
    and the characters [Math.random().toString(36).substr(2, 9)]. *)
Record Entropy := {
  now : Z;
  random : string
}.

Definition with_session (b : Browser) (sessionId : string) : Browser :=
  {| window := window b; storage := storage b;
     sessionItem := Some sessionId; historyItem := historyItem b |}.

Definition with_history (b : Browser) (item : option (option json)) : Browser :=
  {| window := window b; storage := storage b;
     sessionItem := sessionItem b; historyItem := item |}.

Definition truthy_string (s : string) : bool := negb (String.eqb s EmptyString).

(** [l.slice(-n)]. *)
Definition slice_last {A} (n : nat) (l : list A) : list A :=
  skipn (List.length l - n) l.

(** ** getSessionId *)

Definition new_session_id (e : Entropy) : string :=
  "session_" ++ string_of_Z (now e) ++ "_" ++ random e.

Definition getSessionId (e : Entropy) (b : Browser) : string * Browser :=
  if negb (window b) then ("server-session", b)
  else
    let temporary := ("temp_" ++ string_of_Z (now e), b) in
    let create :=
      match storage b with
      | ReadWrite => (new_session_id e, with_session b (new_session_id e))
      | _ => temporary
      end in
    match storage b with
    | Blocked => temporary
    | _ =>
        match sessionItem b with
        | Some existing => if truthy_string existing then (existing, b) else create
        | None => create
        end
    end.

(** ** saveChatHistory *)

Definition history_record (sessionId : string) (messages : list Message.t)
    (e : Entropy) : JsValue :=
  Object [("sessionId", Str sessionId);
          ("messages", Array (map Message.to_js (slice_last 50 messages)));
          ("lastUpdated", Str (JsDate.toISOString (now e)))].

Definition saveChatHistory (e : Entropy) (messages : list Message.t)
    (b : Browser) : Browser :=
  if negb (window b) then b
  else
    let '(sessionId, b1) := getSessionId e b in
    match storage b1 with
    | ReadWrite =>
        with_history b1 (Some (stringify (history_record sessionId messages e)))
    | _ => b1
    end.

(** ** loadChatHistory *)

(** [{...msg, timestamp: new Date(msg.timestamp)}]; [None] when reading the
    property throws. *)
Definition revive (other : JsValue -> JsDate.t) (msg : JsValue) : option JsValue :=
  match get msg "timestamp" with
  | Some stamp =>
      Some (Object (assign "timestamp" (DateObject (new_Date other stamp)) (spread msg)))
  | None => None
  end.

(** [items.map(f)] for an [f] that may throw. *)
Fixpoint map_throwing {A B} (f : A -> option B) (items : list A) : option (list B) :=
  match items with
  | [] => Some []
  | x :: rest =>
      match f x with
      | Some y =>
          match map_throwing f rest with
          | Some ys => Some (y :: ys)
          | None => None
          end
      | None => None
      end
  end.

Definition is_string (v : JsValue) (s : string) : bool :=
  match v with Str s' => String.eqb s' s | _ => false end.

Definition loadChatHistory (other : JsValue -> JsDate.t) (e : Entropy)
    (b : Browser) : list JsValue * Browser :=
  if negb (window b) then ([], b)
  else
    match storage b with
    | Blocked => ([], b)
    | _ =>
        match historyItem b with
        | Some (Some stored) =>
            let history := parse stored in
            match get history "sessionId" with
            | Some storedId =>
                let '(sessionId, b1) := getSessionId e b in
                if is_string storedId sessionId then
                  match get history "messages" with
                  | Some (Array items) =>
                      match map_throwing (revive other) items with
                      | Some messages => (messages, b1)
                      | None => ([], b1)
                      end
                  | _ => ([], b1)
                  end
                else ([], b1)
            | None => ([], b)
            end
        | _ => ([], b)
        end
    end.

(** ** resetSession *)

Definition resetSession (e : Entropy) (b : Browser) : Browser :=
  if negb (window b) then b
  else
    match storage b with
    | ReadWrite => with_history (with_session b (new_session_id e)) None
    | _ => b
    end.

End Api.

(* ===================================================================== *)
(** * src/lib/chatService.ts *)
(* ===================================================================== *)

Module ChatService.
Import Js.

(** ** Interfaces *)

Record ChatServiceConfig := {
  baseUrl : string;
  timeout : N;
  retries : nat
}.

Module ErrorType.
Inductive t := network | server | rate_limit | validation | unknown.
End ErrorType.

Record ErrorContext := {
  type : ErrorType.t;
  statusCode : option number;
  retryable : bool;
  userMessage : string;
  technicalMessage : string
}.

Record BackendResponse := {
  message : string;
  confidence : Api.Confidence.t;
  responseTime : number;
  products : option (list Api.BackendProduct.t);
  suggestions : option (list string);
  success : bool;
  agentType : string;
  phase : option string;
  sessionId : option string;
  error : option ErrorContext
}.

(** ** What an attempt can meet *)

(** A thrown value that [analyzeError] can read: an [Error] with its name
    and message, which prints itself as [Error.prototype.toString] does; or a
    value that is not an [Error], which is [null] or [undefined] ([None]) or
    a value whose [toString()] returns a text ([Some]).  [fetch] and
    [response.json()] reject with instances of [Error] only ([TypeError],
    [SyntaxError], the [AbortError] of the controller).  A value that is
    neither nullish nor has a [toString] that returns, for which
    [error?.toString()] would itself throw, is not a value of this type: the
    model does not cover a transport that rejects with one. *)
Inductive Thrown :=
| ErrorObject (name message : string)
| OtherValue (text : option string).

(** The body of a response: [response.json()] rejects, or yields a value that
    has a string [message] ([Some]) or has none ([None]). *)
Inductive Body :=
| NotJson (e : Thrown)
| Json (data : option BackendResponse).

(** What [fetch] does in one attempt.  An attempt that outlasts the timeout
    is one whose [fetch] rejects with the abort error of the engine. *)
Inductive FetchOutcome :=
| Rejected (e : Thrown)
| Responded (status : Z) (statusText : string) (body : Body).

Inductive Result (A : Type) :=
| Return (a : A)
| Throw (e : Thrown).
Arguments Return {A} a.
Arguments Throw {A} e.

(** [response.ok]. *)
Definition ok (status : Z) : bool := ((200 <=? status) && (status <=? 299))%Z.

(** ** makeRequest *)

Definition makeRequest (outcome : FetchOutcome) : Result BackendResponse :=
  match outcome with
  | Rejected e => Throw e
  | Responded status statusText body =>
      if negb (ok status)
      then Throw (ErrorObject "Error"
                    ("HTTP_" ++ string_of_Z status ++ ": " ++ statusText))
      else match body with
           | NotJson e => Throw e
           | Json None =>
               Throw (ErrorObject "Error" "INVALID_RESPONSE: Missing required fields")
           | Json (Some data) => Return data
           end
  end.

(** ** analyzeError *)

(** [String(n)] for a status code. *)
Definition string_of_number (n : number) : string :=
  match n with
  | Int z => string_of_Z z
  | NaN => "NaN"
  | Infinity => "Infinity"
  | NegInfinity => "-Infinity"
  end.

(** [error?.toString()]: [undefined] for [null] and [undefined]. *)
Definition toString (error : Thrown) : option string :=
  match error with
  | ErrorObject name message =>
      Some (if String.eqb name EmptyString then message
            else if String.eqb message EmptyString then name
            else name ++ ": " ++ message)
  | OtherValue text => text
  end.

Definition analyzeError (error : Thrown) : ErrorContext :=
  let unknown_error :=
    {| type := ErrorType.unknown;
       statusCode := None;
       retryable := false;
       userMessage := "❓ Error inesperado. Intenta reformular tu pregunta.";
       technicalMessage :=
         match toString error with
         | Some text => if String.eqb text EmptyString then "Unknown error" else text
         | None => "Unknown error"
         end |} in
  match error with
  | ErrorObject _ message =>
      if includes message "fetch" || includes message "NetworkError" then
        {| type := ErrorType.network;
           statusCode := None;
           retryable := true;
           userMessage := "🌐 Sin conexión a internet. Verifica tu red y reintenta.";
           technicalMessage := message |}
      else if includes message "HTTP_" then
        let statusCode :=
          match nth_error (split message "HTTP_") 1 with
          | Some piece => parseInt piece
          | None => NaN
          end in
        if strict_eq statusCode (Int 429) then
          {| type := ErrorType.rate_limit;
             statusCode := Some statusCode;
             retryable := true;
             userMessage := "⏰ Demasiadas consultas. Espera un momento antes de continuar.";
             technicalMessage := message |}
        else if geb statusCode (Int 500) then
          {| type := ErrorType.server;
             statusCode := Some statusCode;
             retryable := true;
             userMessage := "🔧 Problema temporal en nuestros servidores. Reintentando...";
             technicalMessage := message |}
        else if strict_eq statusCode (Int 400) then
          {| type := ErrorType.validation;
             statusCode := Some statusCode;
             retryable := false;
             userMessage := "📝 Mensaje no válido. Intenta reformular tu pregunta.";
             technicalMessage := message |}
        else if strict_eq statusCode (Int 404) then
          {| type := ErrorType.server;
             statusCode := Some statusCode;
             retryable := false;
             userMessage := "🔍 Servicio no disponible. Contacta al soporte técnico.";
             technicalMessage := message |}
        else
          {| type := ErrorType.server;
             statusCode := Some statusCode;
             retryable := geb statusCode (Int 500);
             userMessage :=
               "❌ Error del servidor (" ++ string_of_number statusCode
               ++ "). Intenta de nuevo.";
             technicalMessage := message |}
      else if includes message "aborted" || includes message "timeout" then
        {| type := ErrorType.network;
           statusCode := None;
           retryable := true;
           userMessage :=
             "⏱️ La consulta tardó demasiado. Reintentando con una conexión más rápida...";
           technicalMessage := message |}
      else if includes message "INVALID_RESPONSE" then
        {| type := ErrorType.validation;
           statusCode := None;
           retryable := false;
           userMessage :=
             "🔄 Respuesta del servidor inválida. El equipo técnico fue notificado.";
           technicalMessage := message |}
      else unknown_error
  | OtherValue _ => unknown_error
  end.

Definition getErrorSuggestions (errorContext : ErrorContext) : list string :=
  match type errorContext with
  | ErrorType.network =>
      ["Verificar conexión a internet"; "Intentar de nuevo";
       "Contactar soporte si persiste"]
  | ErrorType.rate_limit =>
      ["Esperar 30 segundos"; "Reformular la pregunta";
       "Intentar una consulta más específica"]
  | ErrorType.server =>
      ["Reintentar en unos segundos"; "Simplificar la consulta";
       "Reportar el problema"]
  | ErrorType.validation =>
      ["Reformular la pregunta"; "Ser más específico";
       "Intentar con otras palabras"]
  | ErrorType.unknown =>
      ["Intentar de nuevo"; "Reformular la consulta"; "Contactar soporte"]
  end.

(** ** The service at work

    The transport is a script: what the attempt of each index meets, how long
    the attempt takes, and how much longer than [delay] guarantees the timer
    set after it takes to fire.  A run keeps the retry counter of the
    instance, the number of attempts made so far, the clock, and a log,
    newest first. *)

Record Attempt := {
  outcome : FetchOutcome;
  latency : N;
  oversleep : N
}.

Inductive Event :=
| Attempted (startedAt : N)
| Waited (requested : N).

Record Run := {
  retryCount : nat;
  attempts : nat;
  clock : N;
  log : list Event
}.

(** [makeRequest] has settled: one more attempt made, the clock advanced. *)
Definition attempted (a : Attempt) (r : Run) : Run :=
  {| retryCount := retryCount r;
     attempts := S (attempts r);
     clock := clock r + latency a;
     log := Attempted (clock r) :: log r |}.

(** [this.retryCount = 0]. *)
Definition reset (r : Run) : Run :=
  {| retryCount := 0; attempts := attempts r; clock := clock r; log := log r |}.

(** [Math.pow(2, this.retryCount) * 1000], the delay requested before the
    retry that brings the counter to [retryCount]. *)
Definition backoff_delay (retryCount : nat) : N := 2 ^ N.of_nat retryCount * 1000.

(** The longest delay a timer waits: 2^31 - 1 milliseconds. *)
Definition TIMEOUT_MAX : N := 2147483647.

(** [delay(ms)], which is [setTimeout(resolve, ms)]: the time that passes for
    certain before the promise resolves.  A timer keeps its delay as a signed
    32-bit integer.  A delay within that range is waited in full.  A larger
    one is not: Node sets it to 1 ms, a browser reads it modulo 2^32 as a
    signed integer and takes a negative one as 0; whatever is waited then is
    part of [oversleep]. *)
Definition delay (ms : N) : N := if (ms <=? TIMEOUT_MAX)%N then ms else 0.

(** [this.retryCount++] and [await this.delay(Math.pow(2, this.retryCount) * 1000)]. *)
Definition backed_off (a : Attempt) (r : Run) : Run :=
  {| retryCount := S (retryCount r);
     attempts := attempts r;
     clock := clock r + delay (backoff_delay (S (retryCount r))) + oversleep a;
     log := Waited (backoff_delay (S (retryCount r))) :: log r |}.

Definition success_response (response : BackendResponse) (elapsed : N)
  : BackendResponse :=
  {| message := message response;
     confidence := confidence response;
     responseTime := Int (Z.of_N elapsed);
     products := products response;
     suggestions := suggestions response;
     success := true;
     agentType := agentType response;
     phase := phase response;
     sessionId := sessionId response;
     error := error response |}.

Definition error_response (errorContext : ErrorContext) (elapsed : N)
  : BackendResponse :=
  {| message := userMessage errorContext;
     confidence := Api.Confidence.LOW;
     responseTime := Int (Z.of_N elapsed);
     products := Some [];
     suggestions := Some (getErrorSuggestions errorContext);
     success := false;
     agentType := "ErrorHandler";
     phase := None;
     sessionId := None;
     error := Some errorContext |}.

(** A value together with the fact that it is that value, to keep the
    outcome of a test at hand in the branch it selects. *)
Definition inspect {A} (x : A) : {y : A | x = y} := exist _ x eq_refl.

(** ** sendMessage

    The method calls itself after a backoff; every such call has raised the
    retry counter, which stays below the configured maximum. *)
Equations? sendMessage (config : ChatServiceConfig) (script : nat -> Attempt)
    (r : Run) : BackendResponse * Run
    by wf (retries config - retryCount r) lt :=
  sendMessage config script r
    with makeRequest (outcome (script (attempts r))) := {
    | Return response =>
        let r1 := attempted (script (attempts r)) r in
        (success_response response (clock r1 - clock r), reset r1);
    | Throw e
        with inspect (retryable (analyzeError e)
                      && (retryCount r <? retries config)%nat) := {
        | exist _ true _ =>
            sendMessage config script
              (backed_off (script (attempts r)) (attempted (script (attempts r)) r));
        | exist _ false _ =>
            let r1 := attempted (script (attempts r)) r in
            (error_response (analyzeError e) (clock r1 - clock r), r1) } }.
Proof.
  match goal with
  | H : _ && _ = true |- _ =>
      apply andb_true_iff in H as [_ H]; apply Nat.ltb_lt in H
  end.
  simpl. lia.
Qed.

(** Several calls in a row on the same instance: for each call its response
    and the number of attempts it made. *)
Fixpoint sendMessages (config : ChatServiceConfig) (script : nat -> Attempt)
    (calls : nat) (r : Run) : list (BackendResponse * nat) * Run :=
  match calls with
  | O => ([], r)
  | S calls' =>
      let '(response, r1) := sendMessage config script r in
      let '(rest, r2) := sendMessages config script calls' r1 in
      ((response, attempts r1 - attempts r) :: rest, r2)
  end.

(** ** Reading a run *)

(** The delays requested so far, oldest first. *)
Fixpoint waits (events : list Event) : list N :=
  match events with
  | [] => []
  | Waited requested :: earlier => (waits earlier ++ [requested])%list
  | Attempted _ :: earlier => waits earlier
  end.

Definition total (delays : list N) : N := fold_right N.add 0%N delays.

(** The run after [n] rounds of a failed attempt and the backoff that
    follows it. *)
Fixpoint retried (script : nat -> Attempt) (n : nat) (r : Run) : Run :=
  match n with
  | O => r
  | S n' =>
      retried script n'
        (backed_off (script (attempts r)) (attempted (script (attempts r)) r))
  end.

End ChatService.

(* ===================================================================== *)
(** * src/lib/chatService.ts and src/lib/api.ts: the health probes *)
(* ===================================================================== *)

Module Health.
Import Js ChatService.

(** What the request to [/health] meets: [fetch] rejects, or a response
    arrives with its status; and the time it took, which both probes measure
    with [Date.now()] around the request. *)
Inductive Probe :=
| Failed (e : Thrown)
| Answered (status : Z).

Module Status.
Inductive t := online | degraded | offline | slow.
End Status.

Record DetailedStatus := {
  status : Status.t;
  responseTime : N;
  lastError : option string
}.

(** [ChatService.getDetailedStatus]. *)
Definition getDetailedStatus (probe : Probe) (elapsed : N) : DetailedStatus :=
  match probe with
  | Answered code =>
      if ok code then
        {| status := if (3000 <? elapsed)%N then Status.degraded else Status.online;
           responseTime := elapsed;
           lastError := None |}
      else
        {| status := Status.degraded;
           responseTime := elapsed;
           lastError := Some ("HTTP " ++ string_of_Z code) |}
  | Failed e =>
      {| status := Status.offline;
         responseTime := elapsed;
         lastError :=
           Some (match e with
                 | ErrorObject _ message => message
                 | OtherValue _ => "Unknown error"
                 end) |}
  end.

(** [AlkostoAPI.healthCheck]. *)
Definition healthCheck (probe : Probe) : bool :=
  match probe with
  | Answered code => ok code
  | Failed _ => false
  end.

(** [AlkostoAPI.getConnectionStatus]. *)
Definition getConnectionStatus (probe : Probe) (elapsed : N) : Status.t :=
  let isHealthy := healthCheck probe in
  if negb isHealthy then Status.offline
  else if (3000 <? elapsed)%N then Status.slow
  else Status.online.

End Health.

(* ===================================================================== *)
(** * src/lib/api.ts: the request without retries *)
(* ===================================================================== *)

Module AlkostoAPI.
Import Js Api.

(** The answer of the server as [sendMessage] reads it.  The properties are
    given the types the code expects of them; [criticalMissing] is
    [criteria_analysis?.criticalMissing].  The texts of [mode] are compared
    as wholes only, and spelled in UTF-8. *)
Record AgentResponse := {
  response : string;
  processing_time : option number;
  products : option (list BackendProduct.t);
  search_readiness : option string;
  category_analysis : option string;
  criticalMissing : option (list string)
}.

Record ChatData := {
  agent : AgentResponse;
  mode : option string;
  responseTime : option number;
  sessionId : option string
}.

(** The body of a response: [response.json()] rejects, or yields a value
    that passes the test of its shape ([Some]) or fails it ([None]). *)
Inductive Body :=
| NotJson (e : ChatService.Thrown)
| Json (data : option ChatData).

Inductive FetchOutcome :=
| Rejected (e : ChatService.Thrown)
| Responded (status : Z) (statusText : string) (body : Body).

(** [a || b] on optional values with a test of truthiness. *)
Definition or_else {A} (truthy : A -> bool) (a b : option A) : option A :=
  match a with
  | Some x => if truthy x then a else b
  | None => b
  end.

(** [o === text] for an optional string. *)
Definition is_text (o : option string) (text : string) : bool :=
  match o with Some s => String.eqb s text | None => false end.

Definition extractSuggestions (agentResponse : AgentResponse) : list string :=
  let suggestions :=
    ((if is_text (search_readiness agentResponse) "insufficient" then
        ["Proporciona más detalles sobre el producto"; "Especifica tu presupuesto"]
      else if is_text (search_readiness agentResponse) "viable" then
        ["¿Necesitas más información sobre algún producto?";
         "¿Quieres ver productos similares?"]
      else []) ++
     (match criticalMissing agentResponse with
      | Some (missing :: _) => [("¿Podrías especificar el " ++ missing ++ "?")%string]
      | _ => []
      end))%list in
  firstn 3 suggestions.

Definition getErrorMessage (error : ChatService.Thrown) : string :=
  let unexpected :=
    "❌ Ocurrió un error inesperado. Intenta de nuevo en unos segundos." in
  match error with
  | ChatService.ErrorObject _ message =>
      if includes message "fetch" then
        "❌ No puedo conectarme al servidor. Verifica tu conexión a internet."
      else if includes message "HTTP 500" then
        "❌ Error en el servidor. Nuestro equipo está trabajando para solucionarlo."
      else if includes message "HTTP 429" then
        "❌ Demasiadas consultas. Espera un momento antes de intentar de nuevo."
      else if includes message "Invalid response format" then
        "❌ Respuesta del servidor inválida. Intenta de nuevo."
      else unexpected
  | ChatService.OtherValue _ => unexpected
  end.

(** What the [try] block of [sendMessage] comes to: the payload, or the
    value thrown. *)
Definition request (outcome : FetchOutcome) : ChatService.Result ChatData :=
  match outcome with
  | Rejected e => ChatService.Throw e
  | Responded status statusText body =>
      if negb (ChatService.ok status)
      then ChatService.Throw
             (ChatService.ErrorObject "Error"
                ("HTTP " ++ string_of_Z status ++ ": " ++ statusText))
      else match body with
           | NotJson e => ChatService.Throw e
           | Json None =>
               ChatService.Throw
                 (ChatService.ErrorObject "Error" "Invalid response format from server")
           | Json (Some data) => ChatService.Return data
           end
  end.

(** [sendMessage]: the session id is read before the request, and once more
    when the request failed. *)
Definition sendMessage (before after : Entropy) (outcome : FetchOutcome)
    (b : Browser) : ChatService.BackendResponse * Browser :=
  let '(current, b1) := getSessionId before b in
  match request outcome with
  | ChatService.Return data =>
      let agentResponse := agent data in
      ({| ChatService.message := response agentResponse;
          ChatService.confidence :=
            if is_text (mode data) "🤖 AI Agent" then Confidence.HIGH
            else Confidence.MEDIUM;
          ChatService.responseTime :=
            match or_else truthy (or_else truthy (responseTime data)
                                    (processing_time agentResponse))
                    (Some (Int 0)) with
            | Some n => n
            | None => Int 0
            end;
          ChatService.products :=
            Some (match products agentResponse with Some l => l | None => [] end);
          ChatService.suggestions := Some (extractSuggestions agentResponse);
          ChatService.success := true;
          ChatService.agentType :=
            match or_else truthy_string (mode data) (Some "GraduatedSearchAgent") with
            | Some text => text
            | None => "GraduatedSearchAgent"
            end;
          ChatService.phase :=
            or_else truthy_string (search_readiness agentResponse)
              (category_analysis agentResponse);
          ChatService.sessionId :=
            or_else truthy_string (sessionId data) (Some current);
          ChatService.error := None |}, b1)
  | ChatService.Throw e =>
      let '(again, b2) := getSessionId after b1 in
      ({| ChatService.message := getErrorMessage e;
          ChatService.confidence := Confidence.LOW;
          ChatService.responseTime := Int 0;
          ChatService.products := Some [];
          ChatService.suggestions :=
            Some ["Intenta preguntarme de nuevo"; "Revisa tu conexión a internet"];
          ChatService.success := false;
          ChatService.agentType := "ErrorHandler";
          ChatService.phase := None;
          ChatService.sessionId := Some again;
          ChatService.error := None |}, b2)
  end.

End AlkostoAPI.

(* ===================================================================== *)
(** * src/lib/messageProtocol.ts: the history of the service *)
(* ===================================================================== *)

Module MessageProtocolService.
Import Js MessageProtocol.

Module Role.
Inductive t := user | assistant | system | function.
End Role.

Record Metadata := {
  sessionId : string;
  messageId : string;
  context : option ConversationContext;
  intent : option UserIntent;
  confidence : option float
}.

Record StructuredMessage := {
  role : Role.t;
  content : string;
  timestamp : string;
  metadata : option Metadata
}.

(** The two fields of the instance. *)
Record Service := {
  conversationHistory : list StructuredMessage;
  currentContext : ConversationContext
}.

(** The instance the constructor makes. *)
Definition new : Service :=
  {| conversationHistory := [];
     currentContext :=
       {| userProfile := None;
          currentSearch := None;
          conversationState :=
            {| turnCount := Int 0;
               lastAgentAction := AgentAction.search;
               userSatisfaction := None;
               progressTowards := Progress.research |};
          productsContext := None |} |}.

(** [createStructuredMessage]: the message, and the instance with the
    context the call produced. *)
Definition createStructuredMessage (e : Api.Entropy) (userInput sessionId : string)
    (previousContext : option ConversationContext) (service : Service)
  : StructuredMessage * Service :=
  let intent := analyzeUserIntent userInput in
  let context := updateConversationContext userInput intent previousContext in
  ({| role := Role.user;
      content := userInput;
      timestamp := JsDate.toISOString (Api.now e);
      metadata :=
        Some {| sessionId := sessionId;
                messageId := "msg_" ++ string_of_Z (Api.now e) ++ "_" ++ Api.random e;
                context := Some context;
                intent := Some intent;
                confidence := Some (MessageProtocol.confidence intent) |} |},
   {| conversationHistory := conversationHistory service;
      currentContext := context |}).

Definition addToHistory (message : StructuredMessage) (service : Service) : Service :=
  let history := (conversationHistory service ++ [message])%list in
  {| conversationHistory :=
       if (20 <? List.length history)%nat then Api.slice_last 20 history else history;
     currentContext := currentContext service |}.

Definition getCurrentContext (service : Service) : ConversationContext :=
  currentContext service.

(** What [formatForLLMAPI] returns, as far as this development reads it:
    the [messages], and the [agentInstructions] of the [requestMetadata]. *)
Module Request.
Record t := {
  messages : list (Role.t * string);
  agentInstructions : list string
}.
End Request.

(** [formatForLLMAPI], which returns or throws ([None]).  The context and
    the intent are read from the metadata of the message with [?.], and
    then used as if they were there: [buildSystemPrompt] destructures the
    context and [generateAgentInstructions] reads [intent.primary], so a
    message without metadata, without a context or without an intent makes
    the call throw a [TypeError].  [buildSystemPrompt] fills a template from
    properties that every context has, and returns for every context; the
    text it builds is not read here and is left as a function of the
    context. *)
Definition formatForLLMAPI (buildSystemPrompt : ConversationContext -> string)
    (userMessage : StructuredMessage) (service : Service) : option Request.t :=
  let context := match metadata userMessage with Some m => context m | None => None end in
  let intent := match metadata userMessage with Some m => intent m | None => None end in
  match context with
  | None => None
  | Some context =>
      let messages :=
        ((Role.system, buildSystemPrompt context)
         :: map (fun msg => (role msg, content msg))
              (Api.slice_last 10 (conversationHistory service))
         ++ [(Role.user, content userMessage)])%list in
      match intent with
      | None => None
      | Some intent =>
          Some {| Request.messages := messages;
                  Request.agentInstructions :=
                    generateAgentInstructions context intent |}
      end
  end.

End MessageProtocolService.

(* ===================================================================== *)
(** * Regular expressions, as far as the code uses them *)
(* ===================================================================== *)

(** The matching of ECMAScript patterns by backtracking: a matcher is given
    a state and a continuation, and succeeds when the continuation does.
    The patterns of this code are made of sets of code units, sequences,
    quantifiers (greedy or lazy) and capturing groups, without flags other
    than [g]. *)
Module RegExp.
Import Js.

Inductive regex :=
| Empty
| CharSet (set : ascii -> bool)
| Seq (r1 r2 : regex)
| Alt (r1 r2 : regex)
| Repeat (r : regex) (min : nat) (max : option nat) (greedy : bool)
| Group (index : nat) (r : regex).

(** A match in progress: the position reached, the text from there on, and
    the captures so far ([captures[i]] is the entry [i - 1] of the list). *)
Record MatchState := {
  endIndex : nat;
  rest : string;
  captures : list (option string)
}.

Definition Continuation := MatchState -> option MatchState.
Definition Matcher := MatchState -> Continuation -> option MatchState.

Fixpoint update {A} (n : nat) (v : A) (l : list A) : list A :=
  match l, n with
  | [], _ => []
  | _ :: t, O => v :: t
  | h :: t, S n' => h :: update n' v t
  end.

Definition with_capture (index : nat) (v : option string) (x : MatchState)
  : MatchState :=
  {| endIndex := endIndex x; rest := rest x;
     captures := update (index - 1) v (captures x) |}.

(** The indices of the groups inside a pattern. *)
Fixpoint parens (r : regex) : list nat :=
  match r with
  | Empty | CharSet _ => []
  | Seq r1 r2 | Alt r1 r2 => (parens r1 ++ parens r2)%list
  | Repeat r1 _ _ _ => parens r1
  | Group index r1 => index :: parens r1
  end.

(** The captures of the groups inside a quantified atom are cleared at every
    round. *)
Definition clear (indices : list nat) (x : MatchState) : MatchState :=
  fold_right (fun index y => with_capture index None y) x indices.

(** The first [n] code units. *)
Fixpoint take (n : nat) (s : string) : string :=
  match n, s with
  | S n', String c s' => String c (take n' s')
  | _, _ => EmptyString
  end.

(** [RepeatMatcher]: a round that matches the empty text is refused once the
    minimum is reached, so every round then consumes something, and [fuel]
    above the minimum plus the length of the text is never used up. *)
Fixpoint RepeatMatcher (fuel : nat) (m : Matcher) (indices : list nat)
    (min : nat) (max : option nat) (greedy : bool) : Matcher :=
  fun x c =>
  match fuel with
  | O => None
  | S fuel' =>
      if match max with Some O => true | _ => false end then c x
      else
        let d := fun y =>
          if Nat.eqb min 0 && Nat.eqb (endIndex y) (endIndex x) then None
          else RepeatMatcher fuel' m indices (Nat.pred min) (option_map Nat.pred max)
                 greedy y c in
        let xr := clear indices x in
        if negb (Nat.eqb min 0) then m xr d
        else if negb greedy then
          match c x with
          | Some z => Some z
          | None => m xr d
          end
        else
          match m xr d with
          | Some z => Some z
          | None => c x
          end
  end.

Fixpoint matcher (r : regex) : Matcher :=
  match r with
  | Empty => fun x c => c x
  | CharSet set => fun x c =>
      match rest x with
      | String ch s' =>
          if set ch
          then c {| endIndex := S (endIndex x); rest := s'; captures := captures x |}
          else None
      | EmptyString => None
      end
  | Seq r1 r2 => fun x c => matcher r1 x (fun y => matcher r2 y c)
  | Alt r1 r2 => fun x c =>
      match matcher r1 x c with
      | Some z => Some z
      | None => matcher r2 x c
      end
  | Repeat r1 min max greedy => fun x c =>
      RepeatMatcher (min + String.length (rest x) + 1) (matcher r1) (parens r1)
        min max greedy x c
  | Group index r1 => fun x c =>
      matcher r1 x
        (fun y => c (with_capture index
                       (Some (take (endIndex y - endIndex x) (rest x))) y))
  end.

(** The pattern tried at one position of the input, with [groups] capturing
    groups. *)
Definition match_at (r : regex) (groups index : nat) (s : string)
  : option MatchState :=
  matcher r {| endIndex := index; rest := s; captures := repeat None groups |} Some.

(** What [exec] returns. *)
Record MatchResult := {
  index : nat;
  matched : string;
  captured : list (option string);
  lastIndex : nat;
  following : string
}.

(** [RegExpBuiltinExec] from the position [index], where the input reads
    [s]: the first position from there at which the pattern matches. *)
Fixpoint exec_from (r : regex) (groups index : nat) (s : string)
  : option MatchResult :=
  match match_at r groups index s with
  | Some y =>
      Some {| index := index;
              matched := take (endIndex y - index) s;
              captured := captures y;
              lastIndex := endIndex y;
              following := rest y |}
  | None =>
      match s with
      | String _ s' => exec_from r groups (S index) s'
      | EmptyString => None
      end
  end.

(** [s.match(r)] for a pattern without the flag [g]. *)
Definition exec (r : regex) (groups : nat) (s : string) : option MatchResult :=
  exec_from r groups 0 s.

(** The rounds of [s.match(r)] for a pattern with the flag [g]: after an
    empty match the search resumes one code unit further. *)
Fixpoint match_all (fuel : nat) (r : regex) (groups index : nat) (s : string)
  : list string :=
  match fuel with
  | O => []
  | S fuel' =>
      match exec_from r groups index s with
      | None => []
      | Some result =>
          matched result
          :: (if Nat.eqb (String.length (matched result)) 0
              then match following result with
                   | String _ s' => match_all fuel' r groups (S (lastIndex result)) s'
                   | EmptyString => []
                   end
              else match_all fuel' r groups (lastIndex result) (following result))
      end
  end.

(** [s.match(r)] with the flag [g]: [null] when there is no match. *)
Definition match_global (r : regex) (groups : nat) (s : string)
  : option (list string) :=
  match match_all (S (S (String.length s))) r groups 0 s with
  | [] => None
  | l => Some l
  end.

(** ** The patterns of the code *)

(** [\d{1,3}] followed by the group [(?:[.,]\d{3})] under a star, all of it
    in the capturing group 1: the price pattern of [analyzeUserIntent]. *)
Definition price_pattern : regex :=
  Group 1
    (Seq (Repeat (CharSet is_digit) 1 (Some 3) true)
         (Repeat (Seq (CharSet MessageProtocol.is_separator)
                      (Repeat (CharSet is_digit) 3 (Some 3) true))
                 0 None true)).

Definition is_dollar (c : ascii) : bool := Ascii.eqb c "$".

(** The class [[\d,]]. *)
Definition is_amount_unit (c : ascii) : bool := is_digit c || Ascii.eqb c ",".

(** The dot: any code unit but a line terminator. *)
Definition is_not_line_terminator (c : ascii) : bool :=
  negb ((code c =? 10)%N || (code c =? 13)%N).

(** An optional dollar sign, the group 1 of digits and commas, as little as
    possible of anything, an optional dollar sign, the group 2 of digits and
    commas: the budget pattern of [chatStore.ts]. *)
Definition budget_pattern : regex :=
  Seq (Repeat (CharSet is_dollar) 0 (Some 1) true)
   (Seq (Group 1 (Repeat (CharSet is_amount_unit) 1 None true))
    (Seq (Repeat (CharSet is_not_line_terminator) 0 None false)
     (Seq (Repeat (CharSet is_dollar) 0 (Some 1) true)
          (Group 2 (Repeat (CharSet is_amount_unit) 1 None true))))).


(** ** What a matcher may do, and the patterns in closed form *)

(** A state of a match on an input of [n] code units. *)
Definition on_input (n : nat) (x : MatchState) : Prop :=
  endIndex x + String.length (rest x) = n.

(** A matcher that calls its continuation on states of the same input, no
    earlier than the one it was given. *)
Definition forward (n : nat) (m : Matcher) : Prop :=
  forall (x : MatchState) (c c' : Continuation),
    on_input n x ->
    (forall y, on_input n y -> endIndex x <= endIndex y -> c y = c' y) ->
    m x c = m x c'.

(** A continuation that cannot fail. *)
Definition unfailing (c : Continuation) : Prop := forall y, c y <> None.

(** One round of a separator and three digits. *)
Definition thousands : regex :=
  Seq (CharSet MessageProtocol.is_separator) (Repeat (CharSet is_digit) 3 (Some 3) true).

(** A greedy star on a set of code units, in closed form: the longest run
    first, then shorter ones, until the continuation succeeds. *)
Fixpoint longest_first (set : ascii -> bool) (c : Continuation) (e : nat) (s : string)
    (caps : list (option string)) : option MatchState :=
  match s with
  | String ch s' =>
      if set ch then
        match longest_first set c (S e) s' caps with
        | Some z => Some z
        | None => c {| endIndex := e; rest := s; captures := caps |}
        end
      else c {| endIndex := e; rest := s; captures := caps |}
  | EmptyString => c {| endIndex := e; rest := s; captures := caps |}
  end.

(** A lazy star on a set of code units, in closed form: the shortest run
    first. *)
Fixpoint shortest_first (set : ascii -> bool) (c : Continuation) (e : nat) (s : string)
    (caps : list (option string)) : option MatchState :=
  match c {| endIndex := e; rest := s; captures := caps |} with
  | Some z => Some z
  | None =>
      match s with
      | String ch s' => if set ch then shortest_first set c (S e) s' caps else None
      | EmptyString => None
      end
  end.

(** The parts of the budget pattern. *)
Definition amount : regex := Repeat (CharSet is_amount_unit) 1 None true.
Definition dollar : regex := Repeat (CharSet is_dollar) 0 (Some 1) true.
Definition anything : regex := Repeat (CharSet is_not_line_terminator) 0 None false.

(** The continuations of the budget pattern, from its end. *)
Definition second_amount (c : Continuation) : Continuation :=
  fun y => matcher dollar y (fun y => matcher (Group 2 amount) y c).

Definition after_first_amount (c : Continuation) : Continuation :=
  fun y => matcher anything y (second_amount c).

(** A matcher that leaves the captures as they are. *)
Definition keeps_captures (m : Matcher) : Prop :=
  forall x c z, m x c = Some z -> exists y, c y = Some z /\ captures y = captures x.

End RegExp.

(* ===================================================================== *)
(** * src/lib/chatStore.ts *)
(* ===================================================================== *)

Module ChatStore.
Import Js Api.

(** ** The helpers that read the answer of the agent *)

Record BudgetRange := {
  min : number;
  max : number
}.

Definition extractCategoryFromResponse (response : ChatService.BackendResponse)
  : option string :=
  if String.eqb (ChatService.agentType response) "GraduatedSearchAgent"
     && match ChatService.phase response with
        | Some text => truthy_string text
        | None => false
        end
  then
    let text := toLowerCase (ChatService.message response) in
    find (fun cat => includes text cat)
      ["televisor"; "celular"; "laptop"; "gaming"; "audio"; "electrodomestico"]
  else None.

(** [p.replace(/,/g, '')]. *)
Fixpoint remove_commas (p : string) : string :=
  match p with
  | EmptyString => EmptyString
  | String c p' =>
      if Ascii.eqb c "," then remove_commas p' else String c (remove_commas p')
  end.

(** The helper reads the groups 1 and 2 of the match; a group that is
    undefined would make [replace] throw. *)
Definition extractBudgetFromResponse (response : ChatService.BackendResponse)
  : ChatService.Result (option BudgetRange) :=
  match RegExp.exec RegExp.budget_pattern 2 (ChatService.message response) with
  | Some budgetMatch =>
      match RegExp.captured budgetMatch with
      | Some low :: Some high :: _ =>
          ChatService.Return
            (Some {| min := parseInt (remove_commas low);
                     max := parseInt (remove_commas high) |})
      | _ => ChatService.Throw (ChatService.ErrorObject "TypeError" "")
      end
  | None => ChatService.Return None
  end.

(** The word with its accented letter, the code unit U+00ED. *)
Definition caracteristica : string :=
  "caracter" ++ String (ascii_of_N 237) "stica".

Definition extractMissingCriteria (response : ChatService.BackendResponse)
  : list string :=
  let text := toLowerCase (ChatService.message response) in
  ((if includes text "presupuesto" || includes text "precio" then ["budget"] else []) ++
   (if includes text "uso" || includes text "utilizar" then ["use_case"] else []) ++
   (if includes text caracteristica || includes text "especifica"
    then ["features"] else []))%list.

(** ** The state *)

Module Connection.
Inductive t := online | offline | slow.
End Connection.

Record SearchContext := {
  lastQuery : string;
  confidence : Confidence.t;
  missingCriteria : list string;
  budgetRange : option BudgetRange;
  category : option string;
  productCount : number
}.

Record CurrentError := {
  type : string;
  message : string;
  retryable : bool
}.

(** The instance of [ChatService] the store holds: its configuration and
    what its calls have made of the retry counter and of the transport. *)
Record Service := {
  config : ChatService.ChatServiceConfig;
  run : ChatService.Run
}.

Record ChatState := {
  messages : list Message.t;
  isTyping : bool;
  connectionStatus : Connection.t;
  sessionId : string;
  products : list BackendProduct.t;
  searchContext : SearchContext;
  showLanding : bool;
  currentError : option CurrentError;
  chatService : option Service
}.

Definition emptySearchContext : SearchContext :=
  {| lastQuery := EmptyString;
     confidence := Confidence.MEDIUM;
     missingCriteria := [];
     budgetRange := None;
     category := None;
     productCount := Int 0 |}.

(** The state the store starts with. *)
Definition initial (e : Entropy) : ChatState :=
  {| messages := [];
     isTyping := false;
     connectionStatus := Connection.online;
     sessionId := new_session_id e;
     products := [];
     searchContext := emptySearchContext;
     showLanding := true;
     currentError := None;
     chatService := None |}.

(** [Date.now()] as the clock of the transport gives it, and a number of
    milliseconds as the double it is (exact below 2^53). *)
Definition now (r : ChatService.Run) : Z := Z.of_N (ChatService.clock r).

Definition milliseconds (n : N) : float :=
  PrimFloat.of_uint63 (Uint63.of_Z (Z.of_N n)).

(** ** The actions *)

(** A new instance of the service: its retry counter is zero. *)
Definition initializeChatService (config : ChatService.ChatServiceConfig)
    (world : ChatService.Run) (state : ChatState) : ChatState :=
  {| messages := messages state;
     isTyping := isTyping state;
     connectionStatus := connectionStatus state;
     sessionId := sessionId state;
     products := products state;
     searchContext := searchContext state;
     showLanding := showLanding state;
     currentError := currentError state;
     chatService := Some {| config := config; run := ChatService.reset world |} |}.

Definition userMessage (messageText : string) (r : ChatService.Run) : Message.t :=
  {| Message.id := "user_" ++ string_of_Z (now r);
     Message.text := messageText;
     Message.sender := Sender.user;
     Message.timestamp := JsDate.Instant (now r);
     Message.confidence := None;
     Message.responseTime := None;
     Message.suggestions := None;
     Message.isError := None;
     Message.products := None |}.

Definition assistantMessage (response : ChatService.BackendResponse)
    (before after : ChatService.Run) : Message.t :=
  {| Message.id := "assistant_" ++ string_of_Z (now after);
     Message.text := ChatService.message response;
     Message.sender := Sender.assistant;
     Message.timestamp := JsDate.Instant (now after);
     Message.confidence := Some (ChatService.confidence response);
     Message.responseTime :=
       Some (milliseconds (ChatService.clock after - ChatService.clock before));
     Message.suggestions := ChatService.suggestions response;
     Message.isError := None;
     Message.products := ChatService.products response |}.

Definition errorMessage (r : ChatService.Run) : Message.t :=
  {| Message.id := "error_" ++ string_of_Z (now r);
     Message.text :=
       "❌ No pude procesar tu mensaje. Verifica tu conexión e intenta de nuevo.";
     Message.sender := Sender.system;
     Message.timestamp := JsDate.Instant (now r);
     Message.confidence := None;
     Message.responseTime := None;
     Message.suggestions := Some ["Reintentar"; "Verificar conexión"];
     Message.isError := Some true;
     Message.products := None |}.

(** [sendMessage]: the message of the user is added, the service is called,
    and its answer is added; the [catch] branch is what follows a throw in
    the [try] block. *)
Definition sendMessage (messageText : string) (script : nat -> ChatService.Attempt)
    (state : ChatState) : ChatState :=
  match chatService state with
  | None => state
  | Some service =>
      let r := run service in
      let listed := (messages state ++ [userMessage messageText r])%list in
      let '(response, r') := ChatService.sendMessage (config service) script r in
      let service' := Some {| config := config service; run := r' |} in
      match extractBudgetFromResponse response with
      | ChatService.Return budget =>
          {| messages := (listed ++ [assistantMessage response r r'])%list;
             isTyping := false;
             connectionStatus := Connection.online;
             sessionId := sessionId state;
             products :=
               match ChatService.products response with Some l => l | None => [] end;
             searchContext :=
               {| lastQuery := messageText;
                  confidence := ChatService.confidence response;
                  missingCriteria := extractMissingCriteria response;
                  budgetRange := budget;
                  category := extractCategoryFromResponse response;
                  productCount :=
                    match ChatService.products response with
                    | Some l => or_else (Int (Z.of_nat (List.length l))) (Int 0)
                    | None => Int 0
                    end |};
             showLanding := false;
             currentError := None;
             chatService := service' |}
      | ChatService.Throw _ =>
          {| messages := (listed ++ [errorMessage r'])%list;
             isTyping := false;
             connectionStatus := Connection.offline;
             sessionId := sessionId state;
             products := [];
             searchContext := searchContext state;
             showLanding := false;
             currentError :=
               Some {| type := "network"; message := "Error de conexión";
                       retryable := true |};
             chatService := service' |}
      end
  end.

(** [retryLastMessage]: the text of the last message of the user, sent
    again. *)
Definition retryLastMessage (script : nat -> ChatService.Attempt) (state : ChatState)
  : ChatState :=
  match find (fun msg => match Message.sender msg with
                         | Sender.user => true
                         | _ => false
                         end) (rev (messages state)) with
  | Some lastUserMessage => sendMessage (Message.text lastUserMessage) script state
  | None => state
  end.

Definition addMessage (message : Message.t) (state : ChatState) : ChatState :=
  {| messages := (messages state ++ [message])%list;
     isTyping := isTyping state;
     connectionStatus := connectionStatus state;
     sessionId := sessionId state;
     products := products state;
     searchContext := searchContext state;
     showLanding := showLanding state;
     currentError := currentError state;
     chatService := chatService state |}.

Definition startNewChat (e : Entropy) (state : ChatState) : ChatState :=
  {| messages := [];
     isTyping := isTyping state;
     connectionStatus := connectionStatus state;
     sessionId := new_session_id e;
     products := [];
     searchContext := emptySearchContext;
     showLanding := true;
     currentError := None;
     chatService := chatService state |}.

(** What the store persists. *)
Definition partialize (state : ChatState) : list Message.t * string * SearchContext :=
  (slice_last 50 (messages state), sessionId state, searchContext state).

End ChatStore.

(* ===================================================================== *)
(** * Sample data *)
(* ===================================================================== *)

Module Samples.
Import Json Api.

Definition question : Message.t :=
  {| Message.id := "user_1700000000000";
     Message.text := "Busco un televisor";
     Message.sender := Sender.user;
     Message.timestamp := JsDate.Instant 1700000000000;
     Message.confidence := None;
     Message.responseTime := None;
     Message.suggestions := None;
     Message.isError := None;
     Message.products := None |}.

Definition television : BackendProduct.t :=
  {| BackendProduct.id := "tv-55";
     BackendProduct.title := "Televisor 55 pulgadas";
     BackendProduct.price := "1.899.900";
     BackendProduct.type := "televisor";
     BackendProduct.brand := Some "samsung";
     BackendProduct.features := None;
     BackendProduct.image := None;
     BackendProduct.rating := Some 4.5%float;
     BackendProduct.availability := Some true |}.

Definition answer : Message.t :=
  {| Message.id := "assistant_1700000001250";
     Message.text := "Tengo una opcion";
     Message.sender := Sender.assistant;
     Message.timestamp := JsDate.Instant 1700000001250;
     Message.confidence := Some Confidence.HIGH;
     Message.responseTime := Some 1250%float;
     Message.suggestions := Some ["Ver similares"];
     Message.isError := None;
     Message.products := Some [television] |}.

(** A message whose timestamp is the invalid date. *)
Definition undated : Message.t :=
  {| Message.id := "user_0";
     Message.text := "hola";
     Message.sender := Sender.user;
     Message.timestamp := JsDate.Invalid;
     Message.confidence := None;
     Message.responseTime := None;
     Message.suggestions := None;
     Message.isError := None;
     Message.products := None |}.

(** A message whose response time is negative zero. *)
Definition instant : Message.t :=
  {| Message.id := "assistant_2";
     Message.text := "hola";
     Message.sender := Sender.assistant;
     Message.timestamp := JsDate.Instant 1700000001250;
     Message.confidence := None;
     Message.responseTime := Some PrimFloat.neg_zero;
     Message.suggestions := None;
     Message.isError := None;
     Message.products := None |}.

(** A message whose response time is NaN. *)
Definition unmeasured : Message.t :=
  {| Message.id := "assistant_1";
     Message.text := "hola";
     Message.sender := Sender.assistant;
     Message.timestamp := JsDate.Instant 1700000001250;
     Message.confidence := None;
     Message.responseTime := Some PrimFloat.nan;
     Message.suggestions := None;
     Message.isError := None;
     Message.products := None |}.

(** A browser that has never run the application. *)
Definition fresh_browser : Browser :=
  {| window := true; storage := ReadWrite; sessionItem := None; historyItem := None |}.

(** Server-side rendering: no [window]. *)
Definition server : Browser :=
  {| window := false; storage := Blocked; sessionItem := None; historyItem := None |}.

(** The history of [question] under the session id [s]. *)
Definition stored_history (s : string) : json :=
  JObject [("sessionId", JString s);
           ("messages",
            JArray [JObject [("id", JString "user_1700000000000");
                             ("text", JString "Busco un televisor");
                             ("sender", JString "user");
                             ("timestamp", JString "2023-11-14T22:13:20.000Z")]]);
           ("lastUpdated", JString "2023-11-14T22:13:21.000Z")].

(** A browser that holds a session and its history, with the given access to
    storage. *)
Definition used_browser (access : StorageAccess) : Browser :=
  {| window := true; storage := access;
     sessionItem := Some "session_1700000000000_k3j9x2m1q";
     historyItem := Some (Some (stored_history "session_1700000000000_k3j9x2m1q")) |}.

Definition morning : Entropy := {| now := 1700000002000; random := "a1b2c3d4e" |}.
Definition evening : Entropy := {| now := 1700040000000; random := "z9y8x7w6v" |}.

(** What this development takes an engine to answer for the date texts and
    values that are up to the engine, where an answer is needed to run the
    code. *)
Definition no_other_date (v : JsValue) : JsDate.t := JsDate.Invalid.

(** A transport that answers every request with the status 403. *)
Definition forbidden : nat -> ChatService.Attempt :=
  fun _ => {| ChatService.outcome :=
                ChatService.Responded 403 "Forbidden" (ChatService.Json None);
              ChatService.latency := 40; ChatService.oversleep := 0 |}.

(** The service of a store that has not sent anything yet. *)
Definition ready_service : ChatStore.Service :=
  {| ChatStore.config :=
       {| ChatService.baseUrl := "https://api.example";
          ChatService.timeout := 30000; ChatService.retries := 3 |};
     ChatStore.run :=
       {| ChatService.retryCount := 0; ChatService.attempts := 0;
          ChatService.clock := 1700000000000; ChatService.log := [] |} |}.

(** The store, once its service is initialized. *)
Definition ready : ChatStore.ChatState :=
  ChatStore.initializeChatService (ChatStore.config ready_service)
    (ChatStore.run ready_service) (ChatStore.initial morning).

(** A service whose calls have used up the three retries. *)
Definition exhausted_service : ChatStore.Service :=
  {| ChatStore.config := ChatStore.config ready_service;
     ChatStore.run :=
       {| ChatService.retryCount := 3; ChatService.attempts := 4;
          ChatService.clock := 1700000014160;
          ChatService.log := [] |} |}.

(** A store that holds such a service and the two messages of a chat. *)
Definition exhausted : ChatStore.ChatState :=
  {| ChatStore.messages := [question; answer];
     ChatStore.isTyping := false;
     ChatStore.connectionStatus := ChatStore.Connection.online;
     ChatStore.sessionId := "session_1700000000000_k3j9x2m1q";
     ChatStore.products := [television];
     ChatStore.searchContext := ChatStore.emptySearchContext;
     ChatStore.showLanding := false;
     ChatStore.currentError := None;
     ChatStore.chatService := Some exhausted_service |}.

End Samples.

(* ===================================================================== *)
(** * Properties of the intent heuristic *)
(* ===================================================================== *)

Section IntentHeuristic.
Import Js MessageProtocol.

(** ** Lower-casing keeps occurrences *)

Lemma prefix_toLowerCase (w s : string) :
  String.prefix w s = true ->
  String.prefix (toLowerCase w) (toLowerCase s) = true.
Proof.
  revert s; induction w as [|a w IH]; intros [|b s] H; simpl in *;
    try reflexivity; try discriminate.
  destruct (Ascii.ascii_dec a b) as [->|]; [|discriminate].
  destruct (Ascii.ascii_dec (lower_unit b) (lower_unit b)); [|congruence].
  now apply IH.
Qed.

Lemma includes_toLowerCase (s w : string) :
  includes s w = true -> includes (toLowerCase s) (toLowerCase w) = true.
Proof.
  induction s as [|c s IH]; intros H.
  - change (String.prefix w "" || false = true) in H.
    apply orb_true_iff in H as [H|H]; [|discriminate].
    apply prefix_toLowerCase in H.
    change (String.prefix (toLowerCase w) (toLowerCase "") || false = true).
    now rewrite H.
  - change (String.prefix w (String c s) || includes s w = true) in H.
    change (String.prefix (toLowerCase w) (toLowerCase (String c s))
            || includes (toLowerCase s) (toLowerCase w) = true).
    apply orb_true_iff in H as [H|H].
    + apply prefix_toLowerCase in H. now rewrite H.
    + rewrite (IH H). apply orb_true_r.
Qed.

(** ** The rounds given to the scanning functions are enough *)

Lemma take_digits_length (n : nat) (s : string) :
  String.length s
  = String.length (fst (take_digits n s)) + String.length (snd (take_digits n s)).
Proof.
  revert s; induction n as [|n IH]; intros [|c s]; cbn [take_digits]; try reflexivity.
  destruct (is_digit c); [|reflexivity].
  specialize (IH s). destruct (take_digits n s) as [d r]. cbn in *. lia.
Qed.

Lemma thousands_group_length (s g r : string) :
  thousands_group s = Some (g, r) -> String.length r < String.length s.
Proof.
  destruct s as [|c s]; cbn [thousands_group]; [discriminate|].
  destruct (is_separator c); [|discriminate].
  pose proof (take_digits_length 3 s) as H.
  destruct (take_digits 3 s) as [d r0]. cbn [fst snd] in H.
  destruct (Nat.eqb (String.length d) 3); [|discriminate].
  intros E. injection E as _ <-. cbn [String.length]. lia.
Qed.

Lemma thousands_groups_length (fuel : nat) (s : string) :
  String.length (snd (thousands_groups fuel s)) <= String.length s.
Proof.
  revert s; induction fuel as [|fuel IH]; intros s; cbn [thousands_groups]; [cbn; lia|].
  destruct (thousands_group s) as [[g r]|] eqn:E; [|cbn; lia].
  apply thousands_group_length in E. specialize (IH r).
  destruct (thousands_groups fuel r) as [gs r']. cbn [snd] in *. lia.
Qed.

Lemma thousands_groups_fuel (fuel fuel' : nat) (s : string) :
  String.length s <= fuel -> String.length s <= fuel' ->
  thousands_groups fuel s = thousands_groups fuel' s.
Proof.
  revert fuel' s; induction fuel as [|fuel IH]; intros fuel' s H H'.
  - destruct s; [|cbn in H; lia]. destruct fuel'; reflexivity.
  - destruct fuel' as [|fuel'].
    + destruct s; [reflexivity | cbn in H'; lia].
    + cbn [thousands_groups].
      destruct (thousands_group s) as [[g r]|] eqn:E; [|reflexivity].
      apply thousands_group_length in E. now rewrite (IH fuel' r) by lia.
Qed.

Lemma price_at_length (s m r : string) :
  price_at s = Some (m, r) -> String.length r < String.length s.
Proof.
  unfold price_at. pose proof (take_digits_length 3 s) as H.
  destruct (take_digits 3 s) as [d r0]. cbn [fst snd] in H.
  destruct d as [|c d]; [discriminate|].
  pose proof (thousands_groups_length (String.length r0) r0) as H'.
  destruct (thousands_groups (String.length r0) r0) as [gs r'].
  intros E. injection E as _ <-. cbn [String.length snd] in *. lia.
Qed.

(** Any number of rounds above the length of the text gives the matches
    that [match_price_pattern] returns. *)
Lemma price_matches_fuel (fuel fuel' : nat) (s : string) :
  String.length s < fuel -> String.length s < fuel' ->
  price_matches fuel s = price_matches fuel' s.
Proof.
  revert fuel' s; induction fuel as [|fuel IH]; intros fuel' s H H'; [lia|].
  destruct fuel' as [|fuel']; [lia|]. cbn [price_matches].
  destruct (price_at s) as [[m r]|] eqn:E.
  - apply price_at_length in E. now rewrite (IH fuel' r) by lia.
  - destruct s as [|c s]; [reflexivity|]. cbn [String.length] in *. apply IH; lia.
Qed.

Lemma prefix_length (w s : string) :
  String.prefix w s = true -> String.length w <= String.length s.
Proof.
  revert s; induction w as [|a w IH]; intros [|b s]; cbn; intros H;
    try lia; try discriminate.
  destruct (Ascii.ascii_dec a b); [|discriminate]. apply IH in H. lia.
Qed.

Lemma drop_length (n : nat) (s : string) :
  String.length (drop n s) = String.length s - n.
Proof.
  revert s; induction n as [|n IH]; intros [|c s]; cbn [drop String.length];
    try lia. now rewrite IH.
Qed.

Lemma split_first_length (sep s before after : string) :
  sep <> EmptyString ->
  split_first sep s = Some (before, after) -> String.length after < String.length s.
Proof.
  intros Hsep. revert before; induction s as [|c s IH]; intros before.
  - cbn [split_first]. destruct sep; [congruence|]. cbn. discriminate.
  - cbn [split_first]. destruct (String.prefix sep (String c s)) eqn:P.
    + intros E. injection E as _ <-. apply prefix_length in P.
      rewrite drop_length. destruct sep; [congruence|]. cbn [String.length] in *. lia.
    + destruct (split_first sep s) as [[b a]|]; [|discriminate].
      intros E. injection E as _ <-. specialize (IH b eq_refl).
      cbn [String.length]. lia.
Qed.

(** Any number of rounds from the length of the text on gives the pieces
    that [split] returns. *)
Lemma split_fuel_enough (fuel fuel' : nat) (sep s : string) :
  sep <> EmptyString ->
  String.length s <= fuel -> String.length s <= fuel' ->
  split_fuel fuel sep s = split_fuel fuel' sep s.
Proof.
  intros Hsep. revert fuel' s; induction fuel as [|fuel IH]; intros fuel' s H H'.
  - destruct s; [|cbn in H; lia]. destruct fuel'; [reflexivity|].
    cbn [split_fuel split_first]. destruct sep; [congruence|]. reflexivity.
  - destruct fuel' as [|fuel'].
    + destruct s; [|cbn in H'; lia].
      cbn [split_fuel split_first]. destruct sep; [congruence|]. reflexivity.
    + cbn [split_fuel].
      destruct (split_first sep s) as [[b a]|] eqn:E; [|reflexivity].
      apply split_first_length in E; [|assumption].
      now rewrite (IH fuel' a) by lia.
Qed.

(** ** The classification cascade *)

(** The compare branch, taken whenever one of its three literals occurs in
    the lower-cased text. *)
Lemma analyzeUserIntent_compare (input : string) :
  let text := toLowerCase input in
  includes text "compar" || includes text "diferencia" || includes text "vs" = true ->
  primary (analyzeUserIntent input) = Primary.compare /\
  confidence (analyzeUserIntent input) = 0.9%float.
Proof.
  intros text H. unfold analyzeUserIntent. fold text. rewrite H. split; reflexivity.
Qed.

(** The five outcomes of the cascade. *)
Lemma analyzeUserIntent_cases (input : string) :
  let i := analyzeUserIntent input in
  (primary i = Primary.compare /\ confidence i = 0.9%float) \/
  (primary i = Primary.purchase /\ confidence i = 0.85%float) \/
  (primary i = Primary.question /\ confidence i = 0.8%float) \/
  (primary i = Primary.search /\ confidence i = 0.9%float) \/
  (primary i = Primary.search /\ confidence i = 0.7%float).
Proof.
  unfold analyzeUserIntent. set (text := toLowerCase input).
  destruct (includes text "compar" || includes text "diferencia" || includes text "vs");
    [left; split; reflexivity | right].
  destruct (includes text "comprar" || includes text "precio" || includes text "carrito");
    [left; split; reflexivity | right].
  destruct (includes text "?" || includes text "como" || includes text "que es");
    [left; split; reflexivity | right].
  destruct (includes text "busco" || includes text "necesito" || includes text "quiero");
    [left | right]; split; reflexivity.
Qed.

(** The heuristic never sets the [features] entity. *)
Lemma analyzeUserIntent_features (input : string) :
  features (entities (analyzeUserIntent input)) = None.
Proof.
  unfold analyzeUserIntent.
  destruct (includes _ "compar" || _ || _); [reflexivity|].
  destruct (includes _ "comprar" || _ || _); [reflexivity|].
  destruct (includes _ "?" || _ || _); [reflexivity|].
  destruct (includes _ "busco" || _ || _); reflexivity.
Qed.

(** C1. An input in which a compare trigger occurs, in whatever casing, is
    classified [compare] with confidence 0.9: [w] is a run of the input whose
    lower case is one of the literals ['compar'], ['diferencia'], ['vs'].
    The compare test is the first of the cascade, so nothing is asked about
    the other trigger words. *)
Theorem compare_trigger_wins (input w : string) :
  includes input w = true ->
  In (toLowerCase w) ["compar"; "diferencia"; "vs"] ->
  primary (analyzeUserIntent input) = Primary.compare /\
  confidence (analyzeUserIntent input) = 0.9%float.
Proof.
  intros Hw Hin. apply analyzeUserIntent_compare.
  apply includes_toLowerCase in Hw.
  destruct Hin as [E | [E | [E | []]]]; rewrite <- E in Hw; cbv zeta; rewrite Hw;
    rewrite ?orb_true_r; reflexivity.
Qed.

(** An input with a compare trigger in mixed case, and purchase, question and
    search triggers beside it. *)
Lemma compare_trigger_wins_witness :
  primary (analyzeUserIntent "Quiero COMPARAR el precio: Samsung Vs LG?")
    = Primary.compare /\
  confidence (analyzeUserIntent "Quiero COMPARAR el precio: Samsung Vs LG?")
    = 0.9%float.
Proof.
  apply (compare_trigger_wins "Quiero COMPARAR el precio: Samsung Vs LG?" "Vs").
  - reflexivity.
  - simpl. tauto.
Defined.

(** C2. The entities of the budget query of the specification: the two digit
    groups are matched with their separators, the separators are stripped,
    and the smallest and the largest of the parsed integers are kept. *)
Theorem budget_query_entities :
  let input := "Busco un televisor Samsung con presupuesto de 1.500.000 a 2.000.000" in
  let e := entities (analyzeUserIntent input) in
  category e = Some "televisor" /\
  brands e = Some ["samsung"] /\
  priceRange e = Some {| min := Some (Int 1500000); max := Some (Int 2000000) |} /\
  match_price_pattern (toLowerCase input) = Some ["1.500.000"; "2.000.000"] /\
  map strip_separators ["1.500.000"; "2.000.000"] = ["1500000"; "2000000"] /\
  map parseInt ["1500000"; "2000000"] = [Int 1500000; Int 2000000].
Proof. vm_compute. repeat split; reflexivity. Qed.

(** ** Turns and phases *)

Lemma heuristic_turnCount (input : string) (previous : option ConversationContext) :
  turnCount (conversationState (snd (heuristic input previous)))
  = add (previous_turnCount previous) (Int 1).
Proof. reflexivity. Qed.

Lemma chain_turns (inputs : list string) (previous : option ConversationContext) (z : Z) :
  turns previous = Int z ->
  turns (chain inputs previous) = Int (z + Z.of_nat (List.length inputs)).
Proof.
  revert previous z; induction inputs as [|input rest IH]; intros previous z H.
  - simpl. rewrite H. f_equal. lia.
  - cbn [chain]. rewrite (IH _ (z + 1)%Z).
    + f_equal. cbn [List.length]. lia.
    + cbn [turns]. rewrite heuristic_turnCount.
      destruct previous as [c|]; cbn [turns previous_turnCount] in *.
      * rewrite H. unfold or_else, truthy.
        destruct (z =? 0)%Z eqn:E; cbn [negb add]; [|reflexivity].
        apply Z.eqb_eq in E. now subst.
      * injection H as <-. reflexivity.
Qed.


(** ** Confidence and instructions *)

(** C9. The confidence of a derived intent is one of 0.7, 0.8, 0.85 and 0.9,
    hence at least 0.7 and not below 0.6, and no list of agent instructions
    built for a derived intent holds CLARIFY_USER_INTENT. *)
Theorem confidence_never_low (input : string) :
  let intent := analyzeUserIntent input in
  (confidence intent = 0.7%float \/ confidence intent = 0.8%float \/
   confidence intent = 0.85%float \/ confidence intent = 0.9%float) /\
  PrimFloat.leb 0.7%float (confidence intent) = true /\
  PrimFloat.ltb (confidence intent) 0.6%float = false /\
  forall context : ConversationContext,
    ~ In "CLARIFY_USER_INTENT" (generateAgentInstructions context intent).
Proof.
  intros intent.
  assert (Hc : confidence intent = 0.7%float \/ confidence intent = 0.8%float \/
               confidence intent = 0.85%float \/ confidence intent = 0.9%float).
  { destruct (analyzeUserIntent_cases input) as [[_ H] | [[_ H] | [[_ H] | [[_ H] | [_ H]]]]];
      fold intent in H; tauto. }
  assert (Hlow : PrimFloat.ltb (confidence intent) 0.6%float = false)
    by (destruct Hc as [-> | [-> | [-> | ->]]]; reflexivity).
  repeat split; try assumption.
  - destruct Hc as [-> | [-> | [-> | ->]]]; reflexivity.
  - intros context. unfold generateAgentInstructions. rewrite Hlow.
    rewrite !in_app_iff. intros [H | [H | []]].
    + destruct (currentSearch context) as [cs|]; [|destruct H].
      destruct (_ && _); [destruct H as [H | []]; discriminate H | destruct H].
    + destruct (_ && _); [destruct H as [H | []]; discriminate H | destruct H].
Qed.

(** C10. On a turn classified [search] the missing-info list of the search
    record ends with uso_principal, whatever else it holds, and the list of
    agent instructions holds the ASK_FOR instruction made of that list, which
    names uso_principal. *)
Theorem search_asks_for_uso_principal
    (input : string) (previous : option ConversationContext) :
  primary (analyzeUserIntent input) = Primary.search ->
  let '(intent, context) := heuristic input previous in
  features (entities intent) = None /\
  exists cs asked,
    currentSearch context = Some cs /\
    missingInfo cs = (asked ++ ["uso_principal"])%list /\
    In "uso_principal" (missingInfo cs) /\
    In ("ASK_FOR: " ++ join ", " (missingInfo cs))
       (generateAgentInstructions context intent) /\
    includes ("ASK_FOR: " ++ join ", " (missingInfo cs)) "uso_principal" = true.
Proof.
  intros Hs. unfold heuristic.
  split; [apply analyzeUserIntent_features|].
  set (intent := analyzeUserIntent input) in *.
  assert (Hm : exists asked,
             identifyMissingInfo intent = (asked ++ ["uso_principal"])%list /\
             includes ("ASK_FOR: " ++ join ", " (identifyMissingInfo intent))
               "uso_principal" = true).
  { assert (H : exists asked,
               identifyMissingInfo intent = (asked ++ ["uso_principal"])%list /\
               In asked [[]; ["categoria"]; ["presupuesto"]; ["categoria"; "presupuesto"]]).
    { unfold identifyMissingInfo. rewrite Hs.
      unfold intent at 3. rewrite analyzeUserIntent_features.
      cbn [Primary.eqb no_length andb].
      destruct (absent_string _); destruct (priceRange _);
        [exists ["categoria"] | exists ["categoria"; "presupuesto"]
        | exists [] | exists ["presupuesto"]];
        (split; [reflexivity | simpl; tauto]). }
    destruct H as (asked & -> & Hin). exists asked. split; [reflexivity|].
    destruct Hin as [<- | [<- | [<- | [<- | []]]]]; reflexivity. }
  destruct Hm as (asked & Hm & Hinc).
  unfold updateConversationContext, generateAgentInstructions.
  cbn [currentSearch]. rewrite Hs. cbn [Primary.eqb].
  eexists _, asked. cbn [missingInfo].
  split; [reflexivity|]. split; [exact Hm|].
  split; [rewrite Hm; apply in_or_app; right; left; reflexivity|].
  split; [|exact Hinc].
  assert (Hlen : Nat.eqb (List.length (identifyMissingInfo intent)) 0 = false)
    by (rewrite Hm, length_app; apply Nat.eqb_neq; simpl; lia).
  rewrite Hlen. cbn [andb negb]. apply in_or_app. left. left. reflexivity.
Qed.

(** A greeting: no trigger word at all, classified [search] by default. *)
Lemma search_asks_for_uso_principal_witness :
  let '(intent, context) := heuristic "hola" None in
  features (entities intent) = None /\
  exists cs asked,
    currentSearch context = Some cs /\
    missingInfo cs = (asked ++ ["uso_principal"])%list /\
    In "uso_principal" (missingInfo cs) /\
    In ("ASK_FOR: " ++ join ", " (missingInfo cs))
       (generateAgentInstructions context intent) /\
    includes ("ASK_FOR: " ++ join ", " (missingInfo cs)) "uso_principal" = true.
Proof.
  apply (search_asks_for_uso_principal "hola" None). reflexivity.
Defined.

End IntentHeuristic.

(* ===================================================================== *)
(** * Dates survive their ISO text *)
(* ===================================================================== *)

Section DateText.
Import Js JsDate.
Local Open Scope Z_scope.

(** The calendar fields of a day: what [civil_from_days] computes, named. *)
Lemma civil_from_days_spec (z : Z) :
  exists era yoe doy mp,
    0 <= yoe < 400 /\ 0 <= doy <= 365 /\ 0 <= mp <= 11 /\
    mp = (5 * doy + 2) / 153 /\
    z + 719468 = era * 146097 + (yoe * 365 + yoe / 4 - yoe / 100 + doy) /\
    civil_from_days z =
      (yoe + era * 400 + (if (if mp <? 10 then mp + 3 else mp - 9) <=? 2 then 1 else 0),
       (if mp <? 10 then mp + 3 else mp - 9),
       doy - (153 * mp + 2) / 5 + 1).
Proof.
  unfold civil_from_days.
  set (z' := z + 719468).
  set (doe := z' mod 146097).
  set (c := Z.min (doe / 36524) 3).
  set (doc := doe - c * 36524).
  set (q := doc / 1461).
  set (doq := doc - q * 1461).
  set (a := Z.min (doq / 365) 3).
  set (doy := doq - a * 365).
  assert (Hdoe : 0 <= doe < 146097) by (apply Z.mod_pos_bound; lia).
  assert (Hz : z' = (z' / 146097) * 146097 + doe)
    by (unfold doe; pose proof (Z.div_mod z' 146097); lia).
  assert (Hc : 0 <= c <= 3 /\ 0 <= doc <= 36524 /\ (c < 3 -> doc < 36524)).
  { unfold doc, c. pose proof (Z.div_mod doe 36524).
    pose proof (Z.mod_pos_bound doe 36524). lia. }
  assert (Hq : 0 <= q <= 24 /\ 0 <= doq <= 1460 /\ (q < 24 -> doq < 1461)
               /\ (c < 3 -> q = 24 -> doq < 1460)).
  { unfold doq, q. pose proof (Z.div_mod doc 1461).
    pose proof (Z.mod_pos_bound doc 1461). lia. }
  assert (Ha : 0 <= a <= 3 /\ 0 <= doy <= 365).
  { unfold doy, a. pose proof (Z.div_mod doq 365).
    pose proof (Z.mod_pos_bound doq 365). lia. }
  exists (z' / 146097), (c * 100 + q * 4 + a), doy, ((5 * doy + 2) / 153).
  repeat split; try lia.
  - pose proof (Z.div_mod (5 * doy + 2) 153). pose proof (Z.mod_pos_bound (5 * doy + 2) 153). lia.
  - pose proof (Z.div_mod (5 * doy + 2) 153). pose proof (Z.mod_pos_bound (5 * doy + 2) 153). lia.
  - assert ((c * 100 + q * 4 + a) / 4 = c * 25 + q)
      by (symmetry; apply Z.div_unique with (r := a); lia).
    assert ((c * 100 + q * 4 + a) / 100 = c)
      by (symmetry; apply Z.div_unique with (r := q * 4 + a); lia).
    unfold doy, doq, doc in *. lia.
Qed.

(** Month and day of the month are in their calendar ranges. *)
Lemma civil_from_days_range (z : Z) :
  let '(y, m, d) := civil_from_days z in 1 <= m <= 12 /\ 1 <= d <= 31.
Proof.
  destruct (civil_from_days_spec z) as (era & yoe & doy & mp & Hy & Hd & Hm & Hmp & _ & ->).
  cbv beta iota.
  assert (0 <= doy - (153 * mp + 2) / 5 <= 30)
    by (subst mp; Z.div_mod_to_equations; lia).
  clear Hmp.
  destruct (mp <? 10) eqn:E; [apply Z.ltb_lt in E | apply Z.ltb_ge in E]; lia.
Qed.

(** The day count of the date of a day is that day. *)
Lemma days_from_civil_from_days (z : Z) :
  let '(y, m, d) := civil_from_days z in days_from_civil y m d = z.
Proof.
  destruct (civil_from_days_spec z) as (era & yoe & doy & mp & Hy & Hd & Hm & _ & Hz & ->).
  cbv beta iota. unfold days_from_civil.
  destruct (mp <? 10) eqn:E; [apply Z.ltb_lt in E | apply Z.ltb_ge in E].
  - replace (mp + 3 <=? 2) with false by (symmetry; apply Z.leb_gt; lia).
    replace ((mp + 3 + 9) mod 12) with mp
      by (apply Z.mod_unique with (q := 1); lia).
    replace ((yoe + era * 400 + 0) / 400) with era
      by (apply Z.div_unique with (r := yoe); lia).
    replace ((yoe + era * 400 + 0) mod 400) with yoe
      by (apply Z.mod_unique with (q := era); lia).
    lia.
  - replace (mp - 9 <=? 2) with true by (symmetry; apply Z.leb_le; lia).
    replace ((mp - 9 + 9) mod 12) with mp
      by (apply Z.mod_unique with (q := 0); lia).
    replace ((yoe + era * 400 + 1 - 1) / 400) with era
      by (apply Z.div_unique with (r := yoe); lia).
    replace ((yoe + era * 400 + 1 - 1) mod 400) with yoe
      by (apply Z.mod_unique with (q := era); lia).
    lia.
Qed.

(** Every date in the range of [Date] has a year of at most six digits. *)
Lemma civil_from_days_year (z : Z) :
  -100000000 <= z <= 100000000 ->
  let '(y, _, _) := civil_from_days z in -271821 <= y <= 275760.
Proof.
  intros Hz.
  destruct (civil_from_days_spec z) as (era & yoe & doy & mp & Hy & Hd & Hm & Hmp & Heq & ->).
  pose proof (Z.div_mod yoe 4). pose proof (Z.mod_pos_bound yoe 4).
  pose proof (Z.div_mod yoe 100). pose proof (Z.mod_pos_bound yoe 100).
  pose proof (Z.div_mod (5 * doy + 2) 153).
  pose proof (Z.mod_pos_bound (5 * doy + 2) 153).
  rewrite <- Hmp in *.
  assert (-680 <= era <= 689) by lia.
  cbv beta iota.
  destruct (mp <? 10) eqn:E; [apply Z.ltb_lt in E | apply Z.ltb_ge in E].
  - replace (mp + 3 <=? 2) with false by (symmetry; apply Z.leb_gt; lia). lia.
  - replace (mp - 9 <=? 2) with true by (symmetry; apply Z.leb_le; lia). lia.
Qed.

(** ** Digits *)

Lemma digit_spec (v : Z) :
  0 <= v <= 9 -> is_digit (digit v) = true /\ Z.of_N (code (digit v)) - 48 = v.
Proof.
  intros H.
  assert (v = 0 \/ v = 1 \/ v = 2 \/ v = 3 \/ v = 4 \/
          v = 5 \/ v = 6 \/ v = 7 \/ v = 8 \/ v = 9) as Hv by lia.
  repeat (destruct Hv as [->|Hv]; [split; reflexivity|]).
  subst v; split; reflexivity.
Qed.

Lemma read_digits_app (n k : nat) (acc acc' : Z) (s1 s2 : string) :
  read_digits n acc s1 = Some (acc', EmptyString) ->
  read_digits (n + k) acc (s1 ++ s2) = read_digits k acc' s2.
Proof.
  revert acc s1; induction n as [|n IH]; intros acc s1 H; simpl in *.
  - now inversion H.
  - destruct s1 as [|c s1]; [discriminate|]. simpl.
    destruct (is_digit c); [|discriminate]. now apply IH.
Qed.

Lemma read_digits_pad_all (n : nat) (acc v : Z) :
  0 <= v < 10 ^ Z.of_nat n ->
  read_digits n acc (pad n v) = Some (acc * 10 ^ Z.of_nat n + v, EmptyString).
Proof.
  revert acc v; induction n as [|n IH]; intros acc v Hv.
  - simpl in *. f_equal. f_equal. lia.
  - rewrite Nat2Z.inj_succ, Z.pow_succ_r in * by lia.
    pose proof (Z.div_mod v 10). pose proof (Z.mod_pos_bound v 10).
    replace (S n) with (n + 1)%nat at 1 by lia. cbn [pad].
    rewrite (read_digits_app n 1 acc (acc * 10 ^ Z.of_nat n + v / 10))
      by (apply IH; lia).
    destruct (digit_spec (v mod 10)) as [Hd Hc]; [lia|].
    cbn [read_digits]. rewrite Hd, Hc. f_equal. f_equal. lia.
Qed.

Lemma read_digits_pad (n : nat) (v : Z) (rest : string) :
  0 <= v < 10 ^ Z.of_nat n ->
  read_digits n 0 (pad n v ++ rest) = Some (v, rest).
Proof.
  intros Hv. replace n with (n + 0)%nat at 1 by lia.
  rewrite (read_digits_app n 0 0 v); [reflexivity|].
  rewrite read_digits_pad_all by assumption. reflexivity.
Qed.

Lemma read_char_cons (c : ascii) (s : string) : read_char c (String c s) = Some s.
Proof. unfold read_char. now rewrite Ascii.eqb_refl. Qed.

Lemma read_year_digit (c : ascii) (s : string) :
  is_digit c = true -> read_year (String c s) = read_digits 4 0 (String c s).
Proof.
  intros H.
  destruct c as [[] [] [] [] [] [] [] []]; try reflexivity; discriminate H.
Qed.

Lemma read_year_text (y : Z) (rest : string) :
  -999999 <= y <= 999999 ->
  read_year (year_text y ++ rest) = Some (y, rest).
Proof.
  intros Hy. unfold year_text.
  destruct ((0 <=? y) && (y <=? 9999)) eqn:E.
  - apply andb_true_iff in E as [E1 E2]. apply Z.leb_le in E1, E2.
    rewrite <- (read_digits_pad 4 y rest) by lia.
    cbn [pad String.append].
    apply read_year_digit, digit_spec.
    pose proof (Z.mod_pos_bound (y / 10 / 10 / 10) 10). lia.
  - destruct (y <? 0) eqn:N; [apply Z.ltb_lt in N | apply Z.ltb_ge in N].
    + change (("-" ++ pad 6 (Z.abs y)) ++ rest)%string
        with (String "-" (pad 6 (Z.abs y) ++ rest)).
      cbn [read_year]. rewrite read_digits_pad by lia.
      f_equal. f_equal. lia.
    + change (("+" ++ pad 6 (Z.abs y)) ++ rest)%string
        with (String "+" (pad 6 (Z.abs y) ++ rest)).
      cbn [read_year]. rewrite read_digits_pad by lia.
      f_equal. f_equal. lia.
Qed.

(** The fields of the text [toISOString] writes for an instant of the range
    of [Date] denote that instant. *)
Lemma read_fields_toISOString (ms : Z) :
  in_range ms = true -> read_fields (toISOString ms) = Some ms.
Proof.
  unfold in_range, maxTime. intros H.
  apply andb_true_iff in H as [H1 H2]. apply Z.leb_le in H1, H2.
  unfold toISOString, msPerDay.
  pose proof (Z.div_mod ms 86400000) as Hdm.
  pose proof (Z.mod_pos_bound ms 86400000) as Hmod.
  set (z := ms / 86400000) in *. set (tod := ms mod 86400000) in *.
  assert (Hz : -100000000 <= z <= 100000000) by lia.
  pose proof (civil_from_days_range z) as Hr.
  pose proof (days_from_civil_from_days z) as Hd.
  pose proof (civil_from_days_year z Hz) as Hy.
  destruct (civil_from_days z) as [[y m] d].
  pose proof (Z.div_mod tod 3600000). pose proof (Z.mod_pos_bound tod 3600000).
  pose proof (Z.div_mod tod 60000). pose proof (Z.mod_pos_bound tod 60000).
  pose proof (Z.div_mod tod 1000). pose proof (Z.mod_pos_bound tod 1000).
  pose proof (Z.div_mod (tod / 60000) 60). pose proof (Z.mod_pos_bound (tod / 60000) 60).
  pose proof (Z.div_mod (tod / 1000) 60). pose proof (Z.mod_pos_bound (tod / 1000) 60).
  unfold read_fields.
  rewrite read_year_text by lia. cbn [bind String.append]. rewrite read_char_cons. cbn [bind].
  rewrite read_digits_pad by lia. cbn [bind String.append]. rewrite read_char_cons. cbn [bind].
  rewrite read_digits_pad by lia. cbn [bind String.append]. rewrite read_char_cons. cbn [bind].
  rewrite read_digits_pad by lia. cbn [bind String.append]. rewrite read_char_cons. cbn [bind].
  rewrite read_digits_pad by lia. cbn [bind String.append]. rewrite read_char_cons. cbn [bind].
  rewrite read_digits_pad by lia. cbn [bind String.append]. rewrite read_char_cons. cbn [bind].
  rewrite read_digits_pad by lia. cbn [bind String.append]. rewrite read_char_cons. cbn [bind].
  f_equal. rewrite Hd. unfold msPerDay. lia.
Qed.

(** [new Date(d.toISOString())] is [d], whatever the engine does with other
    texts. *)
Lemma parse_toISOString (other : string -> JsDate.t) (ms : Z) :
  in_range ms = true -> parse other (toISOString ms) = Instant ms.
Proof.
  intros H. unfold parse.
  now rewrite read_fields_toISOString, H, String.eqb_refl.
Qed.

End DateText.

(* ===================================================================== *)
(** * Properties of the retrying client *)
(* ===================================================================== *)

Section RetryClient.
Import Js ChatService.

(** The body of [sendMessage], as the method reads. *)
Lemma sendMessage_eq (config : ChatServiceConfig) (script : nat -> Attempt) (r : Run) :
  sendMessage config script r =
  let a := script (attempts r) in
  match makeRequest (outcome a) with
  | Return response =>
      (success_response response (clock (attempted a r) - clock r), reset (attempted a r))
  | Throw e =>
      if retryable (analyzeError e) && (retryCount r <? retries config)%nat
      then sendMessage config script (backed_off a (attempted a r))
      else (error_response (analyzeError e) (clock (attempted a r) - clock r),
            attempted a r)
  end.
Proof.
  rewrite sendMessage_equation_1. cbv zeta.
  destruct (makeRequest (outcome (script (attempts r)))) as [response|e].
  - reflexivity.
  - rewrite sendMessage_clause_1_equation_2.
    destruct (inspect (retryable (analyzeError e) && (retryCount r <? retries config)%nat))
      as [b Hb].
    destruct b.
    + rewrite sendMessage_clause_1_clause_2_equation_1, Hb.
      now rewrite sendMessage_equation_1.
    + now rewrite sendMessage_clause_1_clause_2_equation_2, Hb.
Qed.

(** ** Failed rounds *)

Lemma retried_attempts script n r : attempts (retried script n r) = attempts r + n.
Proof.
  revert r; induction n as [|n IH]; intros r; cbn [retried]; [lia|].
  rewrite IH. cbn. lia.
Qed.

Lemma retried_retryCount script n r : retryCount (retried script n r) = retryCount r + n.
Proof.
  revert r; induction n as [|n IH]; intros r; cbn [retried]; [lia|].
  rewrite IH. cbn. lia.
Qed.


(** The clock after [n] rounds: every delay that a timer can wait has passed. *)
Lemma retried_clock script n r :
  (clock r + total (map delay (map backoff_delay (seq (S (retryCount r)) n)))
   <= clock (retried script n r))%N.
Proof.
  revert r; induction n as [|n IH]; intros r; cbn [retried seq map total fold_right].
  - lia.
  - etransitivity; [|apply IH]. cbn [backed_off attempted clock retryCount].
    fold (total (map delay (map backoff_delay (seq (S (S (retryCount r))) n)))). lia.
Qed.


Lemma delay_in_range (ms : N) : (ms <= TIMEOUT_MAX)%N -> delay ms = ms.
Proof. intros H. unfold delay. now apply N.leb_le in H as ->. Qed.

Lemma delays_in_range (delays : list N) :
  Forall (fun ms => (ms <= TIMEOUT_MAX)%N) delays -> map delay delays = delays.
Proof.
  induction 1 as [|ms delays Hms _ IH]; [reflexivity|].
  cbn [map]. now rewrite delay_in_range, IH.
Qed.



(** As long as the attempts fail with a retryable error and the counter has
    room, the call goes on to the next round. *)
Lemma sendMessage_retried config script n r :
  retryCount r + n <= retries config ->
  (forall k, k < n ->
     exists e, makeRequest (outcome (script (attempts r + k))) = Throw e /\
               retryable (analyzeError e) = true) ->
  sendMessage config script r = sendMessage config script (retried script n r).
Proof.
  revert r; induction n as [|n IH]; intros r Hn Hfail; [reflexivity|].
  cbn [retried]. rewrite <- IH.
  - rewrite (sendMessage_eq config script r). cbv zeta.
    destruct (Hfail 0) as (e & He & Hr); [lia|].
    rewrite Nat.add_0_r in He. rewrite He, Hr.
    replace (retryCount r <? retries config)%nat with true
      by (symmetry; apply Nat.ltb_lt; lia).
    reflexivity.
  - cbn. lia.
  - intros k Hk. destruct (Hfail (S k)) as (e & He & Hr); [lia|].
    exists e. split; [|assumption].
    cbn [backed_off attempted attempts].
    now replace (S (attempts r) + k) with (attempts r + S k) by lia.
Qed.




(** ** Responses with status 400 *)

Lemma makeRequest_400 (statusText : string) (body : Body) :
  makeRequest (Responded 400 statusText body)
  = Throw (ErrorObject "Error" ("HTTP_400: " ++ statusText)).
Proof. reflexivity. Qed.

(** A 400 whose status text names neither [fetch] nor [NetworkError] is a
    validation failure that is not retried. *)
Lemma analyzeError_400 (statusText : string) :
  includes statusText "fetch" = false ->
  includes statusText "NetworkError" = false ->
  let e := analyzeError (ErrorObject "Error" ("HTTP_400: " ++ statusText)) in
  type e = ErrorType.validation /\ retryable e = false /\
  statusCode e = Some (Int 400).
Proof.
  intros Hf Hn. unfold analyzeError.
  assert (H1 : includes ("HTTP_400: " ++ statusText) "fetch" = false).
  { cbn. destruct statusText; cbn in *; assumption. }
  assert (H2 : includes ("HTTP_400: " ++ statusText) "NetworkError" = false).
  { cbn. destruct statusText; cbn in *; assumption. }
  rewrite H1, H2. cbn [orb].
  assert (H3 : includes ("HTTP_400: " ++ statusText) "HTTP_" = true) by reflexivity.
  rewrite H3.
  assert (H4 : match nth_error (split ("HTTP_400: " ++ statusText) "HTTP_") 1 with
               | Some piece => parseInt piece
               | None => NaN
               end = Int 400).
  { unfold split. cbn.
    destruct (split_first "HTTP_" statusText) as [[before after]|]; reflexivity. }
  rewrite H4. cbn. repeat split; reflexivity.
Qed.

(** Such a response ends the call at its first attempt, with the structured
    error, whatever the retry counter and the maximum are. *)
Lemma http_400_single_attempt
    (config : ChatServiceConfig) (script : nat -> Attempt) (r : Run)
    (statusText : string) (body : Body) :
  outcome (script (attempts r)) = Responded 400 statusText body ->
  includes statusText "fetch" = false ->
  includes statusText "NetworkError" = false ->
  let '(response, r') := sendMessage config script r in
  attempts r' = S (attempts r) /\ retryCount r' = retryCount r /\
  waits (log r') = waits (log r) /\
  success response = false /\
  exists e, error response = Some e /\
            type e = ErrorType.validation /\ retryable e = false /\
            statusCode e = Some (Int 400).
Proof.
  intros Ho Hf Hn. rewrite sendMessage_eq. cbv zeta.
  rewrite Ho, makeRequest_400.
  destruct (analyzeError_400 statusText Hf Hn) as (Ht & Hr & Hs).
  cbv zeta in Hr. rewrite Hr. cbn [andb].
  repeat split; try reflexivity. eexists. repeat split; eassumption.
Qed.

(** C5, at the input on which the code departs from it: a response with
    status 400 whose status text contains [fetch] is classified as a network
    failure, retryable, and with a maximum of 3 retries the call makes four
    attempts and waits 2, 4 and 8 seconds. *)
Theorem http_400_with_fetch_in_status_text_is_retried :
  let config := {| baseUrl := "https://api.example"; timeout := 30000; retries := 3 |} in
  let script := fun _ : nat =>
    {| outcome := Responded 400 "Prefetch Not Allowed" (Json None);
       latency := 40; oversleep := 0 |} in
  let r := {| retryCount := 0; attempts := 0; clock := 0; log := [] |} in
  makeRequest (outcome (script 0))
  = Throw (ErrorObject "Error" "HTTP_400: Prefetch Not Allowed") /\
  type (analyzeError (ErrorObject "Error" "HTTP_400: Prefetch Not Allowed"))
  = ErrorType.network /\
  retryable (analyzeError (ErrorObject "Error" "HTTP_400: Prefetch Not Allowed"))
  = true /\
  attempts (snd (sendMessage config script r)) = 4 /\
  waits (log (snd (sendMessage config script r))) = [2000; 4000; 8000]%N.
Proof. vm_compute. repeat split; reflexivity. Qed.

(** ** The retry counter across calls *)

(** A call with no budget left makes one attempt and requests no delay; a
    failure leaves the counter where it was. *)
Lemma sendMessage_no_budget (config : ChatServiceConfig) (script : nat -> Attempt) (r : Run) :
  retries config <= retryCount r ->
  let '(response, r') := sendMessage config script r in
  attempts r' = S (attempts r) /\
  waits (log r') = waits (log r) /\
  match makeRequest (outcome (script (attempts r))) with
  | Return _ => success response = true /\ retryCount r' = 0
  | Throw _ => success response = false /\ retryCount r' = retryCount r
  end.
Proof.
  intros H. rewrite sendMessage_eq. cbv zeta.
  destruct (makeRequest (outcome (script (attempts r)))) as [data|e].
  - repeat split; reflexivity.
  - replace (retryCount r <? retries config)%nat with false
      by (symmetry; apply Nat.ltb_ge; assumption).
    rewrite andb_false_r. repeat split; reflexivity.
Qed.

(** Only an attempt that succeeds sets the counter back to zero: a call that
    returns an error never lowers it. *)
Lemma counter_reset_by_success_only
    (config : ChatServiceConfig) (script : nat -> Attempt) (r : Run) :
  let '(response, r') := sendMessage config script r in
  if success response then retryCount r' = 0 else retryCount r <= retryCount r'.
Proof.
  remember (retries config - retryCount r) as budget eqn:Hb.
  revert r Hb. induction budget as [budget IH] using lt_wf_ind. intros r Hb.
  rewrite sendMessage_eq. cbv zeta.
  destruct (makeRequest (outcome (script (attempts r)))) as [data|e].
  - reflexivity.
  - destruct (retryable (analyzeError e) && (retryCount r <? retries config)%nat) eqn:E.
    + apply andb_true_iff in E as [_ E]. apply Nat.ltb_lt in E.
      set (r1 := backed_off _ _).
      specialize (IH (retries config - retryCount r1)).
      assert (Hlt : retries config - retryCount r1 < budget) by (subst; cbn; lia).
      specialize (IH Hlt r1 eq_refl).
      destruct (sendMessage config script r1) as [response r'].
      destruct (success response); [assumption|].
      subst r1. cbn in IH. lia.
    + cbn. lia.
Qed.

(** Calls that follow an exhausted budget, as long as none of them
    succeeds: each fails after one attempt and leaves the counter at the
    maximum. *)
Lemma sendMessages_no_budget
    (config : ChatServiceConfig) (script : nat -> Attempt) (n : nat) (r : Run) :
  retries config <= retryCount r ->
  (forall i, i < n -> exists e, makeRequest (outcome (script (attempts r + i))) = Throw e) ->
  let '(results, r') := sendMessages config script n r in
  map snd results = repeat 1 n /\
  Forall (fun result => success (fst result) = false) results /\
  attempts r' = attempts r + n /\
  retryCount r' = retryCount r /\
  waits (log r') = waits (log r).
Proof.
  revert r; induction n as [|n IH]; intros r Hmax Hfail.
  - cbn. repeat split; try constructor; lia.
  - cbn [sendMessages].
    pose proof (sendMessage_no_budget config script r Hmax) as H1.
    destruct (sendMessage config script r) as [response r1].
    destruct H1 as (Ha & Hw & Hm).
    destruct (Hfail 0) as (e & He); [lia|]. rewrite Nat.add_0_r in He.
    rewrite He in Hm. destruct Hm as (Hs & Hc).
    specialize (IH r1).
    destruct (sendMessages config script n r1) as [rest r2].
    destruct IH as (I1 & I2 & I3 & I4 & I5); [lia | |].
    + intros i Hi. destruct (Hfail (S i)) as (e' & He'); [lia|].
      exists e'. rewrite Ha. now replace (S (attempts r) + i) with (attempts r + S i) by lia.
    + cbn [map snd fst repeat]. repeat split.
      * rewrite I1. f_equal. lia.
      * constructor; assumption.
      * lia.
      * lia.
      * congruence.
Qed.

(** C6, as the code has it.  From a counter at the maximum, where a call
    that used up the budget leaves it, every call up to and including the
    first one whose attempt succeeds makes exactly one attempt and requests
    no delay, even when its failure is retryable; the failures leave the
    counter at the maximum, and a success sets it to zero, which gives the
    calls after it the full budget again.  No call that returns an error
    lowers the counter: only a success sets it back to zero. *)
Theorem no_retry_after_exhausted_budget
    (config : ChatServiceConfig) (script : nat -> Attempt) (n : nat) (r : Run) :
  retryCount r = retries config ->
  (forall i, i < n -> exists e, makeRequest (outcome (script (attempts r + i))) = Throw e) ->
  (let '(results, r') := sendMessages config script (S n) r in
   map snd results = repeat 1 (S n) /\
   Forall (fun result => success (fst result) = false) (firstn n results) /\
   attempts r' = attempts r + S n /\
   waits (log r') = waits (log r) /\
   match makeRequest (outcome (script (attempts r + n))) with
   | Return _ => retryCount r' = 0
   | Throw _ => retryCount r' = retries config
   end) /\
  (forall (script0 : nat -> Attempt) (r0 : Run),
     let '(response, r1) := sendMessage config script0 r0 in
     if success response then retryCount r1 = 0 else retryCount r0 <= retryCount r1).
Proof.
  intros Hmax Hfail.
  split; [|intros script0 r0; apply counter_reset_by_success_only].
  replace (S n) with (n + 1) by lia.
  assert (Happ : forall a b r0,
            sendMessages config script (a + b) r0 =
            let '(xs, r1) := sendMessages config script a r0 in
            let '(ys, r2) := sendMessages config script b r1 in
            ((xs ++ ys)%list, r2)).
  { induction a as [|a IHa]; intros b r0; cbn [Nat.add sendMessages].
    - destruct (sendMessages config script b r0); reflexivity.
    - destruct (sendMessage config script r0) as [response r1].
      rewrite IHa. destruct (sendMessages config script a r1) as [xs r2].
      destruct (sendMessages config script b r2) as [ys r3]. reflexivity. }
  rewrite Happ.
  pose proof (sendMessages_no_budget config script n r) as H1.
  destruct (sendMessages config script n r) as [xs r1].
  destruct H1 as (A1 & A2 & A3 & A4 & A5); [lia | assumption |].
  cbn [sendMessages].
  pose proof (sendMessage_no_budget config script r1) as H2.
  destruct (sendMessage config script r1) as [response r2].
  destruct H2 as (B1 & B2 & B3); [lia|].
  assert (Hlen : List.length xs = n)
    by (rewrite <- (length_map snd), A1; apply repeat_length).
  repeat split.
  - rewrite map_app, A1. cbn [map snd]. rewrite B1.
    replace (S (attempts r1) - attempts r1) with 1 by lia.
    rewrite <- repeat_cons. now replace (n + 1) with (S n) by lia.
  - rewrite firstn_app, Hlen, Nat.sub_diag, firstn_O, app_nil_r.
    rewrite <- Hlen, firstn_all. assumption.
  - lia.
  - congruence.
  - rewrite <- A3. destruct (makeRequest (outcome (script (attempts r1)))).
    + apply B3.
    + destruct B3 as [_ ->]. lia.
Qed.

(** The counter at the maximum of 1, a failure, then an answer: two calls of
    one attempt each, and the answer sets the counter to zero. *)
Lemma no_retry_after_exhausted_budget_witness :
  let config := {| baseUrl := "https://api.example"; timeout := 30000; retries := 1 |} in
  let answer :=
    {| message := "Hola"; confidence := Api.Confidence.HIGH; responseTime := Int 0;
       products := None; suggestions := None; success := true;
       agentType := "agent"; phase := None; sessionId := None; error := None |} in
  let script := fun i =>
    {| outcome := if (i =? 3)%nat
                  then Responded 200 "OK" (Json (Some answer))
                  else Rejected (ErrorObject "TypeError" "Failed to fetch");
       latency := 40; oversleep := 0 |} in
  let r := {| retryCount := 1; attempts := 2; clock := 5000; log := [] |} in
  let '(results, r') := sendMessages config script 2 r in
  map snd results = [1; 1] /\ attempts r' = 4 /\ retryCount r' = 0.
Proof.
  intros config answer script r.
  pose proof (no_retry_after_exhausted_budget config script 1 r eq_refl) as H.
  destruct (sendMessages config script 2 r) as [results r'].
  destruct H as ((H1 & _ & H3 & _ & H5) & _).
  - intros i Hi. exists (ErrorObject "TypeError" "Failed to fetch").
    destruct i as [|i]; [reflexivity | lia].
  - repeat split; assumption.
Defined.

(** A call whose attempts all fail retryably uses up what is left of the
    budget and leaves the counter at the maximum. *)
Lemma exhausted_call_leaves_counter_at_maximum
    (config : ChatServiceConfig) (script : nat -> Attempt) (r : Run) :
  retryCount r <= retries config ->
  (forall k, k <= retries config - retryCount r ->
     exists e, makeRequest (outcome (script (attempts r + k))) = Throw e /\
               retryable (analyzeError e) = true) ->
  let '(response, r') := sendMessage config script r in
  success response = false /\
  retryCount r' = retries config /\
  attempts r' = attempts r + (retries config - retryCount r) + 1.
Proof.
  intros Hle Hfail.
  rewrite (sendMessage_retried config script (retries config - retryCount r) r);
    [|lia|intros k Hk; apply Hfail; lia].
  set (r1 := retried script (retries config - retryCount r) r).
  pose proof (sendMessage_no_budget config script r1) as H.
  destruct (sendMessage config script r1) as [response r'].
  assert (Hc : retryCount r1 = retries config)
    by (unfold r1; rewrite retried_retryCount; lia).
  assert (Ha : attempts r1 = attempts r + (retries config - retryCount r))
    by (unfold r1; apply retried_attempts).
  destruct H as (H1 & _ & H3); [lia|].
  destruct (Hfail (retries config - retryCount r)) as (e & He & _); [lia|].
  rewrite Ha, He in H3. destruct H3 as [H3 H4]. repeat split; [assumption|lia|lia].
Qed.

(** C6 as it is worded fails.  With a maximum of one retry, a first call
    fails twice and leaves the counter at 1; the next call succeeds at once,
    which sets the counter to 0; the call after it fails, is retried, and so
    makes two attempts.  Hence it is not true that every call made after the
    budget was used up makes exactly one attempt. *)
Lemma retries_return_after_a_success :
  let config := {| baseUrl := "https://api.example"; timeout := 30000; retries := 1 |} in
  let answer :=
    {| message := "Hola"; confidence := Api.Confidence.HIGH; responseTime := Int 0;
       products := None; suggestions := None; success := true;
       agentType := "agent"; phase := None; sessionId := None; error := None |} in
  let script := fun i =>
    {| outcome := if (i =? 2)%nat
                  then Responded 200 "OK" (Json (Some answer))
                  else Rejected (ErrorObject "TypeError" "Failed to fetch");
       latency := 40; oversleep := 0 |} in
  let r := {| retryCount := 0; attempts := 0; clock := 0; log := [] |} in
  let '(first, r1) := sendMessage config script r in
  (success first = false /\ retryCount r1 = retries config /\ attempts r1 = 2) /\
  map snd (fst (sendMessages config script 2 r1)) = [1; 2] /\
  ~ (forall (config : ChatServiceConfig) (script : nat -> Attempt) (r : Run)
            (calls : nat),
       retryCount r = retries config ->
       Forall (fun result => snd result = 1)
              (fst (sendMessages config script calls r))).
Proof.
  intros config answer script r.
  destruct (sendMessage config script r) as [first r1] eqn:E.
  assert (E1 : success first = false /\ retryCount r1 = retries config /\ attempts r1 = 2
               /\ map snd (fst (sendMessages config script 2 r1)) = [1; 2]).
  { replace first with (fst (sendMessage config script r)) by now rewrite E.
    replace r1 with (snd (sendMessage config script r)) by now rewrite E.
    vm_compute. repeat split; reflexivity. }
  destruct E1 as (H1 & H2 & H3 & H4).
  repeat split; try assumption.
  intros H. specialize (H config script r1 2 H2).
  apply (Forall_map snd (fun k => k = 1)) in H. rewrite H4 in H.
  inversion H as [|? ? _ H']. inversion H' as [|? ? Hbad _]. discriminate Hbad.
Qed.

End RetryClient.

(* ===================================================================== *)
(** * Properties of the stored chat history *)
(* ===================================================================== *)

Section ChatHistory.
Import Js Json Api.

Variable other : JsValue -> JsDate.t.

(** ** Messages through JSON *)

Lemma number_to_json_exact (f : float) : exact f = true -> number_to_json f = JNumber f.
Proof.
  unfold exact, number_to_json. destruct (PrimFloat.classify f); congruence.
Qed.

(** A value that comes back from JSON as it went in. *)
Definition kept (v : JsValue) : Prop :=
  exists j, stringify v = Some j /\ parse j = v.

Definition kept_property (kx : string * JsValue) : Prop := kept (snd kx).

Lemma kept_Str (s : string) : kept (Str s).
Proof. exists (JString s). split; reflexivity. Qed.

Lemma kept_Bool (b : bool) : kept (Bool b).
Proof. exists (JBool b). split; reflexivity. Qed.

Lemma kept_Number (f : float) : exact f = true -> kept (Number f).
Proof.
  intros H. exists (JNumber f). split; [|reflexivity].
  cbn [stringify]. now rewrite number_to_json_exact.
Qed.

Lemma items_kept (items : list JsValue) :
  Forall kept items ->
  map parse (map (fun x => match stringify x with Some j => j | None => JNull end) items)
  = items.
Proof.
  induction 1 as [|v items (j & Hj & Hp) _ IH]; [reflexivity|].
  cbn [map]. now rewrite Hj, Hp, IH.
Qed.

Lemma members_kept (props : list (string * JsValue)) :
  Forall kept_property props ->
  map (fun kj => (fst kj, parse (snd kj)))
      (flat_map (fun kx => match stringify (snd kx) with
                           | Some j => [(fst kx, j)]
                           | None => []
                           end) props)
  = props.
Proof.
  induction 1 as [|[k v] props (j & Hj & Hp) _ IH]; [reflexivity|].
  cbn [flat_map fst snd] in *. rewrite Hj. cbn [app map fst snd]. now rewrite Hp, IH.
Qed.

Lemma kept_Array (items : list JsValue) : Forall kept items -> kept (Array items).
Proof.
  intros H. eexists. split; [reflexivity|]. cbn [parse]. now rewrite items_kept.
Qed.

Lemma kept_Object (props : list (string * JsValue)) :
  Forall kept_property props -> kept (Object props).
Proof.
  intros H. eexists. split; [reflexivity|]. cbn [parse]. now rewrite members_kept.
Qed.

Lemma kept_optional {A} (k : string) (f : A -> JsValue) (o : option A) :
  (forall a, o = Some a -> kept (f a)) -> Forall kept_property (optional k f o).
Proof.
  intros H. destruct o as [a|]; constructor; [|constructor].
  now apply H.
Qed.

Lemma kept_product (p : BackendProduct.t) :
  storable_product p = true -> kept (BackendProduct.to_js p).
Proof.
  intros H. apply kept_Object.
  repeat first [apply Forall_app; split | apply Forall_cons | apply Forall_nil
               | apply kept_optional; intros a Ha ];
    try (apply kept_Str); try (apply kept_Bool).
  apply kept_Number. unfold storable_product in H. now rewrite Ha in H.
Qed.

(** ** Objects with a date *)

Lemma lookup_app_here (k : string) (v : JsValue) (before after : list (string * JsValue)) :
  lookup k before = None ->
  lookup k (before ++ (k, v) :: after) = Some v.
Proof.
  induction before as [|[k' v'] before IH]; cbn [app lookup]; intros H.
  - now rewrite String.eqb_refl.
  - destruct (String.eqb k k'); [discriminate|]. now apply IH.
Qed.

Lemma assign_app_here (k : string) (v v' : JsValue) (before after : list (string * JsValue)) :
  lookup k before = None ->
  assign k v' (before ++ (k, v) :: after) = (before ++ (k, v') :: after)%list.
Proof.
  induction before as [|[k0 v0] before IH]; cbn [app lookup assign]; intros H.
  - now rewrite String.eqb_refl.
  - destruct (String.eqb k k0); [discriminate|]. now rewrite IH.
Qed.

(** An object whose [timestamp] is a valid date and whose other properties
    JSON keeps is, after [JSON.stringify], [JSON.parse] and the reviving step
    of [loadChatHistory], the object it was. *)
Lemma dated_object_revived (before after : list (string * JsValue)) (ms : Z) :
  lookup "timestamp" before = None ->
  Forall kept_property before ->
  Forall kept_property after ->
  JsDate.in_range ms = true ->
  let v := Object (before ++ ("timestamp", DateObject (JsDate.Instant ms)) :: after) in
  exists j, stringify v = Some j /\ revive other (parse j) = Some v.
Proof.
  intros Hk Hb Ha Hr v. eexists. split; [reflexivity|].
  cbn [parse]. rewrite flat_map_app, map_app. cbn [flat_map stringify snd fst date_to_json].
  cbn [app map fst snd parse]. rewrite !members_kept by assumption.
  unfold revive, get. rewrite lookup_app_here by assumption.
  cbn [spread new_Date]. rewrite assign_app_here by assumption.
  now rewrite parse_toISOString.
Qed.

(** A storable message comes back from storage as the message it was. *)
Lemma message_revived (m : Message.t) :
  storable m = true ->
  exists j, stringify (Message.to_js m) = Some j /\
            revive other (parse j) = Some (Message.to_js m).
Proof.
  unfold storable. intros H.
  apply andb_true_iff in H as [H Hp]. apply andb_true_iff in H as [Ht Hr].
  destruct m as [id text sender timestamp confidence responseTime suggestions
                 isError products].
  cbn [Message.timestamp Message.responseTime Message.products] in *.
  destruct timestamp as [|ms]; [discriminate|].
  apply (dated_object_revived
           [("id", Str id); ("text", Str text); ("sender", Str (Sender.text sender))]).
  - reflexivity.
  - repeat constructor; apply kept_Str.
  - cbn [Message.confidence Message.responseTime Message.suggestions
         Message.isError Message.products].
    repeat first [apply Forall_app; split | apply kept_optional; intros a Ha ].
    + apply kept_Str.
    + apply kept_Number. now rewrite Ha in Hr.
    + apply kept_Array. apply Forall_map, Forall_forall. intros; apply kept_Str.
    + apply kept_Bool.
    + apply kept_Array. rewrite Ha in Hp. apply Forall_map, Forall_forall.
      intros p Hin. apply kept_product.
      now apply (proj1 (forallb_forall _ _) Hp).
  - assumption.
Qed.

Lemma messages_revived (l : list Message.t) :
  forallb storable l = true ->
  exists js, stringify (Array (map Message.to_js l)) = Some (JArray js) /\
             map_throwing (revive other) (map parse js) = Some (map Message.to_js l).
Proof.
  intros H.
  exists (map (fun x => match stringify x with Some j => j | None => JNull end)
              (map Message.to_js l)).
  split; [reflexivity|].
  induction l as [|m l IH]; [reflexivity|].
  cbn [forallb] in H. apply andb_true_iff in H as [Hm Hl].
  destruct (message_revived m Hm) as (j & Hj & Hv).
  cbn [map map_throwing]. rewrite Hj, Hv, (IH Hl). reflexivity.
Qed.

(** ** The session id *)

Lemma new_session_id_truthy (e : Entropy) : truthy_string (new_session_id e) = true.
Proof. reflexivity. Qed.

(** In a browser whose storage works, [getSessionId] leaves a session id in
    storage and returns it. *)
Lemma getSessionId_ready (e : Entropy) (b : Browser) :
  window b = true -> storage b = ReadWrite ->
  let '(sessionId, b1) := getSessionId e b in
  window b1 = true /\ storage b1 = ReadWrite /\
  sessionItem b1 = Some sessionId /\ truthy_string sessionId = true /\
  historyItem b1 = historyItem b.
Proof.
  intros Hw Hs. unfold getSessionId. rewrite Hw, Hs. cbn [negb].
  destruct (sessionItem b) as [existing|] eqn:E.
  - destruct (truthy_string existing) eqn:T; cbn; auto using new_session_id_truthy.
  - cbn. auto using new_session_id_truthy.
Qed.

(** A session id that is in storage is the one every later call returns. *)
Lemma getSessionId_existing (e : Entropy) (b : Browser) (sessionId : string) :
  window b = true -> storage b = ReadWrite ->
  sessionItem b = Some sessionId -> truthy_string sessionId = true ->
  getSessionId e b = (sessionId, b).
Proof.
  intros Hw Hs Hi Ht. unfold getSessionId. now rewrite Hw, Hs, Hi, Ht.
Qed.

Lemma forallb_skipn {A} (f : A -> bool) (n : nat) (l : list A) :
  forallb f l = true -> forallb f (skipn n l) = true.
Proof.
  revert l; induction n as [|n IH]; intros [|x l] H; cbn in *; try assumption.
  apply andb_true_iff in H as [_ H]. now apply IH.
Qed.

(** [slice(-50)] keeps the last 50 elements, all of them when there are
    fewer. *)
Lemma slice_last_length {A} (l : list A) :
  List.length (slice_last 50 l) = Nat.min 50 (List.length l).
Proof. unfold slice_last. rewrite length_skipn. lia. Qed.

Lemma slice_last_short {A} (l : list A) :
  List.length l <= 50 -> slice_last 50 l = l.
Proof.
  intros H. unfold slice_last.
  now replace (List.length l - 50) with 0 by lia.
Qed.

Lemma slice_last_suffix {A} (l : list A) :
  exists older, l = (older ++ slice_last 50 l)%list.
Proof.
  exists (firstn (List.length l - 50) l). unfold slice_last.
  now rewrite firstn_skipn.
Qed.

(** ** Saving, then loading *)

(** C7, as the code has it.  In a browser whose storage can be written, for
    a list whose last 50 messages JSON keeps (valid timestamps, and numbers
    that are finite and not negative zero), [saveChatHistory] followed by
    [loadChatHistory] returns the last 50 messages saved, all of them when
    there are fewer, each with the timestamp it was saved with. *)
Theorem save_then_load
    (e1 e2 : Entropy) (b : Browser) (messages : list Message.t) :
  window b = true ->
  storage b = ReadWrite ->
  forallb storable (slice_last 50 messages) = true ->
  fst (loadChatHistory other e2 (saveChatHistory e1 messages b))
  = map Message.to_js (slice_last 50 messages) /\
  List.length (slice_last 50 messages) = Nat.min 50 (List.length messages) /\
  exists older, messages = (older ++ slice_last 50 messages)%list.
Proof.
  intros Hw Hs Hm.
  split; [|split; [apply slice_last_length | apply slice_last_suffix]].
  unfold saveChatHistory. rewrite Hw. cbn [negb].
  pose proof (getSessionId_ready e1 b Hw Hs) as H.
  destruct (getSessionId e1 b) as [sessionId b1].
  destruct H as (Hw1 & Hs1 & Hi1 & Ht1 & _). rewrite Hs1.
  destruct (messages_revived _ Hm) as (js & Hjs & Hrev).
  unfold loadChatHistory.
  cbn [with_history window storage historyItem]. rewrite Hw1, Hs1. cbn [negb].
  unfold history_record.
  change (stringify (Object ?l)) with
    (Some (JObject (flat_map (fun kx => match stringify (snd kx) with
                                        | Some j => [(fst kx, j)]
                                        | None => []
                                        end) l))).
  cbn [flat_map snd fst app]. rewrite Hjs.
  cbn [stringify app parse map fst snd get lookup String.eqb Ascii.eqb Bool.eqb].
  rewrite (getSessionId_existing e2 _ sessionId) by assumption.
  cbn [is_string]. rewrite String.eqb_refl.
  change (parse (JArray js)) with (Array (map parse js)).
  now rewrite Hrev.
Qed.

(** ** Resetting, then loading *)

(** What [loadChatHistory] returns is empty unless the stored record carries
    the current session id. *)
Lemma load_needs_matching_session (e : Entropy) (b : Browser) :
  fst (loadChatHistory other e b) = [] \/
  exists record sessionId,
    historyItem b = Some (Some record) /\
    get (parse record) "sessionId" = Some (Str sessionId) /\
    fst (getSessionId e b) = sessionId.
Proof.
  unfold loadChatHistory.
  destruct (window b); [|left; reflexivity]. cbn [negb].
  destruct (storage b) eqn:Hs; [| |left; reflexivity].
  all: destruct (historyItem b) as [[record|]|] eqn:Hh; try (left; reflexivity).
  all: destruct (get (parse record) "sessionId") as [storedId|] eqn:Hg;
    try (left; reflexivity).
  all: destruct (getSessionId e b) as [sessionId b1] eqn:Hi.
  all: destruct storedId as [| | | |s| | |]; try (left; reflexivity).
  all: cbn [is_string]; destruct (String.eqb s sessionId) eqn:E; try (left; reflexivity).
  all: apply String.eqb_eq in E; subst s.
  all: right; exists record, sessionId; split; [reflexivity | split; [exact Hg | reflexivity]].
Qed.

(** Without a [window], and whenever storage cannot be written, be it that
    [setItem] throws or that every access does, [resetSession] changes
    nothing. *)
Lemma resetSession_without_write (e : Entropy) (b : Browser) :
  window b = false \/ storage b <> ReadWrite -> resetSession e b = b.
Proof.
  unfold resetSession. intros [H|H].
  - now rewrite H.
  - destruct (window b); [|reflexivity]. cbn [negb].
    destruct (storage b); [congruence | reflexivity | reflexivity].
Qed.

(** C8, as the code has it.  Unless [setItem] throws, [resetSession] followed
    by [loadChatHistory] returns the empty list; in a browser whose storage
    can be written [resetSession] replaces the session id by the new one and
    deletes the history record; and [loadChatHistory] never returns anything
    from a record whose session id is not the current one. *)
Theorem reset_then_load (e1 e2 : Entropy) (b : Browser) :
  storage b <> QuotaExceeded ->
  fst (loadChatHistory other e2 (resetSession e1 b)) = [] /\
  (if window b
   then match storage b with
        | ReadWrite =>
            sessionItem (resetSession e1 b) = Some (new_session_id e1) /\
            historyItem (resetSession e1 b) = None
        | _ => resetSession e1 b = b
        end
   else resetSession e1 b = b) /\
  (forall (e : Entropy) (b : Browser),
     fst (loadChatHistory other e b) = [] \/
     exists record sessionId,
       historyItem b = Some (Some record) /\
       get (parse record) "sessionId" = Some (Str sessionId) /\
       fst (getSessionId e b) = sessionId).
Proof.
  intros Hq. repeat split.
  - unfold resetSession, loadChatHistory.
    destruct (window b) eqn:Hw; cbn [negb]; [|now rewrite Hw].
    destruct (storage b) eqn:Hs; [|congruence|].
    + cbn [with_history with_session window storage historyItem]. now rewrite Hw, Hs.
    + now rewrite Hw, Hs.
  - unfold resetSession. destruct (window b); [|reflexivity].
    destruct (storage b); cbn; auto.
  - apply load_needs_matching_session.
Qed.

End ChatHistory.

Section ChatHistoryInstances.
Import Js Json Api Samples.

(** The question and the answer, saved in a browser that has never run the
    application and loaded again. *)
Lemma save_then_load_witness :
  fst (loadChatHistory no_other_date evening
         (saveChatHistory morning [question; answer] fresh_browser))
  = [Message.to_js question; Message.to_js answer].
Proof.
  apply (save_then_load no_other_date morning evening fresh_browser [question; answer]);
    reflexivity.
Defined.

(** C7 as it is worded fails, in five ways.  Without a [window] nothing is
    saved and nothing is loaded.  When [setItem] throws, the save is lost and
    the load returns what was stored before.  And in a browser whose storage
    works, the invalid date is written as [null], which [new Date] reads as
    the epoch, the number NaN is written as [null] and stays [null], and
    negative zero is written as [0] and comes back as zero.  Hence it is not
    true of every list that loading after saving returns the last 50
    messages saved. *)
Lemma loaded_history_can_differ :
  (fst (loadChatHistory no_other_date evening
          (saveChatHistory morning [answer] server)) = [] /\
   map Message.to_js (slice_last 50 [answer]) <> []) /\
  (fst (loadChatHistory no_other_date evening
          (saveChatHistory morning [question; answer] (used_browser QuotaExceeded)))
   = [Message.to_js question] /\
   map Message.to_js (slice_last 50 [question; answer]) <> [Message.to_js question]) /\
  (lookup "timestamp"
     (spread (hd Undefined
        (fst (loadChatHistory no_other_date evening
                (saveChatHistory morning [undated] fresh_browser)))))
   = Some (DateObject (JsDate.Instant 0)) /\
   lookup "timestamp" (spread (Message.to_js undated))
   = Some (DateObject JsDate.Invalid)) /\
  (lookup "responseTime"
     (spread (hd Undefined
        (fst (loadChatHistory no_other_date evening
                (saveChatHistory morning [unmeasured] fresh_browser)))))
   = Some Null /\
   lookup "responseTime" (spread (Message.to_js unmeasured))
   = Some (Number PrimFloat.nan)) /\
  (lookup "responseTime"
     (spread (hd Undefined
        (fst (loadChatHistory no_other_date evening
                (saveChatHistory morning [instant] fresh_browser)))))
   = Some (Number PrimFloat.zero) /\
   lookup "responseTime" (spread (Message.to_js instant))
   = Some (Number PrimFloat.neg_zero) /\
   storable instant = false) /\
  ~ (forall (other : JsValue -> JsDate.t) (e1 e2 : Entropy) (b : Browser)
            (messages : list Message.t),
       fst (loadChatHistory other e2 (saveChatHistory e1 messages b))
       = map Message.to_js (slice_last 50 messages)).
Proof.
  repeat split; try reflexivity; try discriminate.
  intros H. specialize (H no_other_date morning evening fresh_browser [undated]).
  discriminate H.
Qed.

(** A browser that holds a session and its history. *)
Lemma reset_then_load_witness :
  fst (loadChatHistory no_other_date evening
         (resetSession morning (used_browser ReadWrite))) = [] /\
  sessionItem (resetSession morning (used_browser ReadWrite))
  = Some "session_1700000002000_a1b2c3d4e" /\
  historyItem (resetSession morning (used_browser ReadWrite)) = None.
Proof.
  destruct (reset_then_load no_other_date morning evening (used_browser ReadWrite))
    as (H1 & H2 & _).
  - discriminate.
  - split; [exact H1 | exact H2].
Defined.

(** C8 as it is worded fails.  When [setItem] throws inside [resetSession],
    the method logs and returns before it removes the history record: the
    session id is the old one, the record is still in storage, and
    [loadChatHistory] returns its messages. *)
Lemma reset_can_leave_history :
  resetSession morning (used_browser QuotaExceeded) = used_browser QuotaExceeded /\
  fst (loadChatHistory no_other_date evening
         (resetSession morning (used_browser QuotaExceeded)))
  = [Message.to_js question] /\
  ~ (forall (other : JsValue -> JsDate.t) (e1 e2 : Entropy) (b : Browser),
       fst (loadChatHistory other e2 (resetSession e1 b)) = []).
Proof.
  repeat split; try reflexivity.
  intros H. specialize (H no_other_date morning evening (used_browser QuotaExceeded)).
  discriminate H.
Qed.

End ChatHistoryInstances.

(* ===================================================================== *)
(** * More on the intent heuristic: entities, progress, instructions *)
(* ===================================================================== *)

Section IntentEntities.
Import Js MessageProtocol.

Ltac each_unit c :=
  destruct c as [[] [] [] [] [] [] [] []].

Lemma is_digit_value (c : ascii) :
  is_digit c = true ->
  radix_value 10 c = Some (Z.of_N (code c) - 48)%Z /\
  (0 <= Z.of_N (code c) - 48 <= 9)%Z /\
  is_white_space c = false /\ is_separator c = false /\
  lower_unit c = c.
Proof.
  each_unit c; intros H; try discriminate H; vm_compute;
    repeat split; discriminate.
Qed.

Lemma digits_value_some (s : string) (a : Z) :
  (0 <= a)%Z ->
  exists v, digits_value 10 (Some a) s = Some v /\ (a <= v)%Z.
Proof.
  revert a; induction s as [|c s IH]; intros a Ha; cbn [digits_value].
  - exists a. split; [reflexivity | lia].
  - destruct (radix_value 10 c) as [v|] eqn:E.
    + assert (0 <= v)%Z.
      { unfold radix_value, hex_value in E.
        destruct ((48 <=? code c) && (code c <=? 57))%N eqn:E1.
        - apply andb_true_iff in E1 as [E1 _]. apply N.leb_le in E1.
          destruct (_ <? 10)%Z; inversion E; lia.
        - destruct ((97 <=? code c) && (code c <=? 102))%N eqn:E2.
          + apply andb_true_iff in E2 as [E2 _]. apply N.leb_le in E2.
            destruct (_ <? 10)%Z; inversion E; lia.
          + destruct ((65 <=? code c) && (code c <=? 70))%N eqn:E3; [|discriminate].
            apply andb_true_iff in E3 as [E3 _]. apply N.leb_le in E3.
            destruct (_ <? 10)%Z; inversion E; lia. }
      destruct (IH (a * 10 + v)%Z ltac:(lia)) as [w [Hw Hle]].
      exists w. split; [assumption | lia].
    + exists a. split; [reflexivity | lia].
Qed.

(** [parseInt] of a text that starts with a decimal digit, and whose second
    code unit does not make it a hexadecimal literal, is the value of its
    leading digits. *)
Lemma parseInt_digit_led (c : ascii) (s : string) :
  is_digit c = true ->
  match s with
  | String c2 _ => is_digit c2 = true \/ (c2 <> "x"%char /\ c2 <> "X"%char)
  | EmptyString => True
  end ->
  parseInt (String c s)
  = match digits_value 10 None (String c s) with Some v => Int v | None => NaN end.
Proof.
  intros Hc Hs. unfold parseInt.
  destruct (is_digit_value c Hc) as (_ & _ & Hw & _).
  cbn [trim_start]. rewrite Hw.
  assert (Hone : forall v : Z, Int (1 * v) = Int v) by (intros v; f_equal; lia).
  each_unit c; try discriminate Hc; cbv beta iota;
    try (destruct (digits_value 10 None _); [apply Hone | reflexivity]).
  destruct s as [|c2 s2].
  - reflexivity.
  - each_unit c2; cbv beta iota;
      try (destruct (digits_value 10 None _); [apply Hone | reflexivity]);
      exfalso; destruct Hs as [Hs | [Hx HX]];
      try discriminate Hs; try (now apply Hx); now apply HX.
Qed.

Lemma parseInt_digits (s : string) :
  every_unit is_digit s = true -> s <> EmptyString ->
  exists v, parseInt s = Int v /\ (0 <= v)%Z.
Proof.
  destruct s as [|c s]; [congruence|]. intros H _.
  cbn [every_unit] in H. apply andb_true_iff in H as [Hc Hs].
  rewrite parseInt_digit_led.
  - cbn [digits_value]. destruct (is_digit_value c Hc) as (-> & Hr & _).
    destruct (digits_value_some s (Z.of_N (code c) - 48)%Z ltac:(lia)) as [v [-> Hv]].
    exists v. split; [reflexivity | lia].
  - assumption.
  - destruct s as [|c2 s2]; [exact I|]. left.
    cbn [every_unit] in Hs. now apply andb_true_iff in Hs as [Hs _].
Qed.


Lemma every_unit_app (p : ascii -> bool) (a b : string) :
  every_unit p (a ++ b) = every_unit p a && every_unit p b.
Proof.
  induction a as [|c a IH]; cbn [every_unit append]; [reflexivity|].
  now rewrite IH, andb_assoc.
Qed.

Lemma every_unit_weaken (p q : ascii -> bool) (s : string) :
  (forall c, p c = true -> q c = true) ->
  every_unit p s = true -> every_unit q s = true.
Proof.
  intros Hpq. induction s as [|c s IH]; cbn [every_unit]; [reflexivity|].
  intros H. apply andb_true_iff in H as [Hc Hs].
  now rewrite (Hpq c Hc), IH.
Qed.

Lemma take_digits_digits (n : nat) (s : string) :
  every_unit is_digit (fst (take_digits n s)) = true.
Proof.
  revert s; induction n as [|n IH]; intros [|c s]; cbn [take_digits]; try reflexivity.
  destruct (is_digit c) eqn:E; [|reflexivity].
  specialize (IH s). destruct (take_digits n s) as [d r].
  cbn [fst every_unit] in *. now rewrite E, IH.
Qed.

Lemma thousands_groups_units (fuel : nat) (s : string) :
  every_unit price_unit (fst (thousands_groups fuel s)) = true.
Proof.
  revert s; induction fuel as [|fuel IH]; intros s; cbn [thousands_groups]; [reflexivity|].
  destruct (thousands_group s) as [[g r]|] eqn:E; [|reflexivity].
  specialize (IH r). destruct (thousands_groups fuel r) as [gs r']. cbn [fst] in *.
  rewrite every_unit_app, IH, andb_true_r.
  destruct s as [|c s]; [discriminate E|]. cbn [thousands_group] in E.
  destruct (is_separator c) eqn:Ec; [|discriminate E].
  pose proof (take_digits_digits 3 s) as Hd.
  destruct (take_digits 3 s) as [d r0]. cbn [fst] in Hd.
  destruct (Nat.eqb (String.length d) 3); [|discriminate E].
  injection E as <- _. cbn [every_unit]. unfold price_unit at 1.
  rewrite Ec, orb_true_r. cbn [andb].
  apply (every_unit_weaken is_digit); [|assumption].
  intros c0 H0. unfold price_unit. now rewrite H0.
Qed.

(** The pattern matches at the head of a text exactly when the text starts
    with a digit. *)
Lemma take_digits_cons (n : nat) (c : ascii) (s : string) :
  take_digits (S n) (String c s)
  = if is_digit c
    then (String c (fst (take_digits n s)), snd (take_digits n s))
    else (EmptyString, String c s).
Proof.
  change (take_digits (S n) (String c s))
    with (if is_digit c
          then let '(d, r) := take_digits n s in (String c d, r)
          else (EmptyString, String c s)).
  destruct (is_digit c); [|reflexivity]. now destruct (take_digits n s).
Qed.

Lemma price_at_none (s : string) :
  price_at s = None <->
  match s with String c _ => is_digit c = false | EmptyString => True end.
Proof.
  unfold price_at. destruct s as [|c s]; [cbn; tauto|].
  rewrite take_digits_cons. destruct (is_digit c).
  - destruct (thousands_groups _ _). split; intros H; discriminate H.
  - tauto.
Qed.

(** A match starts with a digit and holds digits and separators only. *)
Lemma price_at_shape (s m r : string) :
  price_at s = Some (m, r) ->
  exists c m', m = String c m' /\ is_digit c = true /\ every_unit price_unit m' = true.
Proof.
  unfold price_at. pose proof (take_digits_digits 3 s) as Hd.
  destruct (take_digits 3 s) as [d r0]. cbn [fst] in Hd.
  destruct d as [|c d]; [discriminate|].
  pose proof (thousands_groups_units (String.length r0) r0) as Hg.
  destruct (thousands_groups (String.length r0) r0) as [gs r']. cbn [fst] in Hg.
  intros E. injection E as <- _. exists c, (d ++ gs).
  cbn [every_unit] in Hd. apply andb_true_iff in Hd as [Hc Hd].
  repeat split; [assumption|]. rewrite every_unit_app, Hg, andb_true_r.
  apply (every_unit_weaken is_digit); [|assumption].
  intros c0 H0. unfold price_unit. now rewrite H0.
Qed.

Lemma strip_separators_digits (m : string) :
  every_unit price_unit m = true -> every_unit is_digit (strip_separators m) = true.
Proof.
  induction m as [|c m IH]; cbn [every_unit strip_separators]; [reflexivity|].
  intros H. apply andb_true_iff in H as [Hc Hm]. unfold price_unit in Hc.
  destruct (is_separator c); [now apply IH|].
  rewrite orb_false_r in Hc. cbn [every_unit]. now rewrite Hc, IH.
Qed.

(** What [parseInt] makes of a match once its separators are gone. *)
Lemma price_at_value (s m r : string) :
  price_at s = Some (m, r) ->
  exists v, parseInt (strip_separators m) = Int v /\ (0 <= v)%Z.
Proof.
  intros H. destruct (price_at_shape _ _ _ H) as (c & m' & -> & Hc & Hm).
  apply parseInt_digits.
  - cbn [strip_separators]. destruct (is_digit_value c Hc) as (_ & _ & _ & -> & _).
    cbn [every_unit]. now rewrite Hc, strip_separators_digits.
  - cbn [strip_separators]. destruct (is_digit_value c Hc) as (_ & _ & _ & -> & _).
    discriminate.
Qed.

Lemma price_matches_values (fuel : nat) (s : string) :
  Forall (fun m => exists v, parseInt (strip_separators m) = Int v /\ (0 <= v)%Z)
    (price_matches fuel s).
Proof.
  revert s; induction fuel as [|fuel IH]; intros s; cbn [price_matches]; [constructor|].
  destruct (price_at s) as [[m r]|] eqn:E.
  - constructor; [now apply (price_at_value s m r) | apply IH].
  - destruct s; [constructor | apply IH].
Qed.

(** There is a match exactly when the text holds a digit. *)
Lemma price_matches_nil (fuel : nat) (s : string) :
  String.length s < fuel ->
  (price_matches fuel s = [] <-> some_unit is_digit s = false).
Proof.
  revert s; induction fuel as [|fuel IH]; intros s Hf; [lia|].
  cbn [price_matches]. destruct (price_at s) as [[m r]|] eqn:E.
  - split; [discriminate|]. intros H. exfalso.
    destruct s as [|c s]; [discriminate E|].
    cbn [some_unit] in H. apply orb_false_iff in H as [Hc _].
    assert (price_at (String c s) = None) by (now apply price_at_none).
    congruence.
  - apply price_at_none in E. destruct s as [|c s]; [cbn; tauto|].
    cbn [some_unit]. rewrite E. cbn [orb]. apply IH. cbn [String.length] in Hf. lia.
Qed.

Lemma some_unit_digit_toLowerCase (s : string) :
  some_unit is_digit (toLowerCase s) = some_unit is_digit s.
Proof.
  induction s as [|c s IH]; cbn [some_unit toLowerCase]; [reflexivity|].
  rewrite IH. f_equal. each_unit c; reflexivity.
Qed.


(** The entities do not depend on the branch of the cascade. *)
Lemma analyzeUserIntent_entities (input : string) :
  let text := toLowerCase input in
  entities (analyzeUserIntent input)
  = {| products := None;
       brands := Some (filter (fun brand => includes text brand)
                         ["samsung"; "lg"; "sony"; "apple"; "lenovo"; "hp"; "dell"]);
       features := None;
       priceRange :=
         match match_price_pattern text with
         | Some matches =>
             let prices := map (fun p => parseInt (strip_separators p)) matches in
             Some {| min := Some (Math_min prices); max := Some (Math_max prices) |}
         | None => None
         end;
       category :=
         find (fun cat => includes text cat)
           ["televisor"; "celular"; "laptop"; "gaming"; "audio"; "electrodomestico"] |}.
Proof.
  unfold analyzeUserIntent.
  destruct (includes _ "compar" || _ || _); [reflexivity|].
  destruct (includes _ "comprar" || _ || _); [reflexivity|].
  destruct (includes _ "?" || _ || _); [reflexivity|].
  destruct (includes _ "busco" || _ || _); reflexivity.
Qed.

(** There is a price range exactly when the input holds a digit. *)
Lemma priceRange_absent (input : string) :
  priceRange (entities (analyzeUserIntent input)) = None
  <-> some_unit is_digit input = false.
Proof.
  rewrite analyzeUserIntent_entities. cbn [priceRange].
  unfold match_price_pattern. set (text := toLowerCase input).
  pose proof (price_matches_nil (S (String.length text)) text ltac:(lia)) as Hnil.
  unfold text in Hnil at 3. rewrite some_unit_digit_toLowerCase in Hnil.
  destruct (price_matches (S (String.length text)) text) as [|m ms] eqn:E.
  - tauto.
  - split; [discriminate|]. intros H. apply Hnil in H. discriminate H.
Qed.






(** ** The cascade as a whole *)

Ltac float_clash H :=
  apply (f_equal (fun x => PrimFloat.eqb x 0.7%float)) in H; vm_compute in H;
  discriminate H.

Ltac stage :=
  match goal with
  | |- context [includes ?t ?w] => destruct (includes t w) eqn:?
  end; cbn [orb existsb primary confidence].

(** The heuristic never classifies an input as [support].  An input whose
    lower-cased text contains none of the twelve trigger literals is a
    [search] with confidence 0.7, and 0.7 is the confidence of no other
    input. *)
Theorem default_intent (input : string) :
  let text := toLowerCase input in
  let intent := analyzeUserIntent input in
  let triggers :=
    ["compar"; "diferencia"; "vs"; "comprar"; "precio"; "carrito";
     "?"; "como"; "que es"; "busco"; "necesito"; "quiero"] in
  primary intent <> Primary.support /\
  (existsb (fun w => includes text w) triggers = false ->
   primary intent = Primary.search /\ confidence intent = 0.7%float) /\
  (confidence intent = 0.7%float ->
   existsb (fun w => includes text w) triggers = false).
Proof.
  cbv zeta. unfold analyzeUserIntent. set (text := toLowerCase input).
  cbn [existsb].
  repeat (stage;
          try solve [split; [discriminate|];
                     split; [discriminate | intros H; float_clash H]]).
  split; [discriminate|]. split; [split; reflexivity | reflexivity].
Qed.

Lemma lower_unit_idempotent (c : ascii) : lower_unit (lower_unit c) = lower_unit c.
Proof. each_unit c; reflexivity. Qed.

Lemma toLowerCase_idempotent (s : string) : toLowerCase (toLowerCase s) = toLowerCase s.
Proof.
  induction s as [|c s IH]; cbn [toLowerCase]; [reflexivity|].
  now rewrite lower_unit_idempotent, IH.
Qed.

(** The intent depends on the lower-cased input only, so the casing of the
    input does not change it.  The context does depend on the casing:
    [determineProgress] looks for ['comprar'] in the input as it was typed. *)
Theorem intent_ignores_case :
  (forall a b : string,
     toLowerCase a = toLowerCase b -> analyzeUserIntent a = analyzeUserIntent b) /\
  (forall input : string,
     analyzeUserIntent (toLowerCase input) = analyzeUserIntent input) /\
  (exists input : string,
     progressTowards (conversationState (snd (heuristic (toLowerCase input) None)))
     <> progressTowards (conversationState (snd (heuristic input None)))).
Proof.
  assert (H : forall a b : string,
             toLowerCase a = toLowerCase b -> analyzeUserIntent a = analyzeUserIntent b).
  { intros a b E. unfold analyzeUserIntent. now rewrite E. }
  split; [exact H|]. split.
  - intros input. apply H, toLowerCase_idempotent.
  - exists "COMPARAR Y COMPRAR". vm_compute. discriminate.
Qed.

(** The progress recorded by a turn, from the intent alone: the test of the
    raw input for ['comprar'] only matters for a [compare] intent, because an
    input that contains it is never a [search] or a [question]. *)
Theorem progress_follows_intent (input : string) (previous : option ConversationContext) :
  let '(intent, context) := heuristic input previous in
  progressTowards (conversationState context)
  = match primary intent with
    | Primary.purchase => Progress.purchase
    | Primary.compare =>
        if includes input "comprar" then Progress.purchase else Progress.comparison
    | _ => Progress.research
    end.
Proof.
  unfold heuristic, updateConversationContext.
  cbn [conversationState progressTowards]. unfold determineProgress.
  destruct (includes input "comprar") eqn:E.
  - apply includes_toLowerCase in E.
    change (toLowerCase "comprar") with "comprar" in E.
    unfold analyzeUserIntent. rewrite E.
    destruct (includes _ "compar" || _ || _); reflexivity.
  - rewrite orb_false_r.
    destruct (primary (analyzeUserIntent input)); reflexivity.
Qed.


(** ** What a search turn asks for *)

Lemma find_includes_truthy (text : string) (l : list string) :
  Forall (fun w => w <> EmptyString) l ->
  absent_string (find (fun cat => includes text cat) l)
  = negb (existsb (fun cat => includes text cat) l).
Proof.
  induction 1 as [|w l Hw Hl IH]; [reflexivity|].
  cbn [find existsb]. destruct (includes text w); [|exact IH].
  cbn [absent_string orb negb]. unfold MessageProtocol.truthy_string.
  destruct w; [congruence | reflexivity].
Qed.

(** What a search turn lists as missing: the category when none of the six
    category literals occurs in the lower-cased input, the budget when the
    input holds no digit, and the use in every case. *)
Theorem search_turn_missing_info (input : string)
    (previous : option ConversationContext) :
  primary (analyzeUserIntent input) = Primary.search ->
  let text := toLowerCase input in
  let categories :=
    ["televisor"; "celular"; "laptop"; "gaming"; "audio"; "electrodomestico"] in
  option_map missingInfo (currentSearch (snd (heuristic input previous)))
  = Some ((if existsb (fun cat => includes text cat) categories then [] else ["categoria"])
          ++ (if some_unit is_digit input then [] else ["presupuesto"])
          ++ ["uso_principal"])%list.
Proof.
  intros Hs text categories. unfold heuristic, updateConversationContext.
  cbn [snd currentSearch]. rewrite Hs. cbn [Primary.eqb option_map missingInfo].
  unfold identifyMissingInfo. rewrite Hs, analyzeUserIntent_entities.
  cbn [category priceRange features Primary.eqb no_length andb].
  fold text. f_equal. f_equal; [|f_equal].
  - rewrite find_includes_truthy.
    + fold categories. now destruct (existsb _ categories).
    + repeat constructor; discriminate.
  - destruct (priceRange_absent input) as [H1 H2].
    rewrite analyzeUserIntent_entities in H1, H2. cbn [priceRange] in H1, H2.
    fold text in H1, H2.
    destruct (match_price_pattern text);
      destruct (some_unit is_digit input); try reflexivity.
    + now specialize (H2 eq_refl).
    + now specialize (H1 eq_refl).
Qed.

Lemma search_turn_missing_info_witness :
  option_map missingInfo
    (currentSearch (snd (heuristic "Busco un televisor para la oficina" None)))
  = Some ["presupuesto"; "uso_principal"].
Proof.
  exact (search_turn_missing_info "Busco un televisor para la oficina" None eq_refl).
Defined.

(** A search turn whose input names a use stores it in the criteria under
    [uso_principal], and still lists [uso_principal] as missing: the two
    methods do not look at the same thing. *)
Theorem usage_recorded_and_still_asked (input : string)
    (previous : option ConversationContext) :
  primary (analyzeUserIntent input) = Primary.search ->
  let text := toLowerCase input in
  existsb (fun w => includes text w)
    ["trabajo"; "oficina"; "gaming"; "juego"; "estudio"; "universidad"] = true ->
  exists search usage,
    currentSearch (snd (heuristic input previous)) = Some search /\
    In ("uso_principal", CString usage) (criteria search) /\
    In usage ["trabajo"; "gaming"; "estudio"] /\
    In "uso_principal" (missingInfo search).
Proof.
  intros Hs text Hu. unfold heuristic, updateConversationContext.
  cbn [snd currentSearch]. rewrite Hs. cbn [Primary.eqb].
  assert (Hm : In "uso_principal" (identifyMissingInfo (analyzeUserIntent input))).
  { unfold identifyMissingInfo. rewrite Hs, analyzeUserIntent_features.
    rewrite !in_app_iff. right. right. now left. }
  unfold extractCriteria. cbv zeta. fold text. cbn [existsb] in Hu.
  destruct (includes text "trabajo" || includes text "oficina") eqn:E1.
  { eexists; exists "trabajo". split; [reflexivity|]. cbn [criteria missingInfo].
    rewrite !in_app_iff.
    repeat split; [right; right; now left | now left | exact Hm]. }
  destruct (includes text "gaming" || includes text "juego") eqn:E2.
  { eexists; exists "gaming". split; [reflexivity|]. cbn [criteria missingInfo].
    rewrite !in_app_iff.
    repeat split; [right; right; now left | right; now left | exact Hm]. }
  destruct (includes text "estudio" || includes text "universidad") eqn:E3.
  { eexists; exists "estudio". split; [reflexivity|]. cbn [criteria missingInfo].
    rewrite !in_app_iff.
    repeat split; [right; right; now left | right; right; now left | exact Hm]. }
  exfalso. apply orb_false_iff in E1 as [A B], E2 as [C D], E3 as [E F].
  rewrite A, B, C, D, E, F in Hu. discriminate Hu.
Qed.

Lemma usage_recorded_and_still_asked_witness :
  exists search usage,
    currentSearch (snd (heuristic "Busco un televisor para la oficina" None))
      = Some search /\
    In ("uso_principal", CString usage) (criteria search) /\
    In usage ["trabajo"; "gaming"; "estudio"] /\
    In "uso_principal" (missingInfo search).
Proof.
  apply (usage_recorded_and_still_asked "Busco un televisor para la oficina" None);
    reflexivity.
Defined.

(** ** The instruction to change the approach *)

Lemma chain_productsContext (inputs : list string)
    (previous : option ConversationContext) :
  match chain inputs previous with
  | Some c => productsContext c
  | None => None
  end = match previous with Some c => productsContext c | None => None end.
Proof.
  revert previous; induction inputs as [|input rest IH]; intros previous;
    cbn [chain]; [reflexivity|].
  rewrite IH. reflexivity.
Qed.

(** Along a chain that starts without a context no products context is ever
    set, so SUGGEST_ALTERNATIVE_APPROACH is among the instructions of a turn
    exactly from the sixth turn on. *)
Theorem alternative_suggested_from_sixth_turn (inputs : list string) (input : string) :
  let '(intent, context) := heuristic input (chain inputs None) in
  In "SUGGEST_ALTERNATIVE_APPROACH" (generateAgentInstructions context intent)
  <-> 5 <= List.length inputs.
Proof.
  pose proof (chain_turns inputs None 0 eq_refl) as Ht.
  pose proof (chain_productsContext inputs None) as Hp.
  unfold heuristic. set (previous := chain inputs None) in *.
  set (intent := analyzeUserIntent input).
  unfold generateAgentInstructions.
  assert (Hc : turnCount (conversationState
                 (updateConversationContext input intent previous))
               = Int (Z.of_nat (List.length inputs) + 1)).
  { unfold updateConversationContext. cbn [conversationState turnCount].
    destruct previous as [c|]; cbn [turns previous_turnCount] in *.
    - rewrite Ht. unfold or_else, truthy. rewrite Z.add_0_l.
      destruct (Z.of_nat (List.length inputs) =? 0)%Z eqn:E; [|reflexivity].
      apply Z.eqb_eq in E. now rewrite E.
    - injection Ht as Ht. cbn [add]. f_equal. lia. }
  rewrite Hc.
  assert (Hn : productsContext (updateConversationContext input intent previous) = None).
  { unfold updateConversationContext. cbn [productsContext].
    destruct previous; [exact Hp | reflexivity]. }
  rewrite Hn. cbn [negb andb gtb ltb]. rewrite andb_true_r.
  rewrite !in_app_iff. split.
  - intros [H | [H | H]].
    + destruct (currentSearch _) as [cs|]; [|destruct H].
      destruct (_ && _); [destruct H as [H | []]; discriminate H | destruct H].
    + destruct (5 <? _)%Z eqn:E; [apply Z.ltb_lt in E; lia | destruct H].
    + destruct (PrimFloat.ltb _ _); [destruct H as [H | []]; discriminate H | destruct H].
  - intros H. right. left.
    replace (5 <? Z.of_nat (List.length inputs) + 1)%Z with true
      by (symmetry; apply Z.ltb_lt; lia).
    now left.
Qed.

End IntentEntities.

(* ===================================================================== *)
(** * More on the retry client: runs, budgets and status codes *)
(* ===================================================================== *)

Section RetryRuns.
Import Js ChatService.

(** Every call is a number of failed rounds followed by one last attempt. *)
Lemma sendMessage_run (config : ChatServiceConfig) (script : nat -> Attempt) (r : Run) :
  exists n,
    retryCount r + n <= Nat.max (retries config) (retryCount r) /\
    (forall k, k < n ->
       exists e, makeRequest (outcome (script (attempts r + k))) = Throw e /\
                 retryable (analyzeError e) = true) /\
    let last := retried script n r in
    let a := script (attempts r + n) in
    sendMessage config script r =
    match makeRequest (outcome a) with
    | Return data =>
        (success_response data (latency a), reset (attempted a last))
    | Throw e =>
        (error_response (analyzeError e) (latency a), attempted a last)
    end /\
    match makeRequest (outcome a) with
    | Return _ => True
    | Throw e =>
        retryable (analyzeError e) = false \/ retries config <= retryCount r + n
    end.
Proof.
  remember (retries config - retryCount r) as budget eqn:Hb.
  revert r Hb. induction budget as [budget IH] using lt_wf_ind. intros r Hb.
  assert (Hclock : forall a : Attempt, (clock (attempted a r) - clock r = latency a)%N)
    by (intros a; cbn [attempted clock]; lia).
  destruct (makeRequest (outcome (script (attempts r)))) as [data|e] eqn:E.
  - exists 0. rewrite !Nat.add_0_r. cbn [retried].
    split; [lia|]. split; [intros k Hk; lia|]. cbv zeta.
    rewrite sendMessage_eq. cbv zeta. rewrite E, Hclock. split; [reflexivity | exact I].
  - destruct (retryable (analyzeError e) && (retryCount r <? retries config)%nat) eqn:T.
    + apply andb_true_iff in T as [Tr Tc]. pose proof Tc as Tlt. apply Nat.ltb_lt in Tlt.
      set (r1 := backed_off (script (attempts r)) (attempted (script (attempts r)) r)).
      destruct (IH (retries config - retryCount r1)
                  ltac:(subst budget r1; cbn; lia) r1 eq_refl)
        as (n & Hn & Hfail & Hsend & Hlast).
      assert (Ha : attempts r1 = S (attempts r)) by reflexivity.
      assert (Hc : retryCount r1 = S (retryCount r)) by reflexivity.
      exists (S n). rewrite Ha, Hc in *.
      replace (S (attempts r) + n) with (attempts r + S n) in * by lia.
      split; [lia|]. split.
      * intros k Hk. destruct k as [|k].
        -- exists e. rewrite Nat.add_0_r. now split.
        -- destruct (Hfail k ltac:(lia)) as (e' & He' & Hr').
           exists e'. split; [|assumption].
           now replace (attempts r + S k) with (S (attempts r) + k) by lia.
      * cbv zeta in *. cbn [retried]. fold r1.
        rewrite sendMessage_eq. cbv zeta. rewrite E, Tr, Tc. cbn [andb]. fold r1.
        split; [exact Hsend|].
        destruct (makeRequest (outcome (script (attempts r + S n)))); [exact I|].
        destruct Hlast; [now left | right; lia].
    + exists 0. rewrite !Nat.add_0_r. cbn [retried].
      split; [lia|]. split; [intros k Hk; lia|]. cbv zeta.
      rewrite sendMessage_eq. cbv zeta. rewrite E, T, Hclock.
      split; [reflexivity|].
      apply andb_false_iff in T as [T|T]; [now left|].
      right. apply Nat.ltb_ge in T. lia.
Qed.


Lemma sendMessage_shape (config : ChatServiceConfig) (script : nat -> Attempt) (r : Run) :
  exists n,
    retryCount r + n <= Nat.max (retries config) (retryCount r) /\
    attempts (snd (sendMessage config script r)) = attempts r + n + 1 /\
    log (snd (sendMessage config script r))
    = Attempted (clock (retried script n r)) :: log (retried script n r) /\
    clock (snd (sendMessage config script r))
    = (clock (retried script n r) + latency (script (attempts r + n)%nat))%N /\
    match makeRequest (outcome (script (attempts r + n))) with
    | Return data =>
        fst (sendMessage config script r)
        = success_response data (latency (script (attempts r + n))) /\
        retryCount (snd (sendMessage config script r)) = 0
    | Throw e =>
        fst (sendMessage config script r)
        = error_response (analyzeError e) (latency (script (attempts r + n))) /\
        retryCount (snd (sendMessage config script r)) = retryCount r + n /\
        (retryable (analyzeError e) = false \/ retries config <= retryCount r + n)
    end.
Proof.
  destruct (sendMessage_run config script r) as (n & Hn & _ & Hsend & Hlast).
  exists n. split; [exact Hn|]. cbv zeta in Hsend, Hlast. rewrite Hsend.
  pose proof (retried_attempts script n r) as Ha.
  pose proof (retried_retryCount script n r) as Hc.
  destruct (makeRequest (outcome (script (attempts r + n)))) as [data|e];
    cbn [fst snd attempts reset attempted log clock retryCount]; rewrite ?Ha, ?Hc;
    repeat split; try reflexivity; try lia; assumption.
Qed.


(** The response time a call reports is the duration of its last attempt
    alone: the start time is taken anew in every recursive call, so neither
    the earlier attempts nor the backoff delays are counted.  The call
    itself took at least that attempt and what [delay] waits of the delays
    requested, which is all of them when each is within the range of a
    timer. *)
Theorem response_time_of_last_attempt
    (config : ChatServiceConfig) (script : nat -> Attempt) (r : Run) :
  let '(response, r') := sendMessage config script r in
  let last := script (attempts r' - 1) in
  let delays :=
    map backoff_delay (seq (S (retryCount r)) (attempts r' - attempts r - 1)) in
  responseTime response = Int (Z.of_N (latency last)) /\
  (clock r + total (map delay delays) + latency last <= clock r')%N /\
  (Forall (fun ms => (ms <= TIMEOUT_MAX)%N) delays ->
   (clock r + total delays + latency last <= clock r')%N).
Proof.
  destruct (sendMessage_shape config script r) as (n & Hn & Ha & _ & Hc & Hlast).
  destruct (sendMessage config script r) as [response r']. cbn [fst snd] in *.
  cbv zeta. rewrite Ha, Hc.
  replace (attempts r + n + 1 - attempts r - 1) with n by lia.
  replace (attempts r + n + 1 - 1) with (attempts r + n) by lia.
  pose proof (retried_clock script n r) as Hclock.
  split; [|split; [lia|]].
  - destruct (makeRequest (outcome (script (attempts r + n))));
      destruct Hlast as [-> _]; reflexivity.
  - intros Hrange. rewrite delays_in_range in Hclock by assumption. lia.
Qed.

(** The call returns what its last attempt met, for every transport whose
    failures are values of [Thrown]: errors, or values that [analyzeError]
    can print.  It returns an error only when that error is not retryable or
    the counter has reached the maximum, and it returns a success with the
    counter set to zero. *)
Theorem error_only_when_final
    (config : ChatServiceConfig) (script : nat -> Attempt) (r : Run) :
  let '(response, r') := sendMessage config script r in
  let last := script (attempts r' - 1) in
  match makeRequest (outcome last) with
  | Return data =>
      response = success_response data (latency last) /\ retryCount r' = 0
  | Throw e =>
      response = error_response (analyzeError e) (latency last) /\
      (retryable (analyzeError e) = false \/ retries config <= retryCount r')
  end.
Proof.
  destruct (sendMessage_shape config script r) as (n & Hn & Ha & _ & _ & Hlast).
  destruct (sendMessage config script r) as [response r']. cbn [fst snd] in *.
  cbv zeta. rewrite Ha.
  replace (attempts r + n + 1 - 1) with (attempts r + n) by lia.
  destruct (makeRequest (outcome (script (attempts r + n)))).
  - exact Hlast.
  - destruct Hlast as (H1 & H2 & H3). split; [exact H1|]. rewrite H2. exact H3.
Qed.

(** ** Failures that are never retried *)

(** A response with a success status whose body lacks the [message] string
    ends the call at once: it is a validation failure without a status code,
    whatever the retry budget is. *)
Theorem unreadable_answer_not_retried
    (config : ChatServiceConfig) (script : nat -> Attempt) (r : Run)
    (status : Z) (statusText : string) :
  ok status = true ->
  outcome (script (attempts r)) = Responded status statusText (Json None) ->
  let '(response, r') := sendMessage config script r in
  attempts r' = S (attempts r) /\ retryCount r' = retryCount r /\
  waits (log r') = waits (log r) /\
  success response = false /\
  exists e, error response = Some e /\
            type e = ErrorType.validation /\ retryable e = false /\
            statusCode e = None /\
            technicalMessage e = "INVALID_RESPONSE: Missing required fields".
Proof.
  intros Hok Ho. rewrite sendMessage_eq. cbv zeta. rewrite Ho.
  cbn [makeRequest]. rewrite Hok. cbn [negb].
  change (analyzeError (ErrorObject "Error" "INVALID_RESPONSE: Missing required fields"))
    with {| type := ErrorType.validation;
            statusCode := None;
            retryable := false;
            userMessage :=
              "🔄 Respuesta del servidor inválida. El equipo técnico fue notificado.";
            technicalMessage := "INVALID_RESPONSE: Missing required fields" |}.
  cbn [retryable andb]. repeat split. eexists. repeat split.
Qed.

Lemma unreadable_answer_not_retried_witness :
  let config := {| baseUrl := "https://api.example"; timeout := 30000; retries := 3 |} in
  let script := fun _ : nat =>
    {| outcome := Responded 200 "OK" (Json None); latency := 40; oversleep := 0 |} in
  let r := {| retryCount := 0; attempts := 0; clock := 0; log := [] |} in
  let '(response, r') := sendMessage config script r in
  attempts r' = 1 /\ retryCount r' = 0 /\
  waits (log r') = [] /\
  success response = false /\
  exists e, error response = Some e /\
            type e = ErrorType.validation /\ retryable e = false /\
            statusCode e = None /\
            technicalMessage e = "INVALID_RESPONSE: Missing required fields".
Proof.
  intros config script r.
  exact (unreadable_answer_not_retried config script r 200 "OK" eq_refl eq_refl).
Defined.

(** What [analyzeError] lets be retried: network failures, the status 429
    and statuses from 500 on.  For an error that carries a status code,
    [retryable] is exactly the test for 429 or at least 500, and a server
    failure that is retried always carries the text of the branch for
    statuses from 500 on: the last branch for other statuses is never
    reached with such a status, so its own test of it is always false.  A
    validation or unknown failure is never retryable.  A thrown value that
    is not an [Error] is always unknown, with the text it prints or, when it
    is nullish or prints nothing, with [Unknown error]. *)
Theorem retryable_error_types (error : Thrown) :
  let e := analyzeError error in
  (retryable e = true ->
   type e = ErrorType.network \/
   (type e = ErrorType.rate_limit /\ statusCode e = Some (Int 429)) \/
   (type e = ErrorType.server /\
    (exists code, statusCode e = Some code /\ geb code (Int 500) = true) /\
    userMessage e = "🔧 Problema temporal en nuestros servidores. Reintentando...")) /\
  (forall code, statusCode e = Some code ->
     retryable e = strict_eq code (Int 429) || geb code (Int 500)) /\
  (type e = ErrorType.validation \/ type e = ErrorType.unknown -> retryable e = false) /\
  (match error with
   | OtherValue text =>
       type e = ErrorType.unknown /\
       technicalMessage e
       = match text with
         | Some t => if String.eqb t EmptyString then "Unknown error" else t
         | None => "Unknown error"
         end
   | ErrorObject _ _ => True
   end).
Proof.
  cbv zeta. destruct error as [name message|text]; cbn [analyzeError].
  2: { repeat split; try discriminate; reflexivity. }
  destruct (includes message "fetch" || includes message "NetworkError").
  { cbn. repeat split; try tauto; try discriminate. intros [H|H]; discriminate H. }
  destruct (includes message "HTTP_").
  - set (code := match nth_error (split message "HTTP_") 1 with
                 | Some piece => parseInt piece
                 | None => NaN
                 end).
    destruct (strict_eq code (Int 429)) eqn:E429.
    { cbn [type retryable statusCode userMessage].
      repeat split; try (intros [H|H]; discriminate H).
      - intros _. right. left.
        split; [reflexivity|]. destruct code; try discriminate E429.
        cbn in E429. apply Z.eqb_eq in E429. now subst.
      - intros c Hc. injection Hc as <-. now rewrite E429. }
    destruct (geb code (Int 500)) eqn:E500.
    { cbn [type retryable statusCode userMessage].
      repeat split; try (intros [H|H]; discriminate H).
      - intros _. right. right.
        split; [reflexivity|]. split; [now exists code | reflexivity].
      - intros c Hc. injection Hc as <-. now rewrite E429, E500. }
    assert (Hcode : forall c, Some code = Some c ->
                      false = strict_eq c (Int 429) || geb c (Int 500)).
    { intros c Hc. injection Hc as <-. now rewrite E429, E500. }
    destruct (strict_eq code (Int 400)).
    { cbn [type retryable statusCode userMessage].
      repeat split; try discriminate; try reflexivity; exact Hcode. }
    destruct (strict_eq code (Int 404)).
    { cbn [type retryable statusCode userMessage].
      repeat split; try discriminate; try (intros [H|H]; discriminate H); exact Hcode. }
    cbn [type retryable statusCode userMessage].
    repeat split; try discriminate; try reflexivity; exact Hcode.
  - destruct (includes message "aborted" || includes message "timeout").
    { cbn. repeat split; try tauto; try discriminate. intros [H|H]; discriminate H. }
    destruct (includes message "INVALID_RESPONSE");
      cbn; repeat split; try discriminate; reflexivity.
Qed.

End RetryRuns.

Section DecimalText.
Import Js.


Ltac digit_value :=
  cbn [digits_value];
  match goal with
  | |- context [radix_value 10 ?c] =>
      let v := eval vm_compute in (radix_value 10 c) in
      change (radix_value 10 c) with v
  end; cbv iota beta.

Lemma digits_value_uint_acc (d : Decimal.uint) (acc : positive) (t : string) :
  digits_value 10 (Some (Z.pos acc)) (NilEmpty.string_of_uint d ++ String ":" t)
  = Some (Z.pos (Pos.of_uint_acc d acc)).
Proof.
  revert acc; induction d; intros acc;
    cbn [NilEmpty.string_of_uint append Pos.of_uint_acc];
    [reflexivity| ..];
    digit_value; rewrite <- IHd; do 2 f_equal; lia.
Qed.

Lemma digits_value_uint_zero (d : Decimal.uint) (t : string) :
  digits_value 10 (Some 0%Z) (NilEmpty.string_of_uint d ++ String ":" t)
  = Some (Z.of_N (Pos.of_uint d)).
Proof.
  induction d; cbn [NilEmpty.string_of_uint append Pos.of_uint];
    [reflexivity | digit_value; exact IHd | ..];
    digit_value; cbn [Z.mul Z.add Z.of_N]; apply digits_value_uint_acc.
Qed.

Lemma digits_value_uint (d : Decimal.uint) (t : string) :
  d <> Decimal.Nil ->
  digits_value 10 None (NilEmpty.string_of_uint d ++ String ":" t)
  = Some (Z.of_N (Pos.of_uint d)).
Proof.
  destruct d; intros H; [congruence | ..];
    cbn [NilEmpty.string_of_uint append Pos.of_uint]; digit_value;
    first [apply digits_value_uint_zero | cbn [Z.of_N]; apply digits_value_uint_acc].
Qed.

Lemma to_uint_not_nil (p : positive) : Pos.to_uint p <> Decimal.Nil.
Proof.
  intros H. pose proof (DecimalPos.Unsigned.of_to p) as E. rewrite H in E. discriminate E.
Qed.

(** The decimal text of an integer that is not negative: digits only, at
    least one, and read back by [digits_value] as the integer. *)
Lemma string_of_Z_digits (z : Z) :
  (0 <= z)%Z ->
  exists d, d <> Decimal.Nil /\ string_of_Z z = NilEmpty.string_of_uint d /\
            Z.of_N (Pos.of_uint d) = z.
Proof.
  intros Hz. unfold string_of_Z. destruct z as [|p|p]; [| |lia].
  - exists (Decimal.D0 Decimal.Nil). repeat split. discriminate.
  - exists (Pos.to_uint p). split; [apply to_uint_not_nil|]. split.
    + cbn [Z.to_int NilZero.string_of_int]. unfold NilZero.string_of_uint.
      pose proof (to_uint_not_nil p). destruct (Pos.to_uint p); congruence.
    + now rewrite DecimalPos.Unsigned.of_to.
Qed.


Lemma uint_text_digits (d : Decimal.uint) :
  every_unit is_digit (NilEmpty.string_of_uint d) = true.
Proof. induction d; cbn [NilEmpty.string_of_uint every_unit]; auto. Qed.

(** ** Skipping what cannot start an occurrence *)

Lemma includes_skip (c a : ascii) (s w : string) :
  a <> c -> includes (String c s) (String a w) = includes s (String a w).
Proof.
  intros H. change (includes (String c s) (String a w))
    with (String.prefix (String a w) (String c s) || includes s (String a w)).
  cbn [String.prefix]. destruct (Ascii.ascii_dec a c); [contradiction | reflexivity].
Qed.

Lemma includes_skip_digits (d t : string) (a : ascii) (w : string) :
  every_unit is_digit d = true -> is_digit a = false ->
  includes (d ++ t) (String a w) = includes t (String a w).
Proof.
  intros Hd Ha. induction d as [|c d IH]; [reflexivity|].
  cbn [every_unit] in Hd. apply andb_true_iff in Hd as [Hc Hd].
  cbn [append]. rewrite includes_skip; [now apply IH|].
  intros ->. congruence.
Qed.

Lemma first_piece_skip (c a : ascii) (s w : string) :
  a <> c ->
  first_piece (String a w) (String c s) = String c (first_piece (String a w) s).
Proof.
  intros H. unfold first_piece. cbn [split_first String.prefix].
  destruct (Ascii.ascii_dec a c); [contradiction|].
  now destruct (split_first (String a w) s) as [[b r]|].
Qed.

Lemma first_piece_skip_digits (d t : string) (a : ascii) (w : string) :
  every_unit is_digit d = true -> is_digit a = false ->
  first_piece (String a w) (d ++ t) = d ++ first_piece (String a w) t.
Proof.
  intros Hd Ha. induction d as [|c d IH]; [reflexivity|].
  cbn [every_unit] in Hd. apply andb_true_iff in Hd as [Hc Hd].
  cbn [append]. rewrite first_piece_skip; [now rewrite IH|].
  intros ->. congruence.
Qed.

Lemma split_second_piece (f : nat) (sep s before rest : string) :
  split_first sep s = Some (before, rest) ->
  nth_error (split_fuel (S (S f)) sep s) 1 = Some (first_piece sep rest).
Proof.
  intros H.
  change (split_fuel (S (S f)) sep s)
    with (match split_first sep s with
          | Some (before, after) => before :: split_fuel (S f) sep after
          | None => [s]
          end).
  rewrite H. cbn [nth_error].
  change (split_fuel (S f) sep rest)
    with (match split_first sep rest with
          | Some (before, after) => before :: split_fuel f sep after
          | None => [rest]
          end).
  unfold first_piece. now destruct (split_first sep rest) as [[b r]|].
Qed.

End DecimalText.

Section StatusCodes.
Import Js ChatService.

(** The message [makeRequest] throws for a status that is not a success. *)
Lemma status_message (status : Z) (statusText : string) :
  (0 <= status)%Z ->
  includes statusText "fetch" = false ->
  includes statusText "NetworkError" = false ->
  let message := "HTTP_" ++ string_of_Z status ++ ": " ++ statusText in
  includes message "fetch" = false /\
  includes message "NetworkError" = false /\
  includes message "HTTP_" = true /\
  match nth_error (split message "HTTP_") 1 with
  | Some piece => parseInt piece
  | None => NaN
  end = Int status.
Proof.
  intros Hz Hf Hn message.
  destruct (string_of_Z_digits status Hz) as (d & Hd & Htext & Hvalue).
  pose proof (uint_text_digits d) as Hdigits.
  assert (Hhead : exists c ds, NilEmpty.string_of_uint d = String c ds)
    by (destruct d; [congruence | ..]; eexists _, _; reflexivity).
  subst message. rewrite Htext.
  repeat split.
  - cbn [append]. rewrite !includes_skip by discriminate.
    rewrite includes_skip_digits by (assumption || reflexivity).
    cbn [append]. now rewrite !includes_skip by discriminate.
  - cbn [append]. rewrite !includes_skip by discriminate.
    rewrite includes_skip_digits by (assumption || reflexivity).
    cbn [append]. now rewrite !includes_skip by discriminate.
  - destruct Hhead as (c & ds & ->). reflexivity.
  - unfold split.
    assert (Hpiece : nth_error
              (split_fuel (String.length ("HTTP_" ++ NilEmpty.string_of_uint d ++ ": " ++ statusText))
                 "HTTP_" ("HTTP_" ++ NilEmpty.string_of_uint d ++ ": " ++ statusText)) 1
            = Some (first_piece "HTTP_" (NilEmpty.string_of_uint d ++ ": " ++ statusText))).
    { destruct Hhead as (c & ds & ->).
      set (rest := String c ds ++ ": " ++ statusText).
      change ("HTTP_" ++ rest)
        with (String "H" (String "T" (String "T" (String "P" (String "_" rest))))).
      apply (split_second_piece _ _ _ EmptyString). reflexivity. }
    rewrite Hpiece.
    rewrite first_piece_skip_digits by (assumption || reflexivity).
    cbn [append]. rewrite !first_piece_skip by discriminate.
    pose proof (digits_value_uint d
                  (String " " (first_piece "HTTP_" statusText)) Hd) as Hv.
    destruct Hhead as (c & ds & E). rewrite E in *.
    cbn [every_unit] in Hdigits. apply andb_true_iff in Hdigits as [Hc Hds].
    cbn [append] in *. rewrite parseInt_digit_led.
    + rewrite Hv. now rewrite Hvalue.
    + assumption.
    + destruct ds as [|c2 ds]; cbn [append].
      * right. split; discriminate.
      * left. cbn [every_unit] in Hds. now apply andb_true_iff in Hds as [Hds _].
Qed.

(** The classification of a response by its status, for every status that
    is not a success and every status text that names neither [fetch] nor
    [NetworkError]: the status code is read back from the message, 429 is a
    rate limit, 400 a validation failure, everything else a server failure,
    and exactly 429 and the statuses from 500 on are retried. *)
Theorem http_status_classification
    (status : Z) (statusText : string) (body : Body) :
  (0 <= status)%Z -> ok status = false ->
  includes statusText "fetch" = false ->
  includes statusText "NetworkError" = false ->
  exists message,
    makeRequest (Responded status statusText body) = Throw (ErrorObject "Error" message) /\
    let e := analyzeError (ErrorObject "Error" message) in
    statusCode e = Some (Int status) /\
    technicalMessage e = message /\
    type e = (if (status =? 429)%Z then ErrorType.rate_limit
              else if (status =? 400)%Z then ErrorType.validation
              else ErrorType.server) /\
    retryable e = ((status =? 429)%Z || (500 <=? status)%Z).
Proof.
  intros Hz Hok Hf Hn. eexists. split.
  { cbn [makeRequest]. rewrite Hok. reflexivity. }
  destruct (status_message status statusText Hz Hf Hn) as (H1 & H2 & H3 & H4).
  cbv zeta in *. cbn [analyzeError]. rewrite H1, H2, H3, H4. cbn [orb strict_eq geb leb].
  destruct (status =? 429)%Z eqn:E429; [repeat split|].
  destruct (500 <=? status)%Z eqn:E500.
  { apply Z.leb_le in E500.
    replace (status =? 400)%Z with false by (symmetry; apply Z.eqb_neq; lia).
    repeat split. }
  destruct (status =? 400)%Z; [repeat split|].
  destruct (status =? 404)%Z; [repeat split|].
  repeat split.
Qed.

Lemma http_status_classification_witness :
  exists message,
    makeRequest (Responded 503 "Service Unavailable" (Json None))
    = Throw (ErrorObject "Error" message) /\
    let e := analyzeError (ErrorObject "Error" message) in
    statusCode e = Some (Int 503) /\
    technicalMessage e = message /\
    type e = ErrorType.server /\
    retryable e = true.
Proof.
  apply (http_status_classification 503 "Service Unavailable" (Json None));
    [lia | reflexivity | reflexivity | reflexivity].
Defined.

End StatusCodes.

(* ===================================================================== *)
(** * More on the session and the stored history *)
(* ===================================================================== *)

Section SessionStorage.
Import Js Json Api.

Variable other : JsValue -> JsDate.t.

(** ** The session id *)

(** In a browser whose storage works, the session id that [getSessionId]
    returns is the one every later call returns, whatever the clock and the
    random source give then; it is not empty, and it is the stored id or a
    new one. *)
Theorem session_id_stable (e1 e2 : Entropy) (b : Browser) :
  window b = true -> storage b = ReadWrite ->
  let '(sessionId, b1) := getSessionId e1 b in
  getSessionId e2 b1 = (sessionId, b1) /\
  truthy_string sessionId = true /\
  (sessionItem b = Some sessionId \/ sessionId = new_session_id e1).
Proof.
  intros Hw Hs. pose proof (getSessionId_ready e1 b Hw Hs) as H.
  assert (Ho : sessionItem b = Some (fst (getSessionId e1 b))
               \/ fst (getSessionId e1 b) = new_session_id e1).
  { unfold getSessionId. rewrite Hw, Hs. cbn [negb].
    destruct (sessionItem b) as [existing|]; [|now right].
    destruct (truthy_string existing); [now left | now right]. }
  destruct (getSessionId e1 b) as [sessionId b1].
  destruct H as (Hw1 & Hs1 & Hi1 & Ht1 & _).
  split; [now apply getSessionId_existing|]. split; assumption.
Qed.

Lemma string_of_Z_injective (x y : Z) : string_of_Z x = string_of_Z y -> x = y.
Proof.
  unfold string_of_Z. intros H.
  assert (Hn : forall z, Z.to_int z <> Decimal.Pos Decimal.Nil
                         /\ Z.to_int z <> Decimal.Neg Decimal.Nil).
  { intros [|p|p]; cbn [Z.to_int]; split; try discriminate;
      intros E; injection E as E;
      pose proof (DecimalPos.Unsigned.of_to p) as E'; rewrite E in E'; discriminate E'. }
  apply DecimalZ.to_int_inj.
  assert (E : Some (Z.to_int x) = Some (Z.to_int y)).
  { rewrite <- (NilZero.isi (Z.to_int x)) by apply Hn.
    rewrite <- (NilZero.isi (Z.to_int y)) by apply Hn. now rewrite H. }
  now injection E.
Qed.

(** In a browser whose storage cannot be accessed, every call of
    [getSessionId] makes a temporary id from the clock and keeps nothing:
    calls at different times return different ids, and neither saving nor
    loading does anything. *)
Theorem temporary_session_ids (b : Browser) :
  window b = true -> storage b = Blocked ->
  (forall e, getSessionId e b = ("temp_" ++ string_of_Z (now e), b)) /\
  (forall e e', now e <> now e' -> fst (getSessionId e b) <> fst (getSessionId e' b)) /\
  (forall e messages, saveChatHistory e messages b = b) /\
  (forall e, loadChatHistory other e b = ([], b)).
Proof.
  intros Hw Hs.
  assert (H : forall e, getSessionId e b = ("temp_" ++ string_of_Z (now e), b)).
  { intros e. unfold getSessionId. now rewrite Hw, Hs. }
  repeat split.
  - exact H.
  - intros e e' Hne. rewrite !H. cbn [fst]. intros E.
    apply Hne, string_of_Z_injective. cbn [append] in E. now injection E.
  - intros e messages. unfold saveChatHistory. now rewrite Hw, H, Hs.
  - intros e. unfold loadChatHistory. now rewrite Hw, Hs.
Qed.


(** ** Loading *)

(** [loadChatHistory] never writes the history record, and when there is no
    record, or one that is not JSON, it returns the empty list without
    creating a session id. *)
Theorem load_leaves_storage (e : Entropy) (b : Browser) :
  let '(messages, b1) := loadChatHistory other e b in
  historyItem b1 = historyItem b /\ window b1 = window b /\ storage b1 = storage b /\
  match historyItem b with
  | Some (Some _) => True
  | _ => messages = [] /\ b1 = b
  end.
Proof.
  unfold loadChatHistory.
  destruct (window b) eqn:Hw; cbn [negb]; [|rewrite Hw; now destruct (historyItem b) as [[|]|]].
  destruct (storage b) eqn:Hs;
    try (rewrite Hw, Hs; now destruct (historyItem b) as [[|]|]).
  all: destruct (historyItem b) as [[stored|]|] eqn:Hh;
    try (rewrite Hw, Hs, Hh; now repeat split).
  all: assert (Hg : historyItem (snd (getSessionId e b)) = Some (Some stored)
                    /\ window (snd (getSessionId e b)) = true
                    /\ storage (snd (getSessionId e b)) = storage b)
    by (unfold getSessionId; rewrite Hw, Hs; cbn [negb];
        destruct (sessionItem b) as [existing|];
        [destruct (truthy_string existing)|]; cbn; rewrite ?Hh, ?Hw, ?Hs; auto).
  all: destruct (get (parse stored) "sessionId") as [storedId|];
    [|rewrite Hw, Hs, Hh; now repeat split].
  all: destruct (getSessionId e b) as [sessionId b1]; cbn [snd] in Hg;
    destruct Hg as (G1 & G2 & G3); rewrite Hs in G3.
  all: destruct (is_string storedId sessionId); [|now repeat split].
  all: destruct (get (parse stored) "messages") as [[| | | | | |items|]|];
    try (now repeat split).
  all: destruct (map_throwing (revive other) items); now repeat split.
Qed.

(** ** Saving *)

Lemma saveChatHistory_ready (e : Entropy) (messages : list Message.t) (b : Browser) :
  window b = true -> storage b = ReadWrite ->
  saveChatHistory e messages b
  = with_history (snd (getSessionId e b))
      (Some (stringify (history_record (fst (getSessionId e b)) messages e))).
Proof.
  intros Hw Hs. unfold saveChatHistory. rewrite Hw. cbn [negb].
  pose proof (getSessionId_ready e b Hw Hs) as H.
  destruct (getSessionId e b) as [sessionId b1].
  destruct H as (_ & -> & _). reflexivity.
Qed.

(** What is in storage after a save. *)
Lemma saveChatHistory_stored (e : Entropy) (messages : list Message.t) (b : Browser) :
  window b = true -> storage b = ReadWrite ->
  let b' := saveChatHistory e messages b in
  window b' = true /\ storage b' = ReadWrite /\
  sessionItem b' = Some (fst (getSessionId e b)) /\
  truthy_string (fst (getSessionId e b)) = true /\
  historyItem b'
  = Some (stringify (history_record (fst (getSessionId e b)) messages e)).
Proof.
  intros Hw Hs. cbv zeta. rewrite saveChatHistory_ready by assumption.
  pose proof (getSessionId_ready e b Hw Hs) as H.
  destruct (getSessionId e b) as [sessionId b1].
  destruct H as (H1 & H2 & H3 & H4 & _). now repeat split.
Qed.

(** The record of a save, read by a browser that holds its session id. *)
Lemma stored_record_loads (e1 e2 : Entropy) (b : Browser) (sessionId : string)
    (messages : list Message.t) (items : list JsValue) :
  window b = true -> storage b = ReadWrite ->
  sessionItem b = Some sessionId -> truthy_string sessionId = true ->
  historyItem b = Some (stringify (history_record sessionId messages e1)) ->
  map_throwing (revive other)
    (map parse (map (fun x => match stringify x with Some j => j | None => JNull end)
                  (map Message.to_js (slice_last 50 messages)))) = Some items ->
  loadChatHistory other e2 b = (items, b).
Proof.
  intros Hw Hs Hi Ht Hh Hrev. unfold loadChatHistory.
  rewrite Hw, Hs, Hh. cbn [negb]. unfold history_record.
  change (stringify (Object ?l)) with
    (Some (JObject (flat_map (fun kx => match stringify (snd kx) with
                                        | Some j => [(fst kx, j)]
                                        | None => []
                                        end) l))).
  cbn [flat_map snd fst app].
  change (stringify (Array ?l)) with
    (Some (JArray (map (fun x => match stringify x with Some j => j | None => JNull end) l))).
  cbn [stringify app parse map fst snd get lookup String.eqb Ascii.eqb Bool.eqb].
  rewrite (getSessionId_existing e2 b sessionId) by assumption.
  cbn [is_string]. rewrite String.eqb_refl.
  change (parse (JArray ?js)) with (Array (map parse js)).
  now rewrite Hrev.
Qed.

Lemma storable_revived (l : list Message.t) :
  forallb storable l = true ->
  map_throwing (revive other)
    (map parse (map (fun x => match stringify x with Some j => j | None => JNull end)
                  (map Message.to_js l)))
  = Some (map Message.to_js l).
Proof.
  intros H. destruct (messages_revived other l H) as (js & Hjs & Hrev).
  cbn [stringify] in Hjs. injection Hjs as <-. exact Hrev.
Qed.

(** Of two saves in a row the second one is the one that is loaded, and it
    is stored under the session id of the first. *)
Theorem last_save_wins (e1 e2 e3 : Entropy) (b : Browser)
    (first second : list Message.t) :
  window b = true -> storage b = ReadWrite ->
  forallb storable (slice_last 50 second) = true ->
  let b1 := saveChatHistory e1 first b in
  let b2 := saveChatHistory e2 second b1 in
  fst (loadChatHistory other e3 b2) = map Message.to_js (slice_last 50 second) /\
  sessionItem b2 = sessionItem b1.
Proof.
  intros Hw Hs Hm b1 b2.
  destruct (saveChatHistory_stored e1 first b Hw Hs) as (Hw1 & Hs1 & Hi1 & Ht1 & _).
  fold b1 in Hw1, Hs1, Hi1.
  destruct (saveChatHistory_stored e2 second b1 Hw1 Hs1) as (Hw2 & Hs2 & Hi2 & Ht2 & Hh2).
  fold b2 in Hw2, Hs2, Hi2, Hh2.
  rewrite (getSessionId_existing e2 b1 _ Hw1 Hs1 Hi1 Ht1) in Hi2, Hh2. cbn [fst] in Hi2, Hh2.
  split; [|congruence].
  erewrite stored_record_loads; try eassumption; [reflexivity|].
  now apply storable_revived.
Qed.

(** After a reset in a browser whose storage works, the history is gone,
    and a save followed by a load works under the new session id: for a list
    whose last 50 messages JSON keeps, the load returns them. *)
Theorem save_after_reset (e1 e2 e3 : Entropy) (b : Browser) (messages : list Message.t) :
  window b = true -> storage b = ReadWrite ->
  forallb storable (slice_last 50 messages) = true ->
  let b1 := resetSession e1 b in
  let b2 := saveChatHistory e2 messages b1 in
  historyItem b1 = None /\
  sessionItem b2 = Some (new_session_id e1) /\
  fst (loadChatHistory other e3 b2) = map Message.to_js (slice_last 50 messages).
Proof.
  intros Hw Hs Hm b1 b2.
  assert (E1 : b1 = with_history (with_session b (new_session_id e1)) None)
    by (unfold b1, resetSession; now rewrite Hw, Hs).
  assert (Hw1 : window b1 = true) by (now rewrite E1).
  assert (Hs1 : storage b1 = ReadWrite) by (now rewrite E1).
  assert (Hi1 : sessionItem b1 = Some (new_session_id e1)) by (now rewrite E1).
  destruct (saveChatHistory_stored e2 messages b1 Hw1 Hs1) as (Hw2 & Hs2 & Hi2 & Ht2 & Hh2).
  fold b2 in Hw2, Hs2, Hi2, Hh2.
  rewrite (getSessionId_existing e2 b1 _ Hw1 Hs1 Hi1 eq_refl) in Hi2, Hh2.
  cbn [fst] in Hi2, Hh2.
  split; [now rewrite E1|]. split; [exact Hi2|].
  erewrite stored_record_loads; try eassumption; [reflexivity | reflexivity |].
  now apply storable_revived.
Qed.


(** ** What survives in any case *)

(** The text of a message: what the reviving step makes of it, whatever its
    timestamp and its numbers are. *)
Lemma any_message_revived (m : Message.t) :
  exists props,
    revive other (parse (match stringify (Message.to_js m) with
                         | Some j => j
                         | None => JNull
                         end)) = Some (Object props) /\
    lookup "id" props = Some (Str (Message.id m)) /\
    lookup "text" props = Some (Str (Message.text m)) /\
    lookup "sender" props = Some (Str (Sender.text (Message.sender m))) /\
    exists d, lookup "timestamp" props = Some (DateObject d).
Proof.
  destruct m as [id text sender timestamp confidence responseTime suggestions
                 isError products].
  unfold Message.to_js.
  cbn [Message.id Message.text Message.sender Message.timestamp Message.confidence
       Message.responseTime Message.suggestions Message.isError Message.products].
  change (stringify (Object ?l)) with
    (Some (JObject (flat_map (fun kx => match stringify (snd kx) with
                                        | Some j => [(fst kx, j)]
                                        | None => []
                                        end) l))).
  cbn [app flat_map snd fst].
  change (stringify (Str ?s)) with (Some (JString s)).
  change (stringify (DateObject ?d)) with (Some (date_to_json d)).
  cbn [app parse map fst snd].
  unfold revive, get. cbn [lookup String.eqb Ascii.eqb Bool.eqb spread assign].
  eexists. split; [reflexivity|].
  cbn [lookup String.eqb Ascii.eqb Bool.eqb]. repeat split. eexists. reflexivity.
Qed.

Lemma any_messages_revived (l : list Message.t) :
  exists items,
    map_throwing (revive other)
      (map parse (map (fun x => match stringify x with Some j => j | None => JNull end)
                    (map Message.to_js l))) = Some items /\
    Forall2 (fun m v =>
               get v "id" = Some (Str (Message.id m)) /\
               get v "text" = Some (Str (Message.text m)) /\
               get v "sender" = Some (Str (Sender.text (Message.sender m))) /\
               exists d, get v "timestamp" = Some (DateObject d)) l items.
Proof.
  induction l as [|m l (items & Hrev & Hall)].
  - exists []. split; [reflexivity | constructor].
  - destruct (any_message_revived m) as (props & Hm & H1 & H2 & H3 & d & H4).
    exists (Object props :: items). cbn [map map_throwing]. rewrite Hm, Hrev.
    split; [reflexivity|]. constructor; [|assumption].
    unfold get. rewrite H1, H2, H3, H4. repeat split. now exists d.
Qed.

(** Whatever the messages are, also with invalid dates or numbers that JSON
    does not keep, a save followed by a load returns as many entries as the
    last 50 messages, each with the [id], the [text] and the [sender] it was
    saved with and with a [Date] as its [timestamp]. *)
Theorem saved_messages_keep_identity (e1 e2 : Entropy) (b : Browser)
    (messages : list Message.t) :
  window b = true -> storage b = ReadWrite ->
  let loaded := fst (loadChatHistory other e2 (saveChatHistory e1 messages b)) in
  List.length loaded = Nat.min 50 (List.length messages) /\
  Forall2 (fun m v =>
             get v "id" = Some (Str (Message.id m)) /\
             get v "text" = Some (Str (Message.text m)) /\
             get v "sender" = Some (Str (Sender.text (Message.sender m))) /\
             exists d, get v "timestamp" = Some (DateObject d))
    (slice_last 50 messages) loaded.
Proof.
  intros Hw Hs loaded.
  destruct (saveChatHistory_stored e1 messages b Hw Hs) as (Hw1 & Hs1 & Hi1 & Ht1 & Hh1).
  destruct (any_messages_revived (slice_last 50 messages)) as (items & Hrev & Hall).
  assert (E : loaded = items).
  { unfold loaded. erewrite stored_record_loads; try eassumption. reflexivity. }
  rewrite E. split; [|exact Hall].
  rewrite <- (Forall2_length Hall). apply slice_last_length.
Qed.

End SessionStorage.

Section SessionStorageInstances.
Import Js Json Api Samples.

Lemma session_id_stable_witness :
  let '(sessionId, b1) := getSessionId morning fresh_browser in
  getSessionId evening b1 = (sessionId, b1) /\
  truthy_string sessionId = true /\
  (sessionItem fresh_browser = Some sessionId \/ sessionId = new_session_id morning).
Proof.
  exact (session_id_stable morning evening fresh_browser eq_refl eq_refl).
Defined.

Lemma temporary_session_ids_witness :
  let b := {| window := true; storage := Blocked;
              sessionItem := None; historyItem := None |} in
  (forall e, getSessionId e b = ("temp_" ++ string_of_Z (now e), b)) /\
  (forall e e', now e <> now e' -> fst (getSessionId e b) <> fst (getSessionId e' b)) /\
  (forall e messages, saveChatHistory e messages b = b) /\
  (forall e, loadChatHistory no_other_date e b = ([], b)).
Proof.
  intros b. apply (temporary_session_ids no_other_date b); reflexivity.
Defined.

Lemma last_save_wins_witness :
  let b1 := saveChatHistory morning [question] fresh_browser in
  let b2 := saveChatHistory evening [question; answer] b1 in
  fst (loadChatHistory no_other_date evening b2)
  = map Message.to_js (slice_last 50 [question; answer]) /\
  sessionItem b2 = sessionItem b1.
Proof.
  apply (last_save_wins no_other_date morning evening evening fresh_browser
           [question] [question; answer]); reflexivity.
Defined.

Lemma save_after_reset_witness :
  let b1 := resetSession morning (used_browser ReadWrite) in
  let b2 := saveChatHistory evening [answer] b1 in
  historyItem b1 = None /\
  sessionItem b2 = Some (new_session_id morning) /\
  fst (loadChatHistory no_other_date evening b2)
  = map Message.to_js (slice_last 50 [answer]).
Proof.
  apply (save_after_reset no_other_date morning evening evening (used_browser ReadWrite)
           [answer]); reflexivity.
Defined.

Lemma saved_messages_keep_identity_witness :
  let loaded :=
    fst (loadChatHistory no_other_date evening
           (saveChatHistory morning [undated; unmeasured] fresh_browser)) in
  List.length loaded = Nat.min 50 (List.length [undated; unmeasured]) /\
  Forall2 (fun m v =>
             get v "id" = Some (Str (Message.id m)) /\
             get v "text" = Some (Str (Message.text m)) /\
             get v "sender" = Some (Str (Sender.text (Message.sender m))) /\
             exists d, get v "timestamp" = Some (DateObject d))
    (slice_last 50 [undated; unmeasured]) loaded.
Proof.
  apply (saved_messages_keep_identity no_other_date morning evening fresh_browser
           [undated; unmeasured]); reflexivity.
Defined.

End SessionStorageInstances.

(* ===================================================================== *)
(** * The health probes, the plain request and the history of the service *)
(* ===================================================================== *)

Section HealthProbes.
Import Js ChatService Health.

(** The two health probes on the same request: the connection is [online]
    for the one exactly when it is for the other, and [slow] for the first
    means [degraded] for the second.  A response that is not a success is
    [offline] for [AlkostoAPI] and [degraded] for [ChatService], with its
    status as the last error; [ChatService] is [degraded] in these two
    cases only, [offline] only when [fetch] rejects, and never [slow]. *)
Theorem probes_agree (probe : Probe) (elapsed : N) :
  let detailed := getDetailedStatus probe elapsed in
  let connection := getConnectionStatus probe elapsed in
  (connection = Status.online <-> status detailed = Status.online) /\
  (connection = Status.slow -> status detailed = Status.degraded) /\
  (status detailed = Status.degraded <->
   connection = Status.slow \/ exists code, probe = Answered code /\ ok code = false) /\
  (forall code, probe = Answered code -> ok code = false ->
     connection = Status.offline /\ status detailed = Status.degraded /\
     lastError detailed = Some ("HTTP " ++ string_of_Z code)) /\
  (status detailed = Status.offline <-> exists e, probe = Failed e) /\
  status detailed <> Status.slow /\ connection <> Status.degraded /\
  (connection = Status.offline <-> healthCheck probe = false) /\
  (lastError detailed = None <-> healthCheck probe = true) /\
  responseTime detailed = elapsed.
Proof.
  cbv zeta. unfold getConnectionStatus, getDetailedStatus, healthCheck.
  destruct probe as [e|code].
  - cbn [negb status responseTime lastError].
    repeat split; try discriminate; try reflexivity.
    + intros [H | (code & H & _)]; discriminate H.
    + intros _. now exists e.
  - destruct (ok code) eqn:Hok; cbn [negb].
    + destruct (3000 <? elapsed)%N; cbn [status responseTime lastError];
        repeat split; try discriminate; try reflexivity;
        try (now left);
        try (intros [e He]; discriminate He);
        try (intros [H | (c & H & Hc)]; [discriminate H | injection H as <-; congruence]);
        try (intros c H Hc; injection H as <-; congruence).
      all: match goal with
           | H : Answered _ = Answered _ |- _ => injection H as <-; congruence
           end.
    + cbn [status responseTime lastError].
      repeat split; try discriminate; try reflexivity;
        try (intros [e He]; discriminate He);
        try (intros c H _; now injection H as <-).
      * intros _. right. now exists code.
      * match goal with H : Answered _ = Answered _ |- _ => now injection H as <- end.
Qed.

End HealthProbes.

Section PlainRequest.
Import Js Api AlkostoAPI.

Lemma getSessionId_truthy (e : Entropy) (b : Browser) :
  truthy_string (fst (getSessionId e b)) = true.
Proof.
  unfold getSessionId. destruct (window b); [|reflexivity]. cbn [negb].
  destruct (storage b); try reflexivity.
  all: destruct (sessionItem b) as [existing|]; try reflexivity.
  all: destruct (truthy_string existing) eqn:E; [exact E | reflexivity].
Qed.

(** [extractSuggestions] never builds more than three suggestions, so its
    final [slice] drops none: the question about the first missing criterion
    is always the last suggestion, and without one there are none or two. *)
Lemma extractSuggestions_cases (agentResponse : AgentResponse) :
  let suggestions := extractSuggestions agentResponse in
  List.length suggestions <= 3 /\
  match criticalMissing agentResponse with
  | Some (missing :: _) =>
      last suggestions EmptyString = "¿Podrías especificar el " ++ missing ++ "?"
  | _ => List.length suggestions = 0 \/ List.length suggestions = 2
  end.
Proof.
  cbv zeta. unfold extractSuggestions.
  destruct (is_text (search_readiness agentResponse) "insufficient");
    [|destruct (is_text (search_readiness agentResponse) "viable")];
    destruct (criticalMissing agentResponse) as [[|missing rest]|]; cbn;
    split; auto.
Qed.

Lemma extractSuggestions_length (agentResponse : AgentResponse) :
  List.length (extractSuggestions agentResponse) <= 3.
Proof. unfold extractSuggestions. rewrite length_firstn. lia. Qed.

(** Whatever the request meets, the response of [AlkostoAPI.sendMessage]
    carries a session id that is not empty; a payload is returned as a
    success with the text of the agent, and anything thrown as a failure with
    the text [getErrorMessage] gives and the session id read anew. *)
Theorem plain_request_session (before after : Entropy) (outcome : FetchOutcome)
    (b : Browser) :
  let '(answer, b') := sendMessage before after outcome b in
  (exists id, ChatService.sessionId answer = Some id /\ truthy_string id = true) /\
  match request outcome with
  | ChatService.Return data =>
      ChatService.success answer = true /\
      ChatService.message answer = response (agent data) /\
      (exists suggestions,
         ChatService.suggestions answer = Some suggestions /\
         List.length suggestions <= 3) /\
      b' = snd (getSessionId before b)
  | ChatService.Throw e =>
      ChatService.success answer = false /\
      ChatService.message answer = getErrorMessage e /\
      ChatService.confidence answer = Confidence.LOW /\
      ChatService.sessionId answer
      = Some (fst (getSessionId after (snd (getSessionId before b))))
  end.
Proof.
  unfold sendMessage.
  pose proof (getSessionId_truthy before b) as H1.
  destruct (getSessionId before b) as [current b1]. cbn [fst snd] in *.
  destruct (request outcome) as [data|e].
  - split; [|repeat split;
             exists (extractSuggestions (agent data));
             split; [reflexivity | apply extractSuggestions_length]].
    cbn [ChatService.sessionId]. unfold or_else.
    destruct (sessionId data) as [given|]; [|now exists current].
    destruct (truthy_string given) eqn:E; [now exists given | now exists current].
  - pose proof (getSessionId_truthy after b1) as H2.
    destruct (getSessionId after b1) as [again b2]. cbn [fst] in *.
    split; [now exists again | repeat split].
Qed.

End PlainRequest.

Section History.
Import Js MessageProtocol MessageProtocolService.

Lemma slice_last_all {A} (n : nat) (l : list A) :
  List.length l <= n -> Api.slice_last n l = l.
Proof.
  intros H. unfold Api.slice_last.
  now replace (List.length l - n) with 0 by lia.
Qed.

Lemma slice_last_slice_last {A} (n k : nat) (l : list A) :
  n <= k -> Api.slice_last n (Api.slice_last k l) = Api.slice_last n l.
Proof.
  intros H. unfold Api.slice_last. rewrite length_skipn, skipn_skipn. f_equal. lia.
Qed.

Lemma slice_last_app {A} (n : nat) (l : list A) (x : A) :
  Api.slice_last (S n) (Api.slice_last (S n) l ++ [x]) = Api.slice_last (S n) (l ++ [x]).
Proof.
  unfold Api.slice_last. rewrite !length_app, length_skipn. cbn [List.length].
  rewrite !skipn_app, length_skipn, skipn_skipn.
  f_equal.
  - f_equal. lia.
  - f_equal. lia.
Qed.

Lemma slice_last_bound {A} (n : nat) (l : list A) :
  List.length (Api.slice_last n l) = Nat.min n (List.length l).
Proof. unfold Api.slice_last. rewrite length_skipn. lia. Qed.

(** The history after one more message, in one formula. *)
Lemma addToHistory_history (message : StructuredMessage) (service : Service) :
  conversationHistory (addToHistory message service)
  = Api.slice_last 20 (conversationHistory service ++ [message]).
Proof.
  unfold addToHistory. cbn [conversationHistory].
  destruct (20 <? _)%nat eqn:E; [reflexivity|].
  apply Nat.ltb_ge in E. now rewrite slice_last_all.
Qed.

Lemma addToHistory_fold (messages : list StructuredMessage) (service : Service) :
  let service' := fold_left (fun s m => addToHistory m s) messages service in
  conversationHistory service'
  = (if Nat.eqb (List.length messages) 0 then conversationHistory service
     else Api.slice_last 20 (conversationHistory service ++ messages)) /\
  currentContext service' = currentContext service.
Proof.
  cbv zeta. revert service.
  induction messages as [|m messages IH] using rev_ind; intros service.
  - split; reflexivity.
  - rewrite fold_left_app. cbn [fold_left].
    destruct (IH service) as (H1 & H2).
    rewrite addToHistory_history, H1, length_app. cbn [List.length].
    replace (Nat.eqb (List.length messages + 1) 0) with false
      by (symmetry; apply Nat.eqb_neq; lia).
    split; [|exact H2].
    destruct (Nat.eqb (List.length messages) 0) eqn:E.
    + apply Nat.eqb_eq in E. destruct messages; [|discriminate E].
      reflexivity.
    + rewrite slice_last_app. now rewrite app_assoc.
Qed.

(** After any number of calls of [addToHistory], at least one, the history
    is the last twenty of the messages it held and was given, in order, and
    the context is untouched. *)
Theorem history_is_last_twenty (messages : list StructuredMessage) (service : Service) :
  messages <> [] ->
  let service' := fold_left (fun s m => addToHistory m s) messages service in
  conversationHistory service'
  = Api.slice_last 20 (conversationHistory service ++ messages) /\
  List.length (conversationHistory service') <= 20 /\
  (exists older,
     (conversationHistory service ++ messages)%list
     = (older ++ conversationHistory service')%list) /\
  currentContext service' = currentContext service.
Proof.
  intros Hne. cbv zeta.
  destruct (addToHistory_fold messages service) as (H1 & H2).
  replace (Nat.eqb (List.length messages) 0) with false in H1
    by (symmetry; apply Nat.eqb_neq; destruct messages; [congruence | discriminate]).
  rewrite H1. repeat split.
  - rewrite slice_last_bound. lia.
  - exists (firstn (List.length (conversationHistory service ++ messages) - 20)
              (conversationHistory service ++ messages)).
    unfold Api.slice_last. now rewrite firstn_skipn.
  - exact H2.
Qed.

(** [formatForLLMAPI] returns exactly for a message whose metadata hold a
    context and an intent, as every message made by
    [createStructuredMessage] does, and throws for any other.  When it
    returns on a service that started new, the messages it sends are the
    system prompt of that context, the last ten messages added to the
    history, and the message of the user: never more than twelve. *)
Theorem llm_sees_last_ten (buildSystemPrompt : ConversationContext -> string)
    (userMessage : StructuredMessage) (history : list StructuredMessage) :
  let service := fold_left (fun s m => addToHistory m s) history new in
  let request := formatForLLMAPI buildSystemPrompt userMessage service in
  (forall m c i,
     metadata userMessage = Some m -> context m = Some c -> intent m = Some i ->
     exists sent,
       request = Some sent /\
       Request.messages sent
       = ((Role.system, buildSystemPrompt c)
          :: map (fun msg => (role msg, content msg)) (Api.slice_last 10 history)
          ++ [(Role.user, content userMessage)])%list /\
       List.length (Request.messages sent) = 2 + Nat.min 10 (List.length history) /\
       Request.agentInstructions sent = generateAgentInstructions c i) /\
  (request = None <->
   match metadata userMessage with
   | Some m => context m = None \/ intent m = None
   | None => True
   end) /\
  (forall (e : Api.Entropy) (userInput sessionId : string)
          (previousContext : option ConversationContext) (s : Service),
     formatForLLMAPI buildSystemPrompt
       (fst (createStructuredMessage e userInput sessionId previousContext s)) service
     <> None).
Proof.
  cbv zeta.
  destruct (addToHistory_fold history new) as (H & _).
  change (conversationHistory new) with (@nil StructuredMessage) in H.
  assert (E : Api.slice_last 10
                (conversationHistory (fold_left (fun s m => addToHistory m s) history new))
              = Api.slice_last 10 history).
  { rewrite H. destruct history as [|m history]; [reflexivity|].
    cbn [List.length Nat.eqb app]. apply slice_last_slice_last. lia. }
  unfold formatForLLMAPI. rewrite E. split; [|split].
  - intros m c i -> -> ->. eexists. split; [reflexivity|].
    cbn [Request.messages Request.agentInstructions].
    split; [reflexivity|]. split; [|reflexivity].
    cbn [List.length]. rewrite length_app, length_map, slice_last_bound.
    cbn [List.length]. lia.
  - destruct (metadata userMessage) as [m|]; [|tauto].
    destruct (context m); [|tauto].
    destruct (intent m); split; try discriminate; try tauto.
    intros [H1|H1]; discriminate H1.
  - intros e userInput sessionId previousContext s. discriminate.
Qed.

Lemma history_is_last_twenty_witness :
  let message := fun text =>
    {| role := Role.user; content := text; timestamp := "2023-11-14T22:13:20.000Z";
       metadata := None |} in
  let messages := map message (repeat "hola" 20 ++ ["busco un televisor"]) in
  let service' := fold_left (fun s m => addToHistory m s) messages new in
  conversationHistory service'
  = Api.slice_last 20 (conversationHistory new ++ messages) /\
  List.length (conversationHistory service') <= 20 /\
  (exists older,
     (conversationHistory new ++ messages)%list
     = (older ++ conversationHistory service')%list) /\
  currentContext service' = currentContext new.
Proof.
  intros message messages.
  apply (history_is_last_twenty messages new). discriminate.
Defined.

End History.

(* ===================================================================== *)
(** * The regular expressions *)
(* ===================================================================== *)

Section Matching.
Import Js RegExp.

(** ** The rounds of a quantifier are bounded *)

Lemma with_capture_on_input (n index : nat) (v : option string) (x : MatchState) :
  on_input n x -> on_input n (with_capture index v x).
Proof. exact (fun H => H). Qed.

Lemma clear_on_input (n : nat) (indices : list nat) (x : MatchState) :
  on_input n x ->
  on_input n (clear indices x) /\ endIndex (clear indices x) = endIndex x.
Proof.
  intros H. induction indices as [|i indices IH]; [now split|].
  cbn [clear fold_right]. destruct IH as [IH1 IH2]. split; [exact IH1 | exact IH2].
Qed.

(** Any fuel above the minimum plus the length of the text that is left
    gives the same result. *)
Lemma RepeatMatcher_fuel (n : nat) (m : Matcher) (indices : list nat) :
  forward n m ->
  forall (fuel fuel' min : nat) (max : option nat) (greedy : bool)
         (x : MatchState) (c c' : Continuation),
    on_input n x ->
    min + String.length (rest x) < fuel ->
    min + String.length (rest x) < fuel' ->
    (forall y, on_input n y -> endIndex x <= endIndex y -> c y = c' y) ->
    RepeatMatcher fuel m indices min max greedy x c
    = RepeatMatcher fuel' m indices min max greedy x c'.
Proof.
  intros Hm. induction fuel as [|fuel IH]; intros fuel' min max greedy x c c' Hx Hf Hf' Hc;
    [lia|].
  destruct fuel' as [|fuel']; [lia|]. cbn [RepeatMatcher].
  assert (Hcx : c x = c' x) by (apply Hc; [assumption | lia]).
  destruct (match max with Some 0 => true | _ => false end); [exact Hcx|].
  destruct (clear_on_input n indices x Hx) as [Hr He].
  set (d := fun y => if Nat.eqb min 0 && Nat.eqb (endIndex y) (endIndex x) then None
                     else RepeatMatcher fuel m indices (Nat.pred min)
                            (option_map Nat.pred max) greedy y c).
  set (d' := fun y => if Nat.eqb min 0 && Nat.eqb (endIndex y) (endIndex x) then None
                      else RepeatMatcher fuel' m indices (Nat.pred min)
                             (option_map Nat.pred max) greedy y c').
  assert (Hd : m (clear indices x) d = m (clear indices x) d').
  { apply Hm; [assumption|]. intros y Hy Hle. rewrite He in Hle. unfold d, d'.
    destruct (Nat.eqb min 0 && Nat.eqb (endIndex y) (endIndex x)) eqn:E; [reflexivity|].
    unfold on_input in Hx, Hy.
    assert (Hlt : Nat.pred min + String.length (rest y) < min + String.length (rest x)).
    { apply andb_false_iff in E as [E|E].
      - apply Nat.eqb_neq in E. lia.
      - apply Nat.eqb_neq in E. lia. }
    apply IH; try assumption; try lia.
    intros z Hz Hyz. apply Hc; [assumption | lia]. }
  rewrite Hd, Hcx. reflexivity.
Qed.

Lemma matcher_forward (r : regex) (n : nat) : forward n (matcher r).
Proof.
  induction r as [|set|r1 IH1 r2 IH2|r1 IH1 r2 IH2|r1 IH1 min max greedy|index r1 IH1];
    intros x c c' Hx Hc; cbn [matcher].
  - apply Hc; [assumption | lia].
  - destruct (rest x) as [|ch s'] eqn:E; [reflexivity|].
    destruct (set ch); [|reflexivity].
    apply Hc; [|cbn; lia]. unfold on_input in *. rewrite E in Hx.
    cbn [endIndex rest String.length] in *. lia.
  - apply IH1; [assumption|]. intros y Hy Hle.
    apply IH2; [assumption|]. intros z Hz Hyz. apply Hc; [assumption | lia].
  - rewrite (IH1 x c c' Hx Hc), (IH2 x c c' Hx Hc). reflexivity.
  - apply (RepeatMatcher_fuel n); try assumption; lia.
  - apply IH1; [assumption|]. intros y Hy Hle.
    apply Hc; [exact Hy | exact Hle].
Qed.

(** The fuel that [matcher] gives to a quantifier is never used up: more of
    it changes nothing. *)
Lemma matcher_fuel_enough (r : regex) (min : nat) (max : option nat) (greedy : bool)
    (fuel : nat) (x : MatchState) (c : Continuation) :
  min + String.length (rest x) < fuel ->
  RepeatMatcher fuel (matcher r) (parens r) min max greedy x c
  = matcher (Repeat r min max greedy) x c.
Proof.
  intros H. cbn [matcher].
  apply (RepeatMatcher_fuel (endIndex x + String.length (rest x)));
    try reflexivity; try lia.
  apply matcher_forward.
Qed.


End Matching.

Section PricePattern.
Import Js MessageProtocol RegExp.

Lemma append_assoc (a b c : string) : (a ++ b) ++ c = a ++ b ++ c.
Proof. induction a as [|x a IH]; cbn [append]; [reflexivity | now rewrite IH]. Qed.

Lemma length_append (a b : string) :
  String.length (a ++ b) = String.length a + String.length b.
Proof. induction a as [|x a IH]; cbn [append String.length]; [reflexivity | now rewrite IH]. Qed.

Lemma eqb_succ_add (e k : nat) : Nat.eqb (S e + k) e = false.
Proof. apply Nat.eqb_neq. lia. Qed.

Lemma take_digits_app (n : nat) (s : string) :
  s = fst (take_digits n s) ++ snd (take_digits n s).
Proof.
  revert s; induction n as [|n IH]; intros [|c s]; try reflexivity.
  rewrite take_digits_cons. destruct (is_digit c); [|reflexivity].
  cbn [fst snd append]. now rewrite <- IH.
Qed.

Lemma take_digits_bound (n : nat) (s : string) :
  String.length (fst (take_digits n s)) <= n.
Proof.
  revert s; induction n as [|n IH]; intros [|c s]; try (cbn; lia).
  rewrite take_digits_cons. destruct (is_digit c); cbn [fst String.length]; [|lia].
  specialize (IH s). lia.
Qed.

(** The quantifier [{n}] on digits: exactly [n] of them. *)
Lemma repeat_exact_digits (n fuel e : nat) (s : string) (caps : list (option string))
    (greedy : bool) (c : Continuation) :
  n < fuel ->
  RepeatMatcher fuel (matcher (CharSet is_digit)) [] n (Some n) greedy
    {| endIndex := e; rest := s; captures := caps |} c
  = if Nat.eqb (String.length (fst (take_digits n s))) n
    then c {| endIndex := e + n; rest := snd (take_digits n s); captures := caps |}
    else None.
Proof.
  revert fuel e s. induction n as [|n IH]; intros fuel e s Hf.
  - destruct fuel as [|fuel]; [lia|]. cbn [RepeatMatcher].
    destruct s; cbn [take_digits fst snd String.length Nat.eqb]; now rewrite Nat.add_0_r.
  - destruct fuel as [|fuel]; [lia|]. cbn [RepeatMatcher Nat.eqb negb clear fold_right].
    cbn [matcher rest endIndex captures]. destruct s as [|ch s]; [reflexivity|].
    rewrite take_digits_cons. destruct (is_digit ch); [|reflexivity].
    cbn [andb Nat.pred option_map fst snd String.length].
    rewrite IH by lia. cbn [Nat.eqb].
    now replace (S e + n) with (e + S n) by lia.
Qed.

(** The greedy quantifier [{0,n}] on digits, before a continuation that
    cannot fail: as many digits as there are, up to [n]. *)
Lemma repeat_greedy_digits (n fuel e : nat) (s : string) (caps : list (option string))
    (c : Continuation) :
  unfailing c -> String.length s < fuel ->
  RepeatMatcher fuel (matcher (CharSet is_digit)) [] 0 (Some n) true
    {| endIndex := e; rest := s; captures := caps |} c
  = c {| endIndex := e + String.length (fst (take_digits n s));
         rest := snd (take_digits n s); captures := caps |}.
Proof.
  intros Hc. revert fuel e s. induction n as [|n IH]; intros fuel e s Hf.
  - destruct fuel as [|fuel]; [lia|]. cbn [RepeatMatcher].
    destruct s; cbn [take_digits fst snd String.length]; now rewrite Nat.add_0_r.
  - destruct fuel as [|fuel]; [lia|]. cbn [RepeatMatcher Nat.eqb negb clear fold_right].
    cbn [matcher rest endIndex captures].
    destruct s as [|ch s].
    { cbn [take_digits fst snd String.length]. now rewrite Nat.add_0_r. }
    rewrite take_digits_cons. destruct (is_digit ch).
    + cbn [andb Nat.pred option_map fst snd String.length].
      replace (Nat.eqb (S e) e) with false by (symmetry; apply Nat.eqb_neq; lia).
      rewrite IH by (cbn [String.length] in Hf; lia).
      replace (S e + String.length (fst (take_digits n s)))
        with (e + S (String.length (fst (take_digits n s)))) by lia.
      destruct (c _) eqn:E; [reflexivity | now apply Hc in E].
    + cbn [fst snd String.length]. now rewrite Nat.add_0_r.
Qed.

Lemma thousands_groups_app (fuel : nat) (s : string) :
  s = fst (thousands_groups fuel s) ++ snd (thousands_groups fuel s).
Proof.
  revert s; induction fuel as [|fuel IH]; intros s; cbn [thousands_groups]; [reflexivity|].
  destruct (thousands_group s) as [[g r]|] eqn:E; [|reflexivity].
  specialize (IH r). destruct (thousands_groups fuel r) as [gs r']. cbn [fst snd] in *.
  destruct s as [|c s]; [discriminate E|]. cbn [thousands_group] in E.
  destruct (is_separator c); [|discriminate E].
  pose proof (take_digits_app 3 s) as Ha.
  destruct (take_digits 3 s) as [d r0]. cbn [fst snd] in Ha.
  destruct (Nat.eqb (String.length d) 3); [|discriminate E].
  injection E as <- <-. cbn [append]. rewrite append_assoc, <- IH. now rewrite <- Ha.
Qed.

Lemma thousands_group_cons (c : ascii) (s : string) :
  thousands_group (String c s)
  = if is_separator c
    then if Nat.eqb (String.length (fst (take_digits 3 s))) 3
         then Some (String c (fst (take_digits 3 s)), snd (take_digits 3 s))
         else None
    else None.
Proof.
  cbn [thousands_group]. destruct (is_separator c); [|reflexivity].
  now destruct (take_digits 3 s).
Qed.

(** The star on such rounds, before a continuation that cannot fail: as many
    rounds as there are. *)
Lemma repeat_thousands (fuel e : nat) (s : string) (caps : list (option string))
    (c : Continuation) :
  unfailing c -> String.length s < fuel ->
  RepeatMatcher fuel (matcher thousands) [] 0 None true
    {| endIndex := e; rest := s; captures := caps |} c
  = c {| endIndex := e + String.length (fst (thousands_groups (String.length s) s));
         rest := snd (thousands_groups (String.length s) s); captures := caps |}.
Proof.
  intros Hc. revert e s. induction fuel as [|fuel IH]; intros e s Hf; [lia|].
  cbn [RepeatMatcher Nat.eqb negb clear fold_right].
  change (matcher thousands) with
    (fun x k => matcher (CharSet is_separator) x
                  (fun y => matcher (Repeat (CharSet is_digit) 3 (Some 3) true) y k)).
  cbv beta. cbn [matcher rest endIndex captures].
  destruct s as [|ch s].
  { cbn [thousands_groups String.length fst snd]. now rewrite Nat.add_0_r. }
  cbn [String.length thousands_groups]. rewrite thousands_group_cons.
  destruct (is_separator ch); [|cbn [fst snd String.length]; now rewrite Nat.add_0_r].
  cbn [parens]. rewrite repeat_exact_digits by (cbn [rest]; lia).
  pose proof (take_digits_app 3 s) as Happ.
  destruct (Nat.eqb (String.length (fst (take_digits 3 s))) 3) eqn:E3;
    [|cbn [fst snd String.length]; now rewrite Nat.add_0_r].
  apply Nat.eqb_eq in E3.
  cbn [andb endIndex Nat.pred option_map].
  rewrite eqb_succ_add.
  assert (Hlen : String.length (snd (take_digits 3 s)) + 3 = String.length s).
  { rewrite Happ at 2. rewrite length_append. lia. }
  rewrite IH by (cbn [String.length] in Hf; lia).
  rewrite (thousands_groups_fuel (String.length s) (String.length (snd (take_digits 3 s))))
    by lia.
  destruct (thousands_groups (String.length (snd (take_digits 3 s)))
              (snd (take_digits 3 s))) as [gs r'] eqn:G.
  cbn [fst snd]. rewrite length_append. cbn [String.length]. rewrite E3.
  replace (S e + 3 + String.length gs) with (e + (S 3 + String.length gs)) by lia.
  destruct (c _) eqn:E; [reflexivity | now apply Hc in E].
Qed.


Lemma take_length_app (a b : string) : take (String.length a) (a ++ b) = a.
Proof. induction a as [|x a IH]; cbn [String.length append take]; [now destruct b | now rewrite IH]. Qed.

Lemma price_at_app (s m r : string) : price_at s = Some (m, r) -> s = m ++ r.
Proof.
  unfold price_at. pose proof (take_digits_app 3 s) as Hd.
  destruct (take_digits 3 s) as [d r0]. cbn [fst snd] in Hd.
  destruct d as [|c d]; [discriminate|].
  pose proof (thousands_groups_app (String.length r0) r0) as Hg.
  destruct (thousands_groups (String.length r0) r0) as [gs r']. cbn [fst snd] in Hg.
  intros E. injection E as <- <-. cbn [append]. rewrite append_assoc, <- Hg. exact Hd.
Qed.

Lemma RepeatMatcher_S (fuel : nat) (m : Matcher) (indices : list nat)
    (min : nat) (max : option nat) (greedy : bool) (x : MatchState) (c : Continuation) :
  RepeatMatcher (S fuel) m indices min max greedy x c
  = if match max with Some O => true | _ => false end then c x
    else
      let d := fun y =>
        if Nat.eqb min 0 && Nat.eqb (endIndex y) (endIndex x) then None
        else RepeatMatcher fuel m indices (Nat.pred min) (option_map Nat.pred max)
               greedy y c in
      let xr := clear indices x in
      if negb (Nat.eqb min 0) then m xr d
      else if negb greedy then
        match c x with
        | Some z => Some z
        | None => m xr d
        end
      else
        match m xr d with
        | Some z => Some z
        | None => c x
        end.
Proof. reflexivity. Qed.

Lemma matcher_CharSet (set : ascii -> bool) (x : MatchState) (c : Continuation) :
  matcher (CharSet set) x c
  = match rest x with
    | String ch s' =>
        if set ch
        then c {| endIndex := S (endIndex x); rest := s'; captures := captures x |}
        else None
    | EmptyString => None
    end.
Proof. reflexivity. Qed.

(** The price pattern tried at one position is the scanner [price_at]. *)
Lemma match_at_price (index : nat) (s : string) :
  match_at price_pattern 1 index s
  = match price_at s with
    | Some (m, r) =>
        Some {| endIndex := index + String.length m; rest := r; captures := [Some m] |}
    | None => None
    end.
Proof.
  set (capture := fun y : MatchState =>
         Some (with_capture 1 (Some (take (endIndex y - index) s)) y)).
  assert (Hcap : unfailing capture) by (intros y; discriminate).
  set (groups := fun y : MatchState =>
         RepeatMatcher (0 + String.length (rest y) + 1) (matcher thousands) [] 0 None true
           y capture).
  assert (Hgroups : forall e t caps,
            groups {| endIndex := e; rest := t; captures := caps |}
            = capture {| endIndex := e + String.length
                                          (fst (thousands_groups (String.length t) t));
                         rest := snd (thousands_groups (String.length t) t);
                         captures := caps |}).
  { intros e t caps. unfold groups. cbn [rest].
    apply repeat_thousands; [exact Hcap | lia]. }
  assert (Htotal : unfailing groups).
  { intros [e t caps]. rewrite Hgroups. apply Hcap. }
  assert (E : match_at price_pattern 1 index s
              = RepeatMatcher (S (String.length s + 1)) (matcher (CharSet is_digit)) [] 1
                  (Some 3) true {| endIndex := index; rest := s; captures := [None] |}
                  groups) by reflexivity.
  rewrite E, RepeatMatcher_S. cbv zeta.
  cbn [Nat.eqb negb clear fold_right]. rewrite matcher_CharSet. cbn [rest endIndex captures].
  unfold price_at. destruct s as [|ch s]; [reflexivity|].
  rewrite take_digits_cons. destruct (is_digit ch); [|reflexivity].
  cbn [andb Nat.pred option_map].
  rewrite repeat_greedy_digits by (assumption || (cbn [String.length]; lia)).
  rewrite Hgroups. unfold capture, with_capture.
  cbn [endIndex rest captures update Nat.sub].
  pose proof (take_digits_app 2 s) as Hd.
  pose proof (thousands_groups_app (String.length (snd (take_digits 2 s)))
                (snd (take_digits 2 s))) as Hg.
  destruct (take_digits 2 s) as [d r0]. cbn [fst snd] in *.
  destruct (thousands_groups (String.length r0) r0) as [gs r']. cbn [fst snd] in *.
  f_equal. f_equal.
  - rewrite length_append. cbn [String.length]. lia.
  - f_equal. f_equal.
    replace (S index + String.length d + String.length gs - index)
      with (String.length (String ch d ++ gs))
      by (rewrite length_append; cbn [String.length]; lia).
    rewrite Hd, Hg.
    change (String ch (d ++ gs ++ r')) with (String ch d ++ gs ++ r').
    rewrite <- append_assoc. apply take_length_app.
Qed.


Lemma exec_from_price (index : nat) (s : string) :
  exec_from price_pattern 1 index s
  = match price_at s with
    | Some (m, r) =>
        Some {| RegExp.index := index; matched := m; captured := [Some m];
                lastIndex := index + String.length m; following := r |}
    | None =>
        match s with
        | String _ s' => exec_from price_pattern 1 (S index) s'
        | EmptyString => None
        end
    end.
Proof.
  destruct s as [|ch s]; cbn [exec_from]; rewrite match_at_price.
  - change (price_at EmptyString) with (@None (string * string)). reflexivity.
  - destruct (price_at (String ch s)) as [[m r]|] eqn:E; [|reflexivity].
    cbn [endIndex rest captures]. f_equal. f_equal.
    replace (index + String.length m - index) with (String.length m) by lia.
    rewrite (price_at_app _ _ _ E). apply take_length_app.
Qed.

Lemma match_all_price (n : nat) :
  forall (s : string) (index fuel : nat),
    String.length s <= n -> String.length s < fuel ->
    match_all fuel price_pattern 1 index s = price_matches (S (String.length s)) s.
Proof.
  induction n as [n IH] using lt_wf_ind. intros s index fuel Hn Hf.
  destruct fuel as [|fuel]; [lia|].
  cbn [match_all price_matches]. rewrite exec_from_price.
  destruct (price_at s) as [[m r]|] eqn:E.
  - pose proof (price_at_length _ _ _ E) as Hr.
    destruct (price_at_shape _ _ _ E) as (c & m' & -> & _).
    cbn [matched following lastIndex String.length Nat.eqb].
    f_equal. rewrite (IH (String.length r)) by lia.
    apply price_matches_fuel; lia.
  - destruct s as [|ch s]; [reflexivity|].
    cbn [String.length] in *.
    change (match exec_from price_pattern 1 (S index) s with
            | Some result =>
                matched result
                :: (if Nat.eqb (String.length (matched result)) 0
                    then match following result with
                         | String _ s' =>
                             match_all fuel price_pattern 1 (S (lastIndex result)) s'
                         | EmptyString => []
                         end
                    else match_all fuel price_pattern 1 (lastIndex result)
                           (following result))
            | None => []
            end)
      with (match_all (S fuel) price_pattern 1 (S index) s).
    rewrite (IH (String.length s)) by lia.
    apply price_matches_fuel; lia.
Qed.

(** The scanner with which this development reads the price pattern is
    the pattern: for every text, [match] with the regular expression, by the
    backtracking rules of the language, returns what [match_price_pattern]
    returns. *)
Theorem price_pattern_refined (text : string) :
  match_global price_pattern 1 text = match_price_pattern text.
Proof.
  unfold match_global, match_price_pattern.
  now rewrite (match_all_price (String.length text)) by lia.
Qed.

End PricePattern.

Section Quantifiers.
Import Js RegExp.

Lemma matcher_Repeat (r : regex) (min : nat) (max : option nat) (greedy : bool)
    (x : MatchState) (c : Continuation) :
  matcher (Repeat r min max greedy) x c
  = RepeatMatcher (min + String.length (rest x) + 1) (matcher r) (parens r)
      min max greedy x c.
Proof. reflexivity. Qed.

Lemma greedy_star (set : ascii -> bool) (fuel e : nat) (s : string)
    (caps : list (option string)) (c : Continuation) :
  String.length s < fuel ->
  RepeatMatcher fuel (matcher (CharSet set)) [] 0 None true
    {| endIndex := e; rest := s; captures := caps |} c
  = longest_first set c e s caps.
Proof.
  revert e s. induction fuel as [|fuel IH]; intros e s Hf; [lia|].
  rewrite RepeatMatcher_S. cbv zeta.
  cbn [Nat.eqb negb clear fold_right Nat.pred option_map andb].
  rewrite matcher_CharSet. cbn [rest endIndex captures].
  destruct s as [|ch s]; [reflexivity|]. cbn [longest_first].
  destruct (set ch); [|reflexivity].
  replace (Nat.eqb (S e) e) with false by (symmetry; apply Nat.eqb_neq; lia).
  rewrite IH by (cbn [String.length] in Hf; lia). reflexivity.
Qed.

Lemma greedy_plus (set : ascii -> bool) (x : MatchState) (c : Continuation) :
  matcher (Repeat (CharSet set) 1 None true) x c
  = match rest x with
    | String ch s' =>
        if set ch then longest_first set c (S (endIndex x)) s' (captures x) else None
    | EmptyString => None
    end.
Proof.
  destruct x as [e s caps].
  change (matcher (Repeat (CharSet set) 1 None true)
            {| endIndex := e; rest := s; captures := caps |} c)
    with (RepeatMatcher (S (String.length s + 1)) (matcher (CharSet set)) [] 1 None true
            {| endIndex := e; rest := s; captures := caps |} c).
  rewrite RepeatMatcher_S. cbv zeta.
  cbn [Nat.eqb negb clear fold_right Nat.pred option_map andb].
  rewrite matcher_CharSet. cbn [rest endIndex captures].
  destruct s as [|ch s]; [reflexivity|].
  destruct (set ch); [|reflexivity].
  apply greedy_star. cbn [String.length]. lia.
Qed.

Lemma lazy_star_fuel (set : ascii -> bool) (fuel e : nat) (s : string)
    (caps : list (option string)) (c : Continuation) :
  String.length s < fuel ->
  RepeatMatcher fuel (matcher (CharSet set)) [] 0 None false
    {| endIndex := e; rest := s; captures := caps |} c
  = shortest_first set c e s caps.
Proof.
  revert e s. induction fuel as [|fuel IH]; intros e s Hf; [lia|].
  rewrite RepeatMatcher_S. cbv zeta.
  cbn [Nat.eqb negb clear fold_right Nat.pred option_map andb].
  rewrite matcher_CharSet. cbn [rest endIndex captures].
  destruct s as [|ch s]; cbn [shortest_first]; [reflexivity|].
  destruct (c _); [reflexivity|].
  destruct (set ch); [|reflexivity].
  replace (Nat.eqb (S e) e) with false by (symmetry; apply Nat.eqb_neq; lia).
  apply IH. cbn [String.length] in Hf. lia.
Qed.

Lemma lazy_star (set : ascii -> bool) (x : MatchState) (c : Continuation) :
  matcher (Repeat (CharSet set) 0 None false) x c
  = shortest_first set c (endIndex x) (rest x) (captures x).
Proof.
  destruct x as [e s caps]. cbn [matcher endIndex rest captures parens].
  apply lazy_star_fuel. lia.
Qed.

Lemma optional_unit (set : ascii -> bool) (x : MatchState) (c : Continuation) :
  matcher (Repeat (CharSet set) 0 (Some 1) true) x c
  = match rest x with
    | String ch s' =>
        if set ch then
          match c {| endIndex := S (endIndex x); rest := s'; captures := captures x |} with
          | Some z => Some z
          | None => c x
          end
        else c x
    | EmptyString => c x
    end.
Proof.
  destruct x as [e s caps].
  rewrite matcher_Repeat. cbn [parens rest].
  replace (0 + String.length s + 1) with (S (String.length s)) by lia.
  rewrite RepeatMatcher_S. cbv zeta.
  cbn [Nat.eqb negb clear fold_right Nat.pred option_map andb].
  rewrite matcher_CharSet. cbn [rest endIndex captures].
  destruct s as [|ch s]; [reflexivity|].
  destruct (set ch); [|reflexivity].
  replace (Nat.eqb (S e) e) with false by (symmetry; apply Nat.eqb_neq; lia).
  cbn [String.length]. rewrite RepeatMatcher_S. reflexivity.
Qed.

End Quantifiers.

Section BudgetPattern.
Import Js RegExp.

Lemma budget_pattern_eq (x : MatchState) (c : Continuation) :
  matcher budget_pattern x c
  = matcher dollar x (fun y => matcher (Group 1 amount) y (after_first_amount c)).
Proof. reflexivity. Qed.

Lemma group_eq (index : nat) (r : regex) (x : MatchState) (c : Continuation) :
  matcher (Group index r) x c
  = matcher r x (fun y => c (with_capture index
                               (Some (take (endIndex y - endIndex x) (rest x))) y)).
Proof. reflexivity. Qed.

Lemma amount_unit_not_dollar (ch : ascii) : is_amount_unit ch = true -> is_dollar ch = false.
Proof.
  destruct ch as [[] [] [] [] [] [] [] []]; intros H; try reflexivity; discriminate H.
Qed.

Lemma dollar_not_amount_unit (ch : ascii) : is_dollar ch = true -> is_amount_unit ch = false.
Proof.
  destruct (is_amount_unit ch) eqn:E; [|reflexivity].
  apply amount_unit_not_dollar in E. congruence.
Qed.

(** Where no digit and no comma starts the text, no amount is matched. *)
Lemma amount_needs_unit (index : nat) (x : MatchState) (c : Continuation) :
  match rest x with
  | String ch _ => is_amount_unit ch = false
  | EmptyString => True
  end ->
  matcher (Group index amount) x c = None.
Proof.
  intros H. rewrite group_eq. unfold amount. rewrite greedy_plus.
  destruct (rest x) as [|ch s]; [reflexivity|]. now rewrite H.
Qed.

Lemma no_unit_head (s : string) :
  some_unit is_amount_unit s = false ->
  match s with
  | String ch _ => is_amount_unit ch = false
  | EmptyString => True
  end.
Proof.
  destruct s as [|ch s]; [trivial|]. cbn [some_unit]. intros H.
  now apply orb_false_iff in H as [H _].
Qed.

Lemma no_unit_tail (ch : ascii) (s : string) :
  some_unit is_amount_unit (String ch s) = false -> some_unit is_amount_unit s = false.
Proof. cbn [some_unit]. intros H. now apply orb_false_iff in H as [_ H]. Qed.

Lemma second_amount_needs_unit (e : nat) (s : string) (caps : list (option string))
    (c : Continuation) :
  some_unit is_amount_unit s = false ->
  second_amount c {| endIndex := e; rest := s; captures := caps |} = None.
Proof.
  intros H. unfold second_amount, dollar. rewrite optional_unit.
  cbn [rest endIndex captures].
  rewrite (amount_needs_unit 2 {| endIndex := e; rest := s; captures := caps |})
    by (now apply no_unit_head).
  destruct s as [|ch s]; [reflexivity|].
  destruct (is_dollar ch); [|reflexivity].
  rewrite amount_needs_unit; [reflexivity|].
  cbn [rest]. now apply no_unit_head, (no_unit_tail ch).
Qed.

Lemma after_first_amount_needs_unit (e : nat) (s : string) (caps : list (option string))
    (c : Continuation) :
  some_unit is_amount_unit s = false ->
  after_first_amount c {| endIndex := e; rest := s; captures := caps |} = None.
Proof.
  intros H. unfold after_first_amount, anything. rewrite lazy_star.
  cbn [endIndex rest captures]. revert e.
  induction s as [|ch s IH]; intros e; cbn [shortest_first];
    rewrite second_amount_needs_unit by assumption; [reflexivity|].
  destruct (is_not_line_terminator ch); [|reflexivity].
  apply IH. now apply (no_unit_tail ch).
Qed.

(** Without a digit or a comma there is no match at any position. *)
Lemma budget_needs_unit (index : nat) (s : string) :
  some_unit is_amount_unit s = false ->
  exec_from budget_pattern 2 index s = None.
Proof.
  revert index. induction s as [|ch s IH]; intros index H.
  - cbn [exec_from]. unfold match_at. rewrite budget_pattern_eq.
    unfold dollar. rewrite optional_unit. cbn [rest].
    now rewrite amount_needs_unit.
  - cbn [exec_from]. unfold match_at. rewrite budget_pattern_eq.
    unfold dollar. rewrite optional_unit. cbn [rest endIndex captures].
    rewrite (amount_needs_unit 1 {| endIndex := index; rest := String ch s;
                                    captures := repeat None 2 |})
      by (now apply no_unit_head).
    rewrite amount_needs_unit by (cbn [rest]; now apply no_unit_head, (no_unit_tail ch)).
    destruct (is_dollar ch); apply IH; now apply (no_unit_tail ch).
Qed.


(** ** A single run of digits and commas *)

(** The second amount, at a run of one code unit. *)
Lemma second_amount_one (e : nat) (ch : ascii) (post : string)
    (caps : list (option string)) (c : Continuation) :
  is_amount_unit ch = true -> some_unit is_amount_unit post = false ->
  second_amount c {| endIndex := e; rest := String ch post; captures := caps |}
  = c {| endIndex := S e; rest := post;
         captures := update 1 (Some (String ch EmptyString)) caps |}.
Proof.
  intros Hch Hpost. unfold second_amount, dollar. rewrite optional_unit.
  cbn [rest endIndex captures]. rewrite (amount_unit_not_dollar ch Hch).
  rewrite group_eq. unfold amount. rewrite greedy_plus. cbn [rest endIndex captures].
  rewrite Hch.
  assert (E : forall k, longest_first is_amount_unit k (S e) post caps
                        = k {| endIndex := S e; rest := post; captures := caps |}).
  { intros k. pose proof (no_unit_head post Hpost) as Hh.
    destruct post as [|h post]; [reflexivity|]. cbn [longest_first]. now rewrite Hh. }
  rewrite E. unfold with_capture. cbn [endIndex rest captures].
  replace (S e - e) with 1 by lia. reflexivity.
Qed.

(** The greedy run gives back one code unit when the continuation fails
    after all of it and succeeds before the last one. *)
Lemma longest_first_gives_back (k : Continuation) (run : string) (ch : ascii)
    (post : string) (caps : list (option string)) (z : MatchState) :
  every_unit is_amount_unit run = true -> is_amount_unit ch = true ->
  some_unit is_amount_unit post = false ->
  forall e,
    k {| endIndex := S (e + String.length run); rest := post; captures := caps |} = None ->
    k {| endIndex := e + String.length run; rest := String ch post; captures := caps |}
    = Some z ->
    longest_first is_amount_unit k e (run ++ String ch post) caps = Some z.
Proof.
  intros Hrun Hch Hpost. induction run as [|b run IH]; intros e Hnone Hsome.
  - cbn [append longest_first String.length] in *. rewrite Hch.
    rewrite Nat.add_0_r in *.
    assert (E : longest_first is_amount_unit k (S e) post caps
                = k {| endIndex := S e; rest := post; captures := caps |}).
    { pose proof (no_unit_head post Hpost) as Hh.
      destruct post as [|h post]; [reflexivity|]. cbn [longest_first]. now rewrite Hh. }
    now rewrite E, Hnone.
  - cbn [every_unit] in Hrun. apply andb_true_iff in Hrun as [Hb Hrun].
    cbn [append longest_first String.length] in *. rewrite Hb.
    replace (e + S (String.length run)) with (S e + String.length run) in * by lia.
    now rewrite (IH Hrun (S e) Hnone Hsome).
Qed.

(** The pattern at the start of a run of at least two digits or commas that
    nothing of the kind follows: the group 1 is the run without its last code
    unit, the group 2 that code unit. *)
Lemma first_amount_run (e : nat) (a : ascii) (run : string) (ch : ascii) (post : string)
    (caps : list (option string)) :
  is_amount_unit a = true -> every_unit is_amount_unit run = true ->
  is_amount_unit ch = true -> some_unit is_amount_unit post = false ->
  matcher (Group 1 amount)
    {| endIndex := e; rest := String a (run ++ String ch post); captures := caps |}
    (after_first_amount Some)
  = Some {| endIndex := S (S (e + String.length run)); rest := post;
            captures := update 1 (Some (String ch EmptyString))
                          (update 0 (Some (String a run)) caps) |}.
Proof.
  intros Ha Hrun Hch Hpost. rewrite group_eq. unfold amount. rewrite greedy_plus.
  cbn [rest endIndex captures]. rewrite Ha.
  apply longest_first_gives_back; try assumption.
  - unfold with_capture. cbn [endIndex rest captures].
    now apply after_first_amount_needs_unit.
  - unfold with_capture. cbn [endIndex rest captures].
    unfold after_first_amount, anything. rewrite lazy_star.
    cbn [endIndex rest captures shortest_first].
    rewrite second_amount_one by assumption.
    replace (S e + String.length run - e) with (String.length (String a run))
      by (cbn [String.length]; lia).
    change (String a (run ++ String ch post)) with (String a run ++ String ch post).
    rewrite take_length_app. reflexivity.
Qed.

Lemma budget_at_run (e : nat) (a : ascii) (run : string) (ch : ascii) (post : string) :
  is_amount_unit a = true -> every_unit is_amount_unit run = true ->
  is_amount_unit ch = true -> some_unit is_amount_unit post = false ->
  match_at budget_pattern 2 e (String a (run ++ String ch post))
  = Some {| endIndex := S (S (e + String.length run)); rest := post;
            captures := [Some (String a run); Some (String ch EmptyString)] |}.
Proof.
  intros Ha Hrun Hch Hpost. unfold match_at. rewrite budget_pattern_eq.
  unfold dollar. rewrite optional_unit. cbn [rest endIndex captures].
  rewrite (amount_unit_not_dollar a Ha).
  now rewrite first_amount_run.
Qed.

(** The same when text without digits and commas comes first. *)
Lemma budget_single_run (pre : string) (a : ascii) (run : string) (ch : ascii)
    (post : string) (index : nat) :
  some_unit is_amount_unit pre = false ->
  is_amount_unit a = true -> every_unit is_amount_unit run = true ->
  is_amount_unit ch = true -> some_unit is_amount_unit post = false ->
  exists result,
    exec_from budget_pattern 2 index (pre ++ String a (run ++ String ch post))
    = Some result /\
    captured result = [Some (String a run); Some (String ch EmptyString)].
Proof.
  intros Hpre Ha Hrun Hch Hpost. revert index.
  induction pre as [|h pre IH]; intros index.
  - cbn [append exec_from]. rewrite budget_at_run by assumption.
    eexists. split; reflexivity.
  - cbn [append exec_from].
    pose proof (no_unit_head _ Hpre) as Hh. cbn beta iota in Hh.
    specialize (IH (no_unit_tail _ _ Hpre)).
    assert (Hat : match_at budget_pattern 2 index
                    (String h (pre ++ String a (run ++ String ch post))) = None
                  \/ exists z, match_at budget_pattern 2 index
                                 (String h (pre ++ String a (run ++ String ch post)))
                               = Some z /\
                               captures z = [Some (String a run);
                                             Some (String ch EmptyString)]).
    { unfold match_at. rewrite budget_pattern_eq. unfold dollar. rewrite optional_unit.
      cbn [rest endIndex captures].
      rewrite (amount_needs_unit 1 {| endIndex := index;
                                      rest := String h (pre ++ String a (run ++ String ch post));
                                      captures := repeat None 2 |})
        by exact Hh.
      destruct (is_dollar h); [|now left].
      destruct pre as [|h' pre].
      - cbn [append]. rewrite first_amount_run by assumption.
        right. eexists. split; reflexivity.
      - cbn [append]. rewrite amount_needs_unit; [now left|].
        cbn [rest]. apply (no_unit_head (String h' pre)).
        now apply (no_unit_tail h). }
    destruct Hat as [-> | (z & -> & Hz)].
    + apply IH.
    + eexists. split; [reflexivity|]. exact Hz.
Qed.


(** ** The groups of a match are defined *)

Lemma CharSet_keeps (set : ascii -> bool) : keeps_captures (matcher (CharSet set)).
Proof.
  intros x c z. rewrite matcher_CharSet.
  destruct (rest x) as [|ch s]; [discriminate|].
  destruct (set ch); [|discriminate]. intros H. eexists. split; [exact H | reflexivity].
Qed.

Lemma RepeatMatcher_keeps (m : Matcher) (fuel min : nat) (max : option nat)
    (greedy : bool) :
  keeps_captures m -> keeps_captures (RepeatMatcher fuel m [] min max greedy).
Proof.
  intros Hm. revert min max. induction fuel as [|fuel IH]; intros min max x c z;
    [discriminate|].
  rewrite RepeatMatcher_S. cbv zeta. cbn [clear fold_right].
  assert (Hc : c x = Some z -> exists y, c y = Some z /\ captures y = captures x)
    by (intros H; now exists x).
  assert (Hd : m x (fun y =>
                      if Nat.eqb min 0 && Nat.eqb (endIndex y) (endIndex x) then None
                      else RepeatMatcher fuel m [] (Nat.pred min) (option_map Nat.pred max)
                             greedy y c) = Some z ->
               exists y, c y = Some z /\ captures y = captures x).
  { intros H. apply Hm in H as (y1 & H1 & E1).
    destruct (Nat.eqb min 0 && Nat.eqb (endIndex y1) (endIndex x)); [discriminate|].
    apply IH in H1 as (y & H & E). exists y. split; [exact H | congruence]. }
  destruct (match max with Some 0 => true | _ => false end); [exact Hc|].
  destruct (negb (Nat.eqb min 0)); [exact Hd|].
  destruct (negb greedy).
  - destruct (c x) as [z0|] eqn:E; [|exact Hd].
    intros H. injection H as <-. now exists x.
  - destruct (m x _) as [z0|] eqn:E; [|exact Hc].
    intros H. injection H as <-. now apply Hd.
Qed.

Lemma Repeat_CharSet_keeps (set : ascii -> bool) (min : nat) (max : option nat)
    (greedy : bool) :
  keeps_captures (matcher (Repeat (CharSet set) min max greedy)).
Proof.
  intros x c z. rewrite matcher_Repeat. cbn [parens].
  apply RepeatMatcher_keeps, CharSet_keeps.
Qed.

(** Whenever the budget pattern matches, its two groups hold a text. *)
Lemma budget_groups_defined (index : nat) (s : string) (z : MatchState) :
  match_at budget_pattern 2 index s = Some z ->
  exists low high, captures z = [Some low; Some high].
Proof.
  unfold match_at. rewrite budget_pattern_eq. intros H.
  apply Repeat_CharSet_keeps in H as (y1 & H & E1). cbn [captures repeat] in E1.
  rewrite group_eq in H. apply Repeat_CharSet_keeps in H as (y2 & H & E2).
  unfold after_first_amount in H.
  apply Repeat_CharSet_keeps in H as (y3 & H & E3).
  unfold second_amount in H.
  apply Repeat_CharSet_keeps in H as (y4 & H & E4).
  rewrite group_eq in H. apply Repeat_CharSet_keeps in H as (y5 & H & E5).
  injection H as <-. unfold with_capture in *. cbn [captures] in *.
  rewrite E5, E4, E3, E2, E1. cbn [update Nat.sub]. eexists _, _. reflexivity.
Qed.

Lemma exec_from_groups_defined (index : nat) (s : string) (result : MatchResult) :
  exec_from budget_pattern 2 index s = Some result ->
  exists low high, captured result = [Some low; Some high].
Proof.
  revert index. induction s as [|ch s IH]; intros index; cbn [exec_from].
  - destruct (match_at budget_pattern 2 index "") as [z|] eqn:E; [|discriminate].
    intros H. injection H as <-. cbn [captured]. now apply (budget_groups_defined index "").
  - destruct (match_at budget_pattern 2 index (String ch s)) as [z|] eqn:E; [|apply IH].
    intros H. injection H as <-. cbn [captured].
    now apply (budget_groups_defined index (String ch s)).
Qed.

End BudgetPattern.

(* ===================================================================== *)
(** * The store: budgets read from answers, and the actions *)
(* ===================================================================== *)

Section BudgetExtraction.
Import Js RegExp ChatStore.

(** ** Decimal texts, read in two parts *)

Lemma digits_value_app (r t : string) (acc : option Z) :
  every_unit is_digit r = true ->
  digits_value 10 acc (r ++ t) = digits_value 10 (digits_value 10 acc r) t.
Proof.
  revert acc. induction r as [|c r IH]; intros acc H; [reflexivity|].
  cbn [every_unit] in H. apply andb_true_iff in H as [Hc Hr].
  cbn [append digits_value]. destruct (is_digit_value c Hc) as (-> & _).
  now apply IH.
Qed.

Lemma digits_value_digits (r : string) :
  every_unit is_digit r = true -> r <> EmptyString ->
  exists v, digits_value 10 None r = Some v /\ (0 <= v)%Z /\ parseInt r = Int v.
Proof.
  destruct r as [|c r]; [congruence|]. intros H _.
  cbn [every_unit] in H. apply andb_true_iff in H as [Hc Hr].
  assert (E : parseInt (String c r)
              = match digits_value 10 None (String c r) with
                | Some v => Int v
                | None => NaN
                end).
  { apply parseInt_digit_led; [assumption|].
    destruct r as [|c2 r]; [exact I|]. left.
    cbn [every_unit] in Hr. now apply andb_true_iff in Hr as [Hr _]. }
  rewrite E. cbn [digits_value]. destruct (is_digit_value c Hc) as (-> & Hrange & _).
  destruct (digits_value_some r (Z.of_N (code c) - 48)%Z ltac:(lia)) as (v & -> & Hv).
  exists v. repeat split. lia.
Qed.

Lemma split_last (s : string) :
  2 <= String.length s ->
  exists a run c, s = String a (run ++ String c EmptyString).
Proof.
  assert (H : forall t, 1 <= String.length t -> exists run c, t = run ++ String c "").
  { induction t as [|b t IH]; [cbn; lia|]. intros _.
    destruct t as [|b' t].
    - exists EmptyString, b. reflexivity.
    - destruct (IH ltac:(cbn; lia)) as (run & c & E).
      exists (String b run), c. cbn [append]. now rewrite <- E. }
  destruct s as [|a s]; [cbn; lia|]. cbn [String.length]. intros Hs.
  destruct (H s ltac:(lia)) as (run & c & ->). now exists a, run, c.
Qed.

Lemma remove_commas_digits (r : string) :
  every_unit is_digit r = true -> remove_commas r = r.
Proof.
  induction r as [|c r IH]; [reflexivity|]. cbn [every_unit remove_commas].
  intros H. apply andb_true_iff in H as [Hc Hr]. rewrite (IH Hr).
  destruct (is_digit_value c Hc) as (_ & _ & _ & Hsep & _).
  unfold MessageProtocol.is_separator in Hsep. apply orb_false_iff in Hsep as [_ Hcomma].
  now rewrite Hcomma.
Qed.

(** The decimal text of an integer from 10 on, cut before its last digit:
    the two parts are read as the quotient and the remainder by 10. *)
Lemma decimal_text_split (n : Z) :
  (10 <= n)%Z ->
  exists a run c,
    string_of_Z n = String a (run ++ String c EmptyString) /\
    every_unit is_digit (String a run) = true /\ is_digit c = true /\
    parseInt (String a run) = Int (n / 10) /\
    parseInt (String c EmptyString) = Int (n mod 10).
Proof.
  intros Hn. destruct (string_of_Z_digits n ltac:(lia)) as (d & Hd & Htext & Hvalue).
  pose proof (uint_text_digits d) as Hdigits. rewrite <- Htext in Hdigits.
  pose proof (digits_value_uint d EmptyString Hd) as Hv.
  rewrite <- Htext, Hvalue in Hv.
  rewrite digits_value_app in Hv by assumption.
  assert (Hwhole : digits_value 10 None (string_of_Z n) = Some n).
  { destruct (digits_value 10 None (string_of_Z n)); [exact Hv | discriminate Hv]. }
  clear Hv.
  assert (Hlen : 2 <= String.length (string_of_Z n)).
  { destruct (string_of_Z n) as [|a [|b s]] eqn:E; cbn [String.length]; try lia.
    - discriminate Hwhole.
    - cbn [every_unit] in Hdigits. apply andb_true_iff in Hdigits as [Ha _].
      cbn [digits_value] in Hwhole. destruct (is_digit_value a Ha) as (Er & Hrange & _).
      rewrite Er in Hwhole. injection Hwhole as Hwhole. lia. }
  destruct (split_last _ Hlen) as (a & run & c & E).
  exists a, run, c. split; [exact E|].
  rewrite E in Hdigits, Hwhole.
  change (String a (run ++ String c "")) with (String a run ++ String c "") in *.
  rewrite every_unit_app in Hdigits. apply andb_true_iff in Hdigits as [Hrun Hc].
  cbn [every_unit] in Hc. rewrite andb_true_r in Hc.
  split; [exact Hrun|]. split; [exact Hc|].
  destruct (digits_value_digits (String a run) Hrun ltac:(discriminate))
    as (v & Ev & Hv & Ep).
  rewrite digits_value_app, Ev in Hwhole by assumption.
  cbn [digits_value] in Hwhole. destruct (is_digit_value c Hc) as (Er & Hrange & _).
  rewrite Er in Hwhole. injection Hwhole as Hwhole.
  assert (Hq : (n / 10 = v)%Z) by (symmetry; apply (Z.div_unique n 10 v (Z.of_N (code c) - 48)); lia).
  assert (Hr : (n mod 10 = Z.of_N (code c) - 48)%Z)
    by (symmetry; apply (Z.mod_unique n 10 v (Z.of_N (code c) - 48)); lia).
  split.
  - rewrite Ep. now rewrite Hq.
  - rewrite parseInt_digit_led by (assumption || exact I).
    cbn [digits_value]. rewrite Er. now rewrite Hr.
Qed.

(** ** extractBudgetFromResponse *)

Lemma budget_returned (response : ChatService.BackendResponse) :
  exists budget,
    extractBudgetFromResponse response = ChatService.Return budget /\
    (some_unit is_amount_unit (ChatService.message response) = false -> budget = None).
Proof.
  unfold extractBudgetFromResponse, exec.
  destruct (exec_from budget_pattern 2 0 (ChatService.message response))
    as [result|] eqn:E.
  - destruct (exec_from_groups_defined _ _ _ E) as (low & high & ->).
    eexists. split; [reflexivity|]. intros H.
    rewrite budget_needs_unit in E by assumption. discriminate E.
  - exists None. split; [reflexivity | trivial].
Qed.

Lemma budget_of_single_number (response : ChatService.BackendResponse)
    (pre post : string) (n : Z) :
  (10 <= n)%Z ->
  some_unit is_amount_unit pre = false ->
  some_unit is_amount_unit post = false ->
  ChatService.message response = pre ++ string_of_Z n ++ post ->
  extractBudgetFromResponse response
  = ChatService.Return (Some {| min := Int (n / 10); max := Int (n mod 10) |}).
Proof.
  intros Hn Hpre Hpost Hm.
  destruct (decimal_text_split n Hn) as (a & run & c & E & Hrun & Hc & Hlow & Hhigh).
  assert (Hunits : forall s, every_unit is_digit s = true ->
                             every_unit is_amount_unit s = true).
  { intros s. apply every_unit_weaken. intros ch H. unfold is_amount_unit. now rewrite H. }
  pose proof (Hunits _ Hrun) as Hrun'. cbn [every_unit] in Hrun'.
  apply andb_true_iff in Hrun' as [Ha Hrun'].
  assert (Hc' : is_amount_unit c = true) by (unfold is_amount_unit; now rewrite Hc).
  unfold extractBudgetFromResponse, exec. rewrite Hm, E.
  cbn [append]. rewrite append_assoc. cbn [append].
  destruct (budget_single_run pre a run c post 0 Hpre Ha Hrun' Hc' Hpost)
    as (result & -> & ->).
  rewrite (remove_commas_digits (String a run)) by assumption.
  rewrite (remove_commas_digits (String c "")) by (cbn [every_unit]; now rewrite Hc).
  now rewrite Hlow, Hhigh.
Qed.

(** [extractBudgetFromResponse] never throws: whenever the pattern matches,
    its two groups hold a text.  And a message without a digit and without a
    comma has no budget. *)
Theorem budget_never_throws (response : ChatService.BackendResponse) :
  (exists budget, extractBudgetFromResponse response = ChatService.Return budget) /\
  (some_unit is_amount_unit (ChatService.message response) = false ->
   extractBudgetFromResponse response = ChatService.Return None).
Proof.
  destruct (budget_returned response) as (budget & E & H). split.
  - now exists budget.
  - intros Hn. now rewrite E, (H Hn).
Qed.

(** A message whose only digits are those of one integer from 10 on and of
    at most 16 digits, with no comma anywhere, is read as a budget: the
    greedy first group gives back the last digit to the second group, so the
    minimum is the integer without its last digit, which has at most 15
    digits and is read exactly, and the maximum is that digit. *)
Theorem single_number_is_split (response : ChatService.BackendResponse)
    (pre post : string) (n : Z) :
  (10 <= n < 10 ^ 16)%Z ->
  some_unit is_amount_unit pre = false ->
  some_unit is_amount_unit post = false ->
  ChatService.message response = pre ++ string_of_Z n ++ post ->
  extractBudgetFromResponse response
  = ChatService.Return (Some {| min := Int (n / 10); max := Int (n mod 10) |}) /\
  (1 <= n / 10 < 10 ^ 15)%Z /\ (0 <= n mod 10 <= 9)%Z.
Proof.
  intros Hn Hpre Hpost Hm.
  split; [apply (budget_of_single_number response pre post n); (lia || assumption)|].
  split.
  - split; [apply Z.div_le_lower_bound; lia | apply Z.div_lt_upper_bound; lia].
  - pose proof (Z.mod_pos_bound n 10 ltac:(lia)). lia.
Qed.

Lemma single_number_is_split_witness :
  let response :=
    ChatService.error_response
      {| ChatService.type := ChatService.ErrorType.server;
         ChatService.statusCode := None;
         ChatService.retryable := false;
         ChatService.userMessage := "Encontramos 15 productos";
         ChatService.technicalMessage := "" |} 0 in
  extractBudgetFromResponse response
  = ChatService.Return (Some {| min := Int 1; max := Int 5 |}).
Proof.
  intros response.
  apply (single_number_is_split response "Encontramos " " productos" 15);
    [lia | reflexivity | reflexivity | reflexivity].
Defined.

End BudgetExtraction.

Section Store.
Import Js Api ChatStore.

(** The two outcomes of [sendMessage] when there is a service: only the
    first one occurs. *)
Lemma sendMessage_answered (messageText : string)
    (script : nat -> ChatService.Attempt) (state : ChatState) (service : Service) :
  chatService state = Some service ->
  let r := run service in
  let response := fst (ChatService.sendMessage (config service) script r) in
  let r' := snd (ChatService.sendMessage (config service) script r) in
  exists budget,
    extractBudgetFromResponse response = ChatService.Return budget /\
    sendMessage messageText script state
    = {| messages := (messages state ++ [userMessage messageText r]
                      ++ [assistantMessage response r r'])%list;
         isTyping := false;
         connectionStatus := Connection.online;
         sessionId := sessionId state;
         products :=
           match ChatService.products response with Some l => l | None => [] end;
         searchContext :=
           {| lastQuery := messageText;
              confidence := ChatService.confidence response;
              missingCriteria := extractMissingCriteria response;
              budgetRange := budget;
              category := extractCategoryFromResponse response;
              productCount :=
                match ChatService.products response with
                | Some l => or_else (Int (Z.of_nat (List.length l))) (Int 0)
                | None => Int 0
                end |};
         showLanding := false;
         currentError := None;
         chatService := Some {| config := config service; run := r' |} |}.
Proof.
  intros Hs. cbv zeta. unfold sendMessage. rewrite Hs.
  destruct (ChatService.sendMessage (config service) script (run service))
    as [response r']. cbn [fst snd].
  destruct (budget_returned response) as (budget & E & _).
  exists budget. split; [exact E|]. rewrite E. now rewrite <- app_assoc.
Qed.

(** For every transport whose failures are values of [Thrown], errors or
    values that [analyzeError] can print, [ChatService.sendMessage] returns
    its failures as responses, and the helpers of the store never throw.  So
    the [catch] branch of the store is not taken with such a transport: the
    store ends [online], without an error, with the message of the user and
    the answer of the service, failed or not, added as an ordinary message
    of the assistant. *)
Theorem failed_send_stays_online (messageText : string)
    (script : nat -> ChatService.Attempt) (state : ChatState) (service : Service) :
  chatService state = Some service ->
  let state' := sendMessage messageText script state in
  let answer := fst (ChatService.sendMessage (config service) script (run service)) in
  connectionStatus state' = Connection.online /\
  currentError state' = None /\
  isTyping state' = false /\
  showLanding state' = false /\
  exists user assistant,
    messages state' = (messages state ++ [user; assistant])%list /\
    Message.sender user = Sender.user /\ Message.text user = messageText /\
    Message.sender assistant = Sender.assistant /\
    Message.text assistant = ChatService.message answer /\
    Message.isError assistant = None.
Proof.
  intros Hs. cbv zeta.
  destruct (sendMessage_answered messageText script state service Hs) as (budget & _ & ->).
  cbn [connectionStatus currentError isTyping showLanding messages].
  repeat split. eexists _, _. split; [reflexivity|]. repeat split.
Qed.

(** Right after a message was sent, [retryLastMessage] sends the same text
    once more. *)
Theorem retry_resends_last_text (messageText : string)
    (script : nat -> ChatService.Attempt) (state : ChatState) :
  retryLastMessage script (sendMessage messageText script state)
  = sendMessage messageText script (sendMessage messageText script state).
Proof.
  destruct (chatService state) as [service|] eqn:Hs.
  - destruct (sendMessage_answered messageText script state service Hs)
      as (budget & _ & E).
    cbv zeta in E. rewrite E. unfold retryLastMessage at 1. cbn [messages].
    rewrite !rev_app_distr. cbn [rev app find Message.sender assistantMessage userMessage].
    reflexivity.
  - assert (E : forall text s, chatService s = None -> sendMessage text script s = s)
      by (intros text s H; unfold sendMessage; now rewrite H).
    rewrite !E by assumption. unfold retryLastMessage.
    destruct (find _ _); [now apply E | reflexivity].
Qed.

(** [startNewChat] keeps the instance of the service, and with it the retry
    counter: when the budget was used up before, the first message of the
    new chat is attempted once and no delay is requested. *)
Theorem new_chat_keeps_exhausted_budget (e : Entropy) (messageText : string)
    (script : nat -> ChatService.Attempt) (state : ChatState) (service : Service) :
  chatService state = Some service ->
  ChatService.retries (config service) <= ChatService.retryCount (run service) ->
  exists service',
    chatService (sendMessage messageText script (startNewChat e state)) = Some service' /\
    config service' = config service /\
    ChatService.attempts (run service') = S (ChatService.attempts (run service)) /\
    ChatService.waits (ChatService.log (run service'))
    = ChatService.waits (ChatService.log (run service)).
Proof.
  intros Hs Hmax.
  assert (Hs' : chatService (startNewChat e state) = Some service) by exact Hs.
  destruct (sendMessage_answered messageText script _ service Hs') as (budget & _ & ->).
  cbn [chatService]. eexists. split; [reflexivity|]. cbn [config run].
  pose proof (sendMessage_no_budget (config service) script (run service) Hmax) as H.
  destruct (ChatService.sendMessage (config service) script (run service)) as [response r'].
  cbn [snd]. destruct H as (Ha & Hw & _). now repeat split.
Qed.


(** A response with a status below 500 other than 400, 404 and 429 comes
    back from the service as the text of a server error that quotes the
    status; the store reads that text for a budget and stores the status
    without its last digit as the minimum and its last digit as the
    maximum. *)
Theorem error_status_read_as_budget (messageText : string)
    (script : nat -> ChatService.Attempt) (state : ChatState) (service : Service)
    (status : Z) (statusText : string) (body : ChatService.Body) :
  chatService state = Some service ->
  ChatService.outcome (script (ChatService.attempts (run service)))
  = ChatService.Responded status statusText body ->
  (10 <= status < 200 \/ 300 <= status < 500)%Z ->
  status <> 400%Z -> status <> 404%Z -> status <> 429%Z ->
  includes statusText "fetch" = false ->
  includes statusText "NetworkError" = false ->
  let state' := sendMessage messageText script state in
  budgetRange (searchContext state')
  = Some {| min := Int (status / 10); max := Int (status mod 10) |} /\
  connectionStatus state' = Connection.online /\
  exists user assistant,
    messages state' = (messages state ++ [user; assistant])%list /\
    Message.text assistant
    = "❌ Error del servidor (" ++ string_of_Z status ++ "). Intenta de nuevo.".
Proof.
  intros Hs Ho Hrange H400 H404 H429 Hf Hn.
  assert (Hok : ChatService.ok status = false).
  { unfold ChatService.ok. apply andb_false_iff.
    destruct Hrange as [H|H]; [left; apply Z.leb_gt; lia | right; apply Z.leb_gt; lia]. }
  destruct (status_message status statusText ltac:(lia) Hf Hn) as (H1 & H2 & H3 & H4).
  cbv zeta in H1, H2, H3, H4.
  assert (Hsend : fst (ChatService.sendMessage (config service) script (run service))
                  = ChatService.error_response
                      {| ChatService.type := ChatService.ErrorType.server;
                         ChatService.statusCode := Some (Int status);
                         ChatService.retryable := false;
                         ChatService.userMessage :=
                           "❌ Error del servidor (" ++ string_of_Z status
                           ++ "). Intenta de nuevo.";
                         ChatService.technicalMessage :=
                           "HTTP_" ++ string_of_Z status ++ ": " ++ statusText |}
                      (ChatService.latency
                         (script (ChatService.attempts (run service))))).
  { rewrite sendMessage_eq. cbv zeta. rewrite Ho. cbn [ChatService.makeRequest].
    rewrite Hok. cbn [negb ChatService.analyzeError].
    rewrite H1, H2, H3, H4. cbn [orb strict_eq geb leb].
    replace (status =? 429)%Z with false by (symmetry; apply Z.eqb_neq; lia).
    replace (500 <=? status)%Z with false by (symmetry; apply Z.leb_gt; lia).
    replace (status =? 400)%Z with false by (symmetry; apply Z.eqb_neq; lia).
    replace (status =? 404)%Z with false by (symmetry; apply Z.eqb_neq; lia).
    cbn [ChatService.retryable andb fst ChatService.string_of_number].
    f_equal. cbn [ChatService.attempted ChatService.clock]. lia. }
  destruct (sendMessage_answered messageText script state service Hs) as (budget & E & ->).
  cbv zeta in E. rewrite Hsend in *.
  rewrite (budget_of_single_number _ "❌ Error del servidor (" "). Intenta de nuevo." status)
    in E; [|lia|reflexivity|reflexivity|reflexivity].
  injection E as <-.
  cbn [searchContext budgetRange connectionStatus messages].
  repeat split. eexists _, _. split; reflexivity.
Qed.

End Store.

Section StoreInstances.
Import Js Api ChatStore Samples.

Lemma failed_send_stays_online_witness :
  let state' := sendMessage "hola" forbidden ready in
  let answer :=
    fst (ChatService.sendMessage (config ready_service) forbidden (run ready_service)) in
  connectionStatus state' = Connection.online /\
  currentError state' = None /\
  isTyping state' = false /\
  showLanding state' = false /\
  exists user assistant,
    messages state' = (messages ready ++ [user; assistant])%list /\
    Message.sender user = Sender.user /\ Message.text user = "hola" /\
    Message.sender assistant = Sender.assistant /\
    Message.text assistant = ChatService.message answer /\
    Message.isError assistant = None.
Proof.
  exact (failed_send_stays_online "hola" forbidden ready ready_service eq_refl).
Defined.

Lemma error_status_read_as_budget_witness :
  let state' := sendMessage "hola" forbidden ready in
  budgetRange (searchContext state') = Some {| min := Int 40; max := Int 3 |} /\
  connectionStatus state' = Connection.online /\
  exists user assistant,
    messages state' = (messages ready ++ [user; assistant])%list /\
    Message.text assistant = "❌ Error del servidor (403). Intenta de nuevo.".
Proof.
  apply (error_status_read_as_budget "hola" forbidden ready ready_service 403 "Forbidden"
           (ChatService.Json None));
    try reflexivity; try lia; discriminate.
Defined.

Lemma new_chat_keeps_exhausted_budget_witness :
  exists service',
    chatService (sendMessage "hola" forbidden (startNewChat evening exhausted))
    = Some service' /\
    config service' = config exhausted_service /\
    ChatService.attempts (run service') = 5 /\
    ChatService.waits (ChatService.log (run service')) = [].
Proof.
  apply (new_chat_keeps_exhausted_budget evening "hola" forbidden exhausted
           exhausted_service eq_refl (le_n 3)).
Defined.

End StoreInstances.
